(** * DownloadClimateData: the data-transform core of [app.py]

    A shallow embedding of the unit converter, the date clamper, the
    time-series fetcher, the ensemble aggregator and the CSV packager of
    [src/app.py], followed by the properties of the specification that
    concern them.

    Modelling conventions.
    - Python [float] values are modelled by exact rationals ([Q]); the
      rounding of binary64 arithmetic is not represented.  Its range is,
      where a conversion raises: [float] of an integer that is too large.
    - A raising Python call is an explicit [Raised] outcome.
    - A pandas [DataFrame] is an ordered list of column names together with
      an ordered list of rows.
    - The Earth Engine service and the pandas/Python conversions whose
      behaviour is fixed by those libraries are parameters of the model. *)

From Stdlib Require Import String Ascii List ZArith QArith Lia Bool.
From Stdlib Require Import Sorting.Sorted Sorting.Mergesort Sorting.Permutation.
From Stdlib Require Import DecimalString.
Import ListNotations.

Local Open Scope string_scope.
Local Open Scope list_scope.

(* ================================================================== *)
(** * Part I: definitions                                              *)
(* ================================================================== *)

(** ** Python outcomes *)

(** The outcome of a Python call: it returns a value or an exception
    propagates out of it. *)
Inductive outcome (A : Type) : Type :=
| Raised : outcome A
| Returned : A -> outcome A.

Arguments Raised {A}.
Arguments Returned {A} _.

(** [x in xs] for a list of strings. *)
Definition str_in (x : string) (xs : list string) : bool :=
  existsb (String.eqb x) xs.

(** ** Unit converter (app.py, lines 77-88) *)

Module Units.

Definition convert_units (band : string) (value : Q) : Q :=
  if str_in band ["tas"; "tasmax"; "tasmin"] then
    (value - 273.15)%Q
  else if (band =? "pr")%string then
    (value * 86400)%Q
  else
    value.

End Units.

(** ** Date clamper (app.py, lines 582-594) *)

Module Dates.

Local Open Scope Z_scope.

(** A [pd.Timestamp] at day resolution.  Every caller passes calendar days
    written [YYYY-MM-DD] (the values of [DECADES]), for which the order of
    timestamps is the lexicographic order of (year, month, day). *)
Record Timestamp : Type := mkTimestamp {
  ts_year : Z;
  ts_month : Z;
  ts_day : Z
}.

Definition is_leap (y : Z) : bool :=
  ((y mod 4 =? 0) && negb (y mod 100 =? 0)) || (y mod 400 =? 0).

Definition days_in_month (y m : Z) : Z :=
  if m =? 2 then (if is_leap y then 29 else 28)
  else if (m =? 4) || (m =? 6) || (m =? 9) || (m =? 11) then 30
  else 31.

(** Calendar days that every pandas version represents as a nanosecond
    [Timestamp]: the whole years 1678 to 2261. *)
Definition valid_dateb (t : Timestamp) : bool :=
  (1678 <=? ts_year t) && (ts_year t <=? 2261) &&
  (1 <=? ts_month t) && (ts_month t <=? 12) &&
  (1 <=? ts_day t) && (ts_day t <=? days_in_month (ts_year t) (ts_month t)).

Definition valid_date (t : Timestamp) : Prop := valid_dateb t = true.

Definition digit_of_ascii (c : ascii) : option Z :=
  let n := Z.of_nat (nat_of_ascii c) in
  if (48 <=? n) && (n <=? 57) then Some (n - 48) else None.

Definition ascii_of_digit (d : Z) : ascii :=
  ascii_of_nat (Z.to_nat (48 + d)).

(** The number written by a list of decimal digits, [None] when one of the
    characters is not a digit. *)
Fixpoint number_of_digits (acc : Z) (cs : list ascii) : option Z :=
  match cs with
  | [] => Some acc
  | c :: cs' =>
      match digit_of_ascii c with
      | Some d => number_of_digits (10 * acc + d) cs'
      | None => None
      end
  end.

Definition hyphen : ascii := "-"%char.

(** [pd.to_datetime] on the strings [YYYY-MM-DD]; [None] stands for every
    input outside this model (pandas raises on an unparseable string). *)
Definition to_datetime (s : string) : option Timestamp :=
  match list_ascii_of_string s with
  | [y1; y2; y3; y4; h1; m1; m2; h2; d1; d2] =>
      if Ascii.eqb h1 hyphen && Ascii.eqb h2 hyphen then
        match number_of_digits 0 [y1; y2; y3; y4],
              number_of_digits 0 [m1; m2],
              number_of_digits 0 [d1; d2] with
        | Some y, Some m, Some d =>
            let t := mkTimestamp y m d in
            if valid_dateb t then Some t else None
        | _, _, _ => None
        end
      else None
  | _ => None
  end.

(** [t.strftime("%Y-%m-%d")]. *)
Definition strftime (t : Timestamp) : string :=
  let y := ts_year t in
  let m := ts_month t in
  let d := ts_day t in
  string_of_list_ascii
    [ ascii_of_digit (y / 1000 mod 10); ascii_of_digit (y / 100 mod 10);
      ascii_of_digit (y / 10 mod 10); ascii_of_digit (y mod 10);
      hyphen;
      ascii_of_digit (m / 10 mod 10); ascii_of_digit (m mod 10);
      hyphen;
      ascii_of_digit (d / 10 mod 10); ascii_of_digit (d mod 10) ].

(** [a < b] on timestamps. *)
Definition ts_ltb (a b : Timestamp) : bool :=
  (ts_year a <? ts_year b) ||
  ((ts_year a =? ts_year b) &&
   ((ts_month a <? ts_month b) ||
    ((ts_month a =? ts_month b) && (ts_day a <? ts_day b)))).

(** [a > b] is [b < a]. *)
Definition ts_gtb (a b : Timestamp) : bool := ts_ltb b a.

Definition ts_le (a b : Timestamp) : Prop := ts_ltb b a = false.

(** Python's two-argument [max(a, b)] and [min(a, b)]: the first argument
    is kept unless the second is strictly better. *)
Definition py_max (a b : Timestamp) : Timestamp := if ts_gtb b a then b else a.
Definition py_min (a b : Timestamp) : Timestamp := if ts_ltb b a then b else a.

Definition clamp_dates_for_scenario (start_date end_date scenario : string)
  : outcome (option (string * string)) :=
  match to_datetime start_date, to_datetime end_date with
  | Some sdt, Some edt =>
      let '(s_min, s_max) :=
        if (scenario =? "historical")%string
        then (mkTimestamp 1950 1 1, mkTimestamp 2014 12 31)
        else (mkTimestamp 2015 1 1, mkTimestamp 2100 12 31) in
      let sdt := py_max sdt s_min in
      let edt := py_min edt s_max in
      if ts_gtb sdt edt then Returned None
      else Returned (Some (strftime sdt, strftime edt))
  | _, _ => Raised
  end.

(** The scenario's valid window as the specification states it. *)
Definition valid_window (scenario : string) : Timestamp * Timestamp :=
  if (scenario =? "historical")%string
  then (mkTimestamp 1950 1 1, mkTimestamp 2014 12 31)
  else (mkTimestamp 2015 1 1, mkTimestamp 2100 12 31).

(** [d] lies in the closed window [[a, b]]. *)
Definition in_window (a b d : Timestamp) : Prop := ts_le a d /\ ts_le d b.

End Dates.

(** ** Tables (pandas [DataFrame]) *)

Module Frames.

(** The five columns of an observation table. *)
Inductive Col : Type :=
| col_date | col_band | col_value | col_model | col_scenario.

Definition col_name (c : Col) : string :=
  match c with
  | col_date => "date"
  | col_band => "band"
  | col_value => "value"
  | col_model => "model"
  | col_scenario => "scenario"
  end.

Definition col_eqb (a b : Col) : bool :=
  match a, b with
  | col_date, col_date | col_band, col_band | col_value, col_value
  | col_model, col_model | col_scenario, col_scenario => true
  | _, _ => false
  end.

(** An observation record. *)
Record Row : Type := mkRow {
  date : string;
  band : string;
  value : Q;
  model : string;
  scenario : string
}.

(** A table: its column names in order and its rows in order.  Every table
    that holds rows has all five columns; only their order varies. *)
Record DataFrame : Type := mkFrame {
  columns : list Col;
  rows : list Row
}.

(** The column order written by [fetch_point_timeseries]. *)
Definition std_columns : list Col :=
  [col_date; col_band; col_value; col_model; col_scenario].

(** [pd.DataFrame(columns=["date", "band", "value", "model", "scenario"])]. *)
Definition empty_with_columns : DataFrame := mkFrame std_columns [].

(** [pd.DataFrame.from_records(recs)] for dictionaries with the keys
    date, band, value, model, scenario in this order; without records the
    table has no column at all. *)
Definition from_records (recs : list Row) : DataFrame :=
  match recs with
  | [] => mkFrame [] []
  | _ :: _ => mkFrame std_columns recs
  end.

(** [df.empty]: one of the two axes has length zero.  A table without
    columns holds no row, so this is the absence of rows. *)
Definition df_empty (df : DataFrame) : bool :=
  match rows df with
  | [] => true
  | _ :: _ => false
  end.

(** The union of column lists in order of first appearance. *)
Definition add_columns (acc cs : list Col) : list Col :=
  fold_left
    (fun acc c => if existsb (col_eqb c) acc then acc else acc ++ [c]) cs acc.

(** [pd.concat(frames, ignore_index=True)]: the columns are those of the
    frames in order of first appearance, the rows follow each other; an
    empty list of frames raises [ValueError]. *)
Definition concat (frames : list DataFrame) : outcome DataFrame :=
  match frames with
  | [] => Raised
  | _ :: _ =>
      Returned (mkFrame (fold_left add_columns (map columns frames) [])
                        (flat_map rows frames))
  end.

(** [df[mask]]: the rows satisfying a predicate, columns unchanged. *)
Definition select (p : Row -> bool) (df : DataFrame) : DataFrame :=
  mkFrame (columns df) (filter p (rows df)).

(** [all_data[(all_data["scenario"] == scenario) & (all_data["band"] == band)]]. *)
Definition scenario_band_subset (all_data : DataFrame)
    (scenario band : string) : DataFrame :=
  select (fun r => (Frames.scenario r =? scenario)%string &&
                   (Frames.band r =? band)%string) all_data.

(** *** Sorting *)

(** Python compares [str] by code point, which is the byte order of the
    UTF-8 text held in a [string]. *)
Definition lex (c : comparison) (k : comparison) : comparison :=
  match c with
  | Eq => k
  | _ => c
  end.

(** The order of [sort_values(["band", "model", "scenario", "date"])]. *)
Definition row_compare (a b : Row) : comparison :=
  lex (String.compare (band a) (band b))
    (lex (String.compare (model a) (model b))
       (lex (String.compare (scenario a) (scenario b))
          (String.compare (date a) (date b)))).

Definition row_leb (a b : Row) : bool :=
  match row_compare a b with
  | Gt => false
  | _ => true
  end.

Section InsertionSort.
Context {A : Type} (leb : A -> A -> bool).

(** [x] goes in front of the first element that is not below it, so
    that equal keys keep their order (the sort is stable). *)
Fixpoint insert_sorted (x : A) (l : list A) : list A :=
  match l with
  | [] => [x]
  | y :: t => if leb x y then x :: y :: t else y :: insert_sorted x t
  end.

Definition sort_by (l : list A) : list A :=
  fold_right insert_sorted [] l.
End InsertionSort.

(** The order that the specification names: records are compared by
    variable, then model, then scenario, then date. *)
Definition str_lt (a b : string) : Prop := String.compare a b = Lt.
Definition str_le (a b : string) : Prop := String.compare a b <> Gt.

Definition tidy_le (a b : Row) : Prop :=
  str_lt (band a) (band b) \/
  (band a = band b /\
   (str_lt (model a) (model b) \/
    (model a = model b /\
     (str_lt (scenario a) (scenario b) \/
      (scenario a = scenario b /\ str_le (date a) (date b)))))).

(** [df.sort_values(["band", "model", "scenario", "date"], inplace=True)].
    Rows with equal keys keep their order here; nothing below depends on
    the order among them. *)
Definition sort_values (df : DataFrame) : DataFrame :=
  mkFrame (columns df) (sort_by row_leb (rows df)).

(** [sorted(xs)] on strings. *)
Definition sorted_strings (xs : list string) : list string :=
  sort_by String.leb xs.

(** [series.unique()]: the distinct values in order of first appearance. *)
Fixpoint unique (xs : list string) : list string :=
  match xs with
  | [] => []
  | x :: t => x :: filter (fun y => negb (y =? x)%string) (unique t)
  end.

(** *** Group means *)

Definition Qsum (vs : list Q) : Q := fold_left Qplus vs 0%Q.

(** The arithmetic mean: the sum of the values divided by their number. *)
Definition mean (vs : list Q) : Q :=
  (Qsum vs / inject_Z (Z.of_nat (length vs)))%Q.

(** [subset.groupby("date")["value"].mean().reset_index()]: one (date,
    mean) pair per distinct date, in ascending order of date. *)
Definition groupby_date_mean (rs : list Row) : list (string * Q) :=
  map (fun d =>
         (d, mean (map value (filter (fun r => (date r =? d)%string) rs))))
      (sorted_strings (unique (map date rs))).

(** The model identifier of aggregated records. *)
Definition ENSEMBLE_MEAN : string := "ENSEMBLE-MEAN".

(** The columns of an ensemble table: [reset_index()] yields date and
    value, and the assignments [ensemble["band"]], [ensemble["model"]],
    [ensemble["scenario"]] append theirs in this order. *)
Definition ensemble_columns : list Col :=
  [col_date; col_value; col_band; col_model; col_scenario].

(** Lines 899-902 of [main]: the ensemble table of one non-empty subset. *)
Definition ensemble_of (subset : DataFrame) (band scenario : string)
  : DataFrame :=
  mkFrame ensemble_columns
    (map (fun dv => mkRow (fst dv) band (snd dv) ENSEMBLE_MEAN scenario)
         (groupby_date_mean (rows subset))).

(** The identity of an observation: date, variable, model, scenario. *)
Definition record_key (r : Row) : string * string * string * string :=
  (date r, band r, model r, scenario r).

(** The records of a table for one scenario, variable and date. *)
Definition contributors (all_data : DataFrame) (scenario band date : string)
  : list Row :=
  filter (fun r => (Frames.scenario r =? scenario)%string &&
                   (Frames.band r =? band)%string &&
                   (Frames.date r =? date)%string)
         (rows all_data).

End Frames.

(** ** Library behaviour taken as given *)

(** A cell of the table returned by [getRegion(...).getInfo()]. *)
Inductive Cell : Type :=
| CNull : Cell
| CNum : Q -> Cell
| CStr : string -> Cell.

(** The conversions that pandas and Python perform on values.
    - [time_to_date c] is
      [pd.to_datetime(c, unit='ms', utc=True).tz_convert(None).date().isoformat()],
      [None] when one of these calls raises;
    - [float_of_str s] is [float(s)] for a [str], [None] when it raises;
    - [float_repr v] is the text written for a [float], by [to_csv] and by
      an f-string alike. *)
Class Library : Type := {
  time_to_date : Cell -> option string;
  float_of_str : string -> option Q;
  float_repr : Q -> string
}.

(** ** Time-series fetcher (app.py, lines 597-684) *)

Module Fetcher.
Import Frames Units.

(** The answer of a [getInfo()] call: it raised, or it returned a value. *)
Inductive reply (A : Type) : Type :=
| Failed : reply A
| Ok : A -> reply A.

Arguments Failed {A}.
Arguments Ok {A} _.

(** What the service answers about the collection filtered by model,
    scenario and date range:
    - [size_info] is [coll.size().getInfo()];
    - [band_names_info] is [coll.first().bandNames().getInfo()];
    - [region_info bs] is [coll.select(bs).getRegion(point, scale).getInfo()],
      a list of rows whose first row is the header. *)
Record Collection : Type := mkCollection {
  size_info : reply Z;
  band_names_info : reply (list string);
  region_info : list string -> reply (list (list Cell))
}.

(** The service: the collection seen for a point, a date range, a model
    and a scenario. *)
Definition EarthEngine : Type :=
  Q -> Q -> string -> string -> string -> string -> Collection.

(** [c == name] for a cell and a [str]. *)
Definition cell_is (name : string) (c : Cell) : bool :=
  match c with
  | CStr s => (s =? name)%string
  | _ => false
  end.

(** [name in header]. *)
Definition header_has (name : string) (header : list Cell) : bool :=
  existsb (cell_is name) header.

(** [header.index(name)], defined when [name in header]. *)
Fixpoint header_index (name : string) (header : list Cell) : option nat :=
  match header with
  | [] => None
  | c :: t =>
      if cell_is name c then Some O
      else option_map S (header_index name t)
  end.

(** The least magnitude at which [float(n)] raises [OverflowError] for an
    [int] [n]: the integers that round to 2^1024 or more. *)
Definition FLOAT_OVERFLOW : Z := (2 ^ 1024 - 2 ^ 970)%Z.

(** [float(val)] returns for the number [q]: its magnitude is below
    [FLOAT_OVERFLOW].  A [float] cell is finite and so below the bound;
    the test fails only for an [int] cell, on which [float] raises. *)
Definition float_accepts (q : Q) : bool :=
  (Z.abs (Qnum q) <? FLOAT_OVERFLOW * Z.pos (Qden q))%Z.

Arguments float_accepts : simpl never.

Section WithLibrary.
Context {lib : Library}.

(** [float(val)] for a cell that is not [None]; [None] when it raises:
    [OverflowError] on an integer beyond the binary64 range, [ValueError]
    on a text that is not a number. *)
Definition py_float (val : Cell) : option Q :=
  match val with
  | CNum q => if float_accepts q then Some q else None
  | CStr s => float_of_str s
  | CNull => None
  end.

(** The loop [for band in bands_to_fetch] on one row (lines 662-677):
    the records appended to [recs].  [r[idx]] raises [IndexError] on a
    short row and [float(val)] may raise; neither is caught. *)
Fixpoint row_records (date_str : string) (header r : list Cell)
    (model scenario : string) (bands_to_fetch : list string)
    (recs : list Row) : outcome (list Row) :=
  match bands_to_fetch with
  | [] => Returned recs
  | band :: rest =>
      if header_has band header then
        match header_index band header with
        | None => Raised
        | Some idx =>
            match nth_error r idx with
            | None => Raised
            | Some CNull =>
                row_records date_str header r model scenario rest recs
            | Some val =>
                match py_float val with
                | None => Raised
                | Some v =>
                    row_records date_str header r model scenario rest
                      (recs ++ [mkRow date_str band (convert_units band v)
                                      model scenario])
                end
            end
        end
      else row_records date_str header r model scenario rest recs
  end.

(** The date of a row (lines 656-660); [None] when the guarded block
    raises and the row is skipped. *)
Definition row_date (time_idx : nat) (r : list Cell) : option string :=
  match nth_error r time_idx with
  | Some c => time_to_date c
  | None => None
  end.

(** The loop [for r in rows] (lines 655-677). *)
Fixpoint build_records (header : list Cell) (time_idx : nat)
    (model scenario : string) (bands_to_fetch : list string)
    (rows : list (list Cell)) (recs : list Row) : outcome (list Row) :=
  match rows with
  | [] => Returned recs
  | r :: rest =>
      match row_date time_idx r with
      | None =>
          build_records header time_idx model scenario bands_to_fetch
            rest recs
      | Some date_str =>
          match row_records date_str header r model scenario
                  bands_to_fetch recs with
          | Raised => Raised
          | Returned recs' =>
              build_records header time_idx model scenario bands_to_fetch
                rest recs'
          end
      end
  end.

(** Lines 617-630: the bands to fetch, or the table returned at once
    when none of the requested bands is available.  When the check
    itself fails, all requested bands are tried. *)
Definition check_bands (coll : Collection) (bands : list string)
  : DataFrame + list string :=
  match band_names_info coll with
  | Ok available_bands =>
      let bands_to_fetch :=
        filter (fun b => str_in b available_bands) bands in
      match bands_to_fetch with
      | [] => inl empty_with_columns
      | _ :: _ => inr bands_to_fetch
      end
  | Failed => inr bands
  end.

Definition fetch_point_timeseries (ee : EarthEngine) (lat lon : Q)
    (start end_ : string) (bands : list string) (model scenario : string)
  : outcome DataFrame :=
  let coll := ee lat lon start end_ model scenario in
  match size_info coll with
  | Failed => Returned empty_with_columns
  | Ok coll_size =>
      if (coll_size =? 0)%Z then Returned empty_with_columns
      else
        match check_bands coll bands with
        | inl df => Returned df
        | inr bands_to_fetch =>
            match region_info coll bands_to_fetch with
            | Failed => Returned empty_with_columns
            | Ok arr =>
                if (length arr <? 2)%nat then Returned empty_with_columns
                else
                  match arr with
                  | [] => Returned empty_with_columns
                  | header :: rows =>
                      match header_index "time" header with
                      | None => Returned empty_with_columns
                      | Some time_idx =>
                          match build_records header time_idx model
                                  scenario bands_to_fetch rows [] with
                          | Raised => Raised
                          | Returned recs => Returned (from_records recs)
                          end
                      end
                  end
            end
        end
  end.

End WithLibrary.

(** A response row holds, under every fetched band named in the header,
    null or a number that [float] accepts. *)
Definition cell_ok (c : Cell) : bool :=
  match c with
  | CNull => true
  | CNum q => float_accepts q
  | CStr _ => false
  end.

Definition row_complete (header : list Cell) (bands_to_fetch : list string)
    (r : list Cell) : bool :=
  forallb
    (fun band =>
       match header_index band header with
       | None => true
       | Some idx =>
           match nth_error r idx with
           | Some c => cell_ok c
           | None => false
           end
       end)
    bands_to_fetch.

Definition rows_complete (header : list Cell) (bands_to_fetch : list string)
    (rows : list (list Cell)) : bool :=
  forallb (row_complete header bands_to_fetch) rows.

(** The collection [coll], except that the band-availability call
    answers [available]. *)
Definition with_band_names (available : reply (list string))
    (coll : Collection) : Collection :=
  mkCollection (size_info coll) available (region_info coll).

(** The records that the specification asks for: in the order of the
    response rows, for each row whose date can be read and each fetched
    band named in the header, one record when the cell holds a number. *)
Definition expected_records {lib : Library} (header : list Cell)
    (time_idx : nat) (model scenario : string) (bands_to_fetch : list string)
    (rows : list (list Cell)) : list Row :=
  flat_map
    (fun r =>
       match row_date time_idx r with
       | None => []
       | Some date_str =>
           flat_map
             (fun band =>
                match header_index band header with
                | None => []
                | Some idx =>
                    match nth_error r idx with
                    | Some (CNum v) =>
                        [mkRow date_str band (convert_units band v)
                               model scenario]
                    | _ => []
                    end
                end)
             bands_to_fetch
       end)
    rows.

End Fetcher.

(** ** CSV text ([DataFrame.to_csv(index=False)]) *)

Module Csv.
Import Frames.

Definition LF : ascii := ascii_of_nat 10.
Definition CR : ascii := ascii_of_nat 13.
Definition COMMA : ascii := ","%char.
Definition QUOTE : ascii := ascii_of_nat 34.
Definition HASH : ascii := "#"%char.

Definition newline : string := String LF EmptyString.

(** A field is quoted when it holds the delimiter, the quote character
    or a line break; quotes inside it are doubled. *)
Definition special (c : ascii) : bool :=
  Ascii.eqb c COMMA || Ascii.eqb c QUOTE || Ascii.eqb c LF || Ascii.eqb c CR.

Definition needs_quoting (s : string) : bool :=
  existsb special (list_ascii_of_string s).

Fixpoint double_quotes (s : string) : string :=
  match s with
  | EmptyString => EmptyString
  | String c t =>
      if Ascii.eqb c QUOTE then String QUOTE (String QUOTE (double_quotes t))
      else String c (double_quotes t)
  end.

Definition csv_field (s : string) : string :=
  if needs_quoting s
  then String QUOTE (double_quotes s ++ String QUOTE EmptyString)
  else s.

(** One line of the file: the fields separated by commas, then the line
    terminator. *)
Definition csv_line (fields : list string) : string :=
  String.concat "," (map csv_field fields) ++ newline.

Section WithLibrary.
Context {lib : Library}.

(** The text of one cell. *)
Definition cell_text (r : Row) (c : Col) : string :=
  match c with
  | col_date => date r
  | col_band => band r
  | col_value => float_repr (value r)
  | col_model => model r
  | col_scenario => scenario r
  end.

Definition header_line (df : DataFrame) : string :=
  csv_line (map col_name (columns df)).

Definition data_line (df : DataFrame) (r : Row) : string :=
  csv_line (map (cell_text r) (columns df)).

(** [df.to_csv(index=False)]: the header row, then one row per record,
    each written in the column order of the table. *)
Definition to_csv (df : DataFrame) : string :=
  header_line df ++ String.concat "" (map (data_line df) (rows df)).
End WithLibrary.

End Csv.

(** ** The fetch sweep and the ensemble (app.py, [main], lines 764-927) *)

Module Main.
Import Frames Dates Fetcher.

(** What the sidebar hands to [main]. *)
Record Selection : Type := mkSelection {
  decades : list string;
  sel_bands : list string;
  sel_models : list string;
  sel_scen : list string;
  include_individual : bool;
  include_ensemble : bool
}.

Definition decimal_of_Z (z : Z) : string :=
  NilZero.string_of_int (Z.to_int z).

Definition decimal_of_nat (n : nat) : string :=
  NilZero.string_of_uint (Nat.to_uint n).

(** [DECADES] (lines 142-145): the label of each decade from 1950 to 2090
    with its first and last day. *)
Definition DECADES : list (string * (string * string)) :=
  map (fun k =>
         let y := (1950 + 10 * Z.of_nat k)%Z in
         ((decimal_of_Z y ++ "s (" ++ decimal_of_Z y ++ "-01-01 to "
             ++ decimal_of_Z (y + 9) ++ "-12-31)")%string,
          ((decimal_of_Z y ++ "-01-01")%string,
           (decimal_of_Z (y + 9) ++ "-12-31")%string)))
      (seq 0 15).

(** [d[key]] on a dictionary kept as an association list. *)
Fixpoint dict_get {V : Type} (d : list (string * V)) (key : string)
  : outcome V :=
  match d with
  | [] => Raised
  | (k, v) :: t => if (k =? key)%string then Returned v else dict_get t key
  end.

(** [[DECADES[d] for d in decades]]. *)
Fixpoint date_ranges_of (ds : list string) : outcome (list (string * string)) :=
  match ds with
  | [] => Returned []
  | d :: t =>
      match dict_get DECADES d with
      | Raised => Raised
      | Returned range =>
          match date_ranges_of t with
          | Raised => Raised
          | Returned ranges => Returned (range :: ranges)
          end
      end
  end.

(** One invocation of [fetch_point_timeseries]. *)
Record FetchCall : Type := mkFetchCall {
  call_lat : Q;
  call_lon : Q;
  call_start : string;
  call_end : string;
  call_bands : list string;
  call_model : string;
  call_scenario : string
}.

(** An entry of [error_log]. *)
Inductive LogEntry : Type :=
| SkippedRange (scenario start end_ : string)
| NoDataReturned (model scenario s_adj e_adj : string).

(** The mutable state of the sweep, with the invocations of
    [fetch_point_timeseries] made so far. *)
Record Sweep : Type := mkSweep {
  fetch_calls : list FetchCall;
  all_frames : list DataFrame;
  error_log : list LogEntry
}.

Definition no_sweep : Sweep := mkSweep [] [] [].

(** Computations over the sweep state that may raise. *)
Definition M (A : Type) : Type := Sweep -> outcome A * Sweep.

Definition ret {A : Type} (a : A) : M A := fun st => (Returned a, st).

Definition bind {A B : Type} (m : M A) (k : A -> M B) : M B :=
  fun st =>
    match m st with
    | (Raised, st') => (Raised, st')
    | (Returned a, st') => k a st'
    end.

Definition lift {A : Type} (o : outcome A) : M A := fun st => (o, st).

Notation "x <- m ;; k" := (bind m (fun x => k))
  (at level 61, m at next level, right associativity).
Notation "m ;;; k" := (bind m (fun _ => k))
  (at level 61, right associativity).

Definition record_call (c : FetchCall) : M unit :=
  fun st =>
    (Returned tt,
     mkSweep (fetch_calls st ++ [c]) (all_frames st) (error_log st)).

Definition append_frame (df : DataFrame) : M unit :=
  fun st =>
    (Returned tt,
     mkSweep (fetch_calls st) (all_frames st ++ [df]) (error_log st)).

Definition log_error (e : LogEntry) : M unit :=
  fun st =>
    (Returned tt,
     mkSweep (fetch_calls st) (all_frames st) (error_log st ++ [e])).

Definition get_frames : M (list DataFrame) :=
  fun st => (Returned (all_frames st), st).

(** [for x in xs: body(x)]. *)
Fixpoint for_each {A : Type} (xs : list A) (body : A -> M unit) : M unit :=
  match xs with
  | [] => ret tt
  | x :: t => body x ;;; for_each t body
  end.

(** The table of all models and the final table of a completed sweep. *)
Inductive RunResult : Type :=
| Aborted (message : string)
| NoData
| Fetched (all_data out : DataFrame).

Section WithLibrary.
Context {lib : Library}.

(** Lines 765-783: the message of the first failed check, if any. *)
Definition validation (sel : Selection) : option string :=
  match sel_bands sel with
  | [] => Some "Please select at least one variable (band)."
  | _ :: _ =>
  match sel_models sel with
  | [] => Some "Please select at least one model."
  | _ :: _ =>
  match sel_scen sel with
  | [] => Some "Please select at least one scenario."
  | _ :: _ =>
  match decades sel with
  | [] => Some "Please select at least one decade."
  | _ :: _ =>
    if negb (include_individual sel) && negb (include_ensemble sel) then
      Some "Please select at least one output option (Individual Models or Ensemble Mean)."
    else if include_ensemble sel && (length (sel_models sel) <? 2)%nat then
      Some "⚠️ Ensemble mean requires at least 2 models. Either select more models or disable ensemble mean."
    else None
  end end end end.

(** Lines 824-835: one model of one (scenario, decade) combination.  The
    progress display around the call is not modelled. *)
Definition fetch_model (ee : EarthEngine) (lat lon : Q)
    (sel : Selection) (scenario s_adj e_adj model : string) : M unit :=
  record_call (mkFetchCall lat lon s_adj e_adj (sel_bands sel) model scenario) ;;;
  df <- lift (fetch_point_timeseries ee lat lon s_adj e_adj (sel_bands sel)
                model scenario) ;;
  if negb (df_empty df) then append_frame df
  else log_error (NoDataReturned model scenario s_adj e_adj).

(** Lines 816-835: the three nested loops. *)
Definition sweep (ee : EarthEngine) (lat lon : Q) (sel : Selection)
    (date_ranges : list (string * string)) : M unit :=
  for_each (sel_scen sel) (fun scenario =>
    for_each date_ranges (fun range =>
      let '(start, end_) := range in
      clamped <- lift (clamp_dates_for_scenario start end_ scenario) ;;
      match clamped with
      | None => log_error (SkippedRange scenario start end_)
      | Some (s_adj, e_adj) =>
          for_each (sel_models sel)
            (fetch_model ee lat lon sel scenario s_adj e_adj)
      end)).

(** Lines 892-903: the ensemble tables, one per (scenario, band) pair
    whose subset of [all_data] is not empty. *)
Definition ensemble_frames_of (sel : Selection) (all_data : DataFrame)
  : list DataFrame :=
  flat_map
    (fun scenario =>
       flat_map
         (fun band =>
            let subset := scenario_band_subset all_data scenario band in
            if negb (df_empty subset)
            then [ensemble_of subset band scenario]
            else [])
         (sel_bands sel))
    (sel_scen sel).

(** Lines 876-916: from the fetched frames to [all_data] and [out]. *)
Definition combine (sel : Selection) (frames : list DataFrame)
  : outcome (DataFrame * DataFrame) :=
  match concat frames with
  | Raised => Raised
  | Returned joined =>
      let all_data := sort_values joined in
      let individual :=
        if include_individual sel then [all_data] else [] in
      let output_frames :=
        if include_ensemble sel && (1 <? length (sel_models sel))%nat then
          match ensemble_frames_of sel all_data with
          | [] => Returned individual
          | ensemble_frames =>
              match concat ensemble_frames with
              | Raised => Raised
              | Returned ensemble_df => Returned (individual ++ [ensemble_df])
              end
          end
        else Returned individual in
      match output_frames with
      | Raised => Raised
      | Returned output_frames =>
          match concat output_frames with
          | Raised => Raised
          | Returned out => Returned (all_data, sort_values out)
          end
      end
  end.

(** The branch of [main] taken when the fetch button was pressed (lines
    764-916), from the validation to the final table.  The display of the
    configuration and of the results is not modelled. *)
Definition main_fetch (ee : EarthEngine) (lat lon : Q) (sel : Selection)
  : M RunResult :=
  match validation sel with
  | Some message => ret (Aborted message)
  | None =>
      date_ranges <- lift (date_ranges_of (decades sel)) ;;
      sweep ee lat lon sel date_ranges ;;;
      frames <- get_frames ;;
      match frames with
      | [] => ret NoData
      | _ :: _ =>
          tables <- lift (combine sel frames) ;;
          ret (Fetched (fst tables) (snd tables))
      end
  end.

Definition run_main (ee : EarthEngine) (lat lon : Q) (sel : Selection)
  : outcome RunResult * Sweep :=
  main_fetch ee lat lon sel no_sweep.

End WithLibrary.

End Main.

(** ** Output packager (app.py, [main], lines 983-1110) *)

Module Packager.
Import Frames Csv.

Local Open Scope string_scope.

Section WithLibrary.
Context {lib : Library}.

(** The head of the metadata block (lines 995-1026). *)
Definition metadata_head (lat lon : Q) (location_name now : string)
  : list string :=
  [ "# ============================================================================";
    "# NASA/GDDP-CMIP6 Climate Data Download";
    "# ============================================================================";
    "# Location: " ++ float_repr lat ++ "°N, " ++ float_repr lon ++ "°E";
    "# Place: " ++ location_name;
    "# Generated: " ++ now;
    "# ";
    "# DATA COLUMNS:";
    "#   date      - Date in YYYY-MM-DD format";
    "#   band      - Climate variable (see VARIABLES section below)";
    "#   model     - Climate model name (or ENSEMBLE-MEAN)";
    "#   scenario  - Emissions scenario (historical, ssp245, ssp585)";
    "#   value     - Measured value in units specified below";
    "# ";
    "# VARIABLES & UNITS (converted from raw NASA data):";
    "#   tas       - Daily Mean Temperature (°C)";
    "#   tasmax    - Daily Maximum Temperature (°C)";
    "#   tasmin    - Daily Minimum Temperature (°C)";
    "#   pr        - Precipitation (mm/day)";
    "#   hurs      - Near-Surface Relative Humidity (%)";
    "#   huss      - Near-Surface Specific Humidity (kg/kg)";
    "#   rsds      - Surface Downwelling Shortwave Radiation (W/m²)";
    "#   rlds      - Surface Downwelling Longwave Radiation (W/m²)";
    "#   sfcWind   - Near-Surface Wind Speed (m/s)";
    "# ";
    "# SCENARIOS:";
    "#   historical - Historical observations (1950-2014)";
    "#   ssp245     - SSP2-4.5: Medium emissions / Current policies trajectory";
    "#   ssp585     - SSP5-8.5: High emissions / Business as usual";
    "# " ].

(** The lines about the models of the file (lines 1028-1054). *)
Definition metadata_models (models_included : list string) : list string :=
  match models_included with
  | [] => []
  | first :: others =>
      if str_in ENSEMBLE_MEAN models_included
         && (1 <? length models_included)%nat then
        let actual_models :=
          filter (fun m => negb (m =? ENSEMBLE_MEAN)) models_included in
        app [ "# MODELS:";
              "#   This file includes "
                ++ Main.decimal_of_nat (length actual_models)
                ++ " climate models:" ]
          (app (map (fun m => "#     • " ++ m) actual_models)
             [ "# ";
               "#   ENSEMBLE-MEAN is the arithmetic average across all models";
               "#   for each date, variable, and scenario combination.";
               "# " ])
      else if (length models_included =? 1)%nat
              && negb (first =? ENSEMBLE_MEAN) then
        [ "# MODEL:"; "#   " ++ first; "# " ]
      else
        match others with
        | [] =>
            if first =? ENSEMBLE_MEAN then
              [ "# MODEL:"; "#   ENSEMBLE-MEAN (multi-model average)"; "# " ]
            else []
        | _ :: _ => []
        end
  end.

(** The tail of the metadata block (lines 1056-1064). *)
Definition metadata_tail : list string :=
  [ "# DATA SOURCE:";
    "#   NASA Earth Exchange Global Daily Downscaled Climate Projections";
    "#   (NEX-GDDP-CMIP6)";
    "#   Resolution: 0.25° (~25 km)";
    "#   More info: https://www.nccs.nasa.gov/services/data-collections/land-based-products/nex-gddp-cmip6";
    "# ============================================================================";
    "#" ].

Definition metadata_lines (lat lon : Q) (location_name now : string)
    (models_included : list string) : list string :=
  (metadata_head lat lon location_name now
     ++ metadata_models models_included ++ metadata_tail)%list.

(** [create_metadata(models_included)]: the lines joined by line
    breaks, with a final line break.  [now] is the text of
    [pd.Timestamp.now().strftime('%Y-%m-%d %H:%M:%S')]. *)
Definition create_metadata (lat lon : Q) (location_name now : string)
    (models_included : list string) : string :=
  String.concat newline
    (metadata_lines lat lon location_name now models_included)
  ++ newline.

(** The models of the table, [sorted(out["model"].unique())]. *)
Definition unique_models (out : DataFrame) : list string :=
  sorted_strings (unique (map model (rows out))).

(** The body ([data]) of the file of one model (lines 1071-1078). *)
Definition model_file (lat lon : Q) (location_name now : string)
    (out : DataFrame) (model : string) : string :=
  let model_data := select (fun r => Frames.model r =? model) out in
  create_metadata lat lon location_name now [model] ++ to_csv model_data.

(** The body of the combined file (lines 1091-1093). *)
Definition combined_file (lat lon : Q) (location_name now : string)
    (out : DataFrame) : string :=
  create_metadata lat lon location_name now (unique_models out)
  ++ to_csv out.

(** [download_files], each key with the body ([data]) of its file: one
    entry per model, then the combined entry.  File names, labels and
    sizes are not modelled. *)
Definition download_files (lat lon : Q) (location_name now : string)
    (out : DataFrame) : list (string * string) :=
  (map (fun model => (model, model_file lat lon location_name now out model))
       (unique_models out)
   ++ [("_combined", combined_file lat lon location_name now out)])%list.

End WithLibrary.

End Packager.

(** ** A reference library instance *)

(** An executable instance of [Library], used to run the model on concrete
    responses.  It covers integer millisecond time stamps between the
    years 1678 and 2261, decimal literals, and prints a value with up to
    17 fractional digits. *)
Module Reference.
Import Dates.

Local Open Scope Z_scope.

(** The civil date of a day number counted from 1970-01-01. *)
Definition civil_from_days (days : Z) : Timestamp :=
  let z := days + 719468 in
  let era := z / 146097 in
  let doe := z - era * 146097 in
  let yoe := (doe - doe / 1460 + doe / 36524 - doe / 146096) / 365 in
  let doy := doe - (365 * yoe + yoe / 4 - yoe / 100) in
  let mp := (5 * doy + 2) / 153 in
  let d := doy - (153 * mp + 2) / 5 + 1 in
  let m := if mp <? 10 then mp + 3 else mp - 9 in
  let y := yoe + era * 400 in
  mkTimestamp (if m <=? 2 then y + 1 else y) m d.

Definition ms_per_day : Z := 86400000.

Definition time_to_date (c : Cell) : option string :=
  match c with
  | CNum q =>
      let q := Qred q in
      if (Z.pos (Qden q) =? 1) then
        let t := civil_from_days (Qnum q / ms_per_day) in
        if valid_dateb t then Some (strftime t) else None
      else None
  | _ => None
  end.

(** Splits a list of characters at the first full stop. *)
Fixpoint split_at_dot (cs : list ascii) : list ascii * option (list ascii) :=
  match cs with
  | [] => ([], None)
  | c :: t =>
      if Ascii.eqb c "."%char then ([], Some t)
      else let '(a, b) := split_at_dot t in (c :: a, b)
  end.

Definition unsigned_of_chars (cs : list ascii) : option Q :=
  match split_at_dot cs with
  | ([], _) => None
  | (int_part, None) =>
      option_map inject_Z (number_of_digits 0 int_part)
  | (_, Some []) => None
  | (int_part, Some frac_part) =>
      match number_of_digits 0 int_part, number_of_digits 0 frac_part with
      | Some a, Some b =>
          let scale := 10 ^ Z.of_nat (length frac_part) in
          Some (Qmake (a * scale + b) (Z.to_pos scale))
      | _, _ => None
      end
  end.

Definition float_of_str (s : string) : option Q :=
  match list_ascii_of_string s with
  | c :: t =>
      if Ascii.eqb c hyphen then option_map Qopp (unsigned_of_chars t)
      else unsigned_of_chars (c :: t)
  | [] => None
  end.

Fixpoint pad_zeros (n : nat) (cs : list ascii) : list ascii :=
  match n with
  | O => cs
  | S n' => "0"%char :: pad_zeros n' cs
  end.

Fixpoint drop_zeros (cs : list ascii) : list ascii :=
  match cs with
  | c :: t => if Ascii.eqb c "0"%char then drop_zeros t else cs
  | [] => []
  end.

Definition fraction_digits : nat := 17.

Definition float_repr (q : Q) : string :=
  let n := Z.abs (Qnum q) in
  let scale := 10 ^ Z.of_nat fraction_digits in
  let scaled := n * scale / Z.pos (Qden q) in
  let int_text := Main.decimal_of_Z (scaled / scale) in
  let frac := list_ascii_of_string (Main.decimal_of_Z (scaled mod scale)) in
  let frac := pad_zeros (fraction_digits - length frac) frac in
  let frac := rev (drop_zeros (rev frac)) in
  let frac := match frac with [] => ["0"%char] | _ => frac end in
  let sign := if Qnum q <? 0 then "-"%string else ""%string in
  (sign ++ int_text ++ "." ++ string_of_list_ascii frac)%string.

Definition library : Library :=
  Build_Library time_to_date float_of_str float_repr.

End Reference.

(** ** Reading an artifact back *)

Module Reader.
Import Frames Csv.

(** The text made of the given lines, each followed by a line break. *)
Definition text_of_lines (lines : list string) : string :=
  String.concat "" (map (fun l => l ++ newline)%string lines).

(** The pieces of a text between occurrences of a separator. *)
Fixpoint split_on (sep : ascii) (s : string) : list string :=
  match s with
  | EmptyString => [EmptyString]
  | String c t =>
      if Ascii.eqb c sep then EmptyString :: split_on sep t
      else
        match split_on sep t with
        | [] => [String c EmptyString]
        | piece :: pieces => String c piece :: pieces
        end
  end.

Definition is_comment (line : string) : bool :=
  match line with
  | String c _ => Ascii.eqb c HASH
  | EmptyString => false
  end.

Definition is_blank (line : string) : bool :=
  match line with
  | EmptyString => true
  | String _ _ => false
  end.

(** [c] occurs in [s]. *)
Fixpoint contains (c : ascii) (s : string) : bool :=
  match s with
  | EmptyString => false
  | String a t => Ascii.eqb a c || contains c t
  end.

(** A field that is written as it is, without quotes. *)
Definition plain (s : string) : Prop := needs_quoting s = false.

Fixpoint drop_comments (lines : list string) : list string :=
  match lines with
  | line :: rest => if is_comment line then drop_comments rest else lines
  | [] => []
  end.

Section WithLibrary.
Context {lib : Library}.

(** Modelled from the spec: the reading of one data row, which the
    repository does not contain.  The fields are taken in the order of
    the documented header row, date,band,value,model,scenario. *)
Definition parse_data_row (line : string) : option Row :=
  match split_on COMMA line with
  | [d; b; v; m; s] =>
      match float_of_str v with
      | Some q => Some (mkRow d b q m s)
      | None => None
      end
  | _ => None
  end.

Fixpoint parse_data_rows (lines : list string) : option (list Row) :=
  match lines with
  | [] => Some []
  | line :: rest =>
      match parse_data_row line, parse_data_rows rest with
      | Some r, Some rs => Some (r :: rs)
      | _, _ => None
      end
  end.

(** Modelled from the spec: the reader of the round-trip property, which
    the repository does not contain.  It discards the comment-prefixed
    metadata block and the header row and parses the data rows. *)
Definition parse_artifact (text : string) : option (list Row) :=
  let lines := filter (fun l => negb (is_blank l)) (split_on LF text) in
  match drop_comments lines with
  | [] => None
  | _header :: data => parse_data_rows data
  end.
End WithLibrary.

(** Two records agree up to the precision of the value text. *)
Definition same_record (a b : Row) : Prop :=
  date a = date b /\ band a = band b /\ (value a == value b)%Q /\
  model a = model b /\ scenario a = scenario b.

(** A record whose fields are written without quotes, whose date does not
    open a comment, and whose value text is read back as the value. *)
Definition readable_record {lib : Library} (r : Row) : Prop :=
  plain (date r) /\ is_comment (date r) = false /\
  plain (band r) /\ plain (float_repr (value r)) /\
  plain (model r) /\ plain (scenario r) /\
  exists v, float_of_str (float_repr (value r)) = Some v /\
            (v == value r)%Q.

End Reader.

(** ** Python strings and dictionaries *)

Module PyStr.

(** [s.split(sep)[-1]] for a one-character separator: the text after its
    last occurrence. *)
Definition last_piece (sep : ascii) (s : string) : string :=
  last (Reader.split_on sep s) EmptyString.

(** [s.rstrip(c)] for one character: [s] without its trailing [c]s. *)
Fixpoint rstrip (c : ascii) (s : string) : string :=
  match s with
  | EmptyString => EmptyString
  | String a t =>
      match rstrip c t with
      | EmptyString => if Ascii.eqb a c then EmptyString
                       else String a EmptyString
      | rest => String a rest
      end
  end.

(** [s.split(sep)[0]] for a non-empty separator: the text before its first
    occurrence, all of [s] without one. *)
Fixpoint before_first (sep s : string) : string :=
  if String.prefix sep s then EmptyString
  else
    match s with
    | EmptyString => EmptyString
    | String a t => String a (before_first sep t)
    end.

(** [int(s)] on an unsigned decimal numeral; every other text is outside
    this model and counted as raising [ValueError], as the empty text
    does. *)
Definition py_int (s : string) : outcome Z :=
  match list_ascii_of_string s with
  | [] => Raised
  | cs =>
      match Dates.number_of_digits 0 cs with
      | Some n => Returned n
      | None => Raised
      end
  end.

(** [d[key] = value] on a dictionary kept as an association list: the
    entry of the key is replaced, a new key goes to the end. *)
Fixpoint dict_set {V : Type} (d : list (string * V)) (key : string)
    (value : V) : list (string * V) :=
  match d with
  | [] => [(key, value)]
  | (k, v) :: t =>
      if (k =? key)%string then (k, value) :: t
      else (k, v) :: dict_set t key value
  end.

(** [[f(x) for x in xs]] when [f] may raise. *)
Fixpoint map_outcome {A B : Type} (f : A -> outcome B) (xs : list A)
  : outcome (list B) :=
  match xs with
  | [] => Returned []
  | x :: t =>
      match f x with
      | Raised => Raised
      | Returned y =>
          match map_outcome f t with
          | Raised => Raised
          | Returned ys => Returned (y :: ys)
          end
      end
  end.

End PyStr.

(** ** The sidebar (app.py, [ui_sidebar], lines 324-579) *)

Module Sidebar.
Import PyStr.

Local Open Scope string_scope.

Definition AVAILABLE_BANDS : list string :=
  ["tas"; "tasmax"; "tasmin"; "pr"; "hurs"; "huss"; "rsds"; "rlds"; "sfcWind"].

Definition BAND_NAMES : list (string * string) :=
  [ ("tas", "Temperature (Mean)");
    ("tasmax", "Temperature (Max)");
    ("tasmin", "Temperature (Min)");
    ("pr", "Precipitation");
    ("hurs", "Relative Humidity");
    ("huss", "Specific Humidity");
    ("rsds", "Solar Radiation (Shortwave)");
    ("rlds", "Thermal Radiation (Longwave)");
    ("sfcWind", "Wind Speed") ].

Definition KNOWN_MODELS : list string :=
  ["ACCESS-ESM1-5"; "CNRM-CM6-1"; "EC-Earth3"; "MPI-ESM1-2-LR"; "MRI-ESM2-0"; "CanESM5"; "GFDL-ESM4"; "IPSL-CM6A-LR"; "NorESM2-LM"; "UKESM1-0-LL"].

Definition MODEL_INFO : list (string * string) :=
  [ ("ACCESS-ESM1-5", "🇦🇺 Australia (Southern Hemisphere)");
    ("CNRM-CM6-1", "�� France/CNRM (European)");
    ("EC-Earth3", "�� Europe Consortium (Multi-national)");
    ("MPI-ESM1-2-LR", "🇩🇪 Germany (Highly cited)");
    ("MRI-ESM2-0", "🇯🇵 Japan (Asia-Pacific)");
    ("CanESM5", "🇨🇦 Canada (Well-validated)");
    ("GFDL-ESM4", "🇺🇸 USA/NOAA (High performance)");
    ("IPSL-CM6A-LR", "🇫🇷 France/IPSL (Europe)");
    ("NorESM2-LM", "🇳🇴 Norway (Northern regions)");
    ("UKESM1-0-LL", "🇬🇧 UK (Comprehensive)") ].

Definition KNOWN_SCENARIOS : list string :=
  ["historical"; "ssp245"; "ssp585"].

Definition SCENARIO_INFO : list (string * string) :=
  [ ("historical", "Historical (1950-2014)");
    ("ssp245", "SSP2-4.5 - Medium emissions (Current policies)");
    ("ssp585", "SSP5-8.5 - Very high emissions") ].

(** One entry of [variable_options] (line 437): the display name of the
    band, then the band between parentheses. *)
Definition band_option (b : string) : outcome string :=
  match Main.dict_get BAND_NAMES b with
  | Raised => Raised
  | Returned name => Returned (name ++ " (" ++ b ++ ")")
  end.

Definition variable_options : outcome (list string) :=
  map_outcome band_option AVAILABLE_BANDS.

(** Line 448: the band of a selected option,
    [v.split("(")[-1].rstrip(")")]. *)
Definition band_of_option (v : string) : string :=
  rstrip ")"%char (last_piece "("%char v).

(** One entry of [model_options] (line 460): the model, a dash between
    spaces, then its description. *)
Definition model_option (m : string) : outcome string :=
  match Main.dict_get MODEL_INFO m with
  | Raised => Raised
  | Returned info => Returned (m ++ " - " ++ info)
  end.

Definition model_options (models : list string) : outcome (list string) :=
  map_outcome model_option models.

(** Line 478: the model of a selected option, [m.split(" - ")[0]]. *)
Definition model_of_option (m : string) : string := before_first " - " m.

(** [SCENARIO_INFO.get(s, s)]. *)
Definition scenario_label (s : string) : string :=
  match Main.dict_get SCENARIO_INFO s with
  | Returned label => label
  | Raised => s
  end.

(** Lines 505-515: whether a selected decade starts in 2010 or before, and
    whether one starts in 2010 or after. *)
Fixpoint decade_flags (decades : list string)
    (has_historical_decades has_future_decades : bool)
  : outcome (bool * bool) :=
  match decades with
  | [] => Returned (has_historical_decades, has_future_decades)
  | decade_str :: rest =>
      match py_int (before_first "s" decade_str) with
      | Raised => Raised
      | Returned start_year =>
          decade_flags rest
            (has_historical_decades || (start_year <=? 2010)%Z)
            (has_future_decades || (2010 <=? start_year)%Z)
      end
  end.

(** Lines 517-527: the scenarios offered for the selected decades; all of
    them when no decade is selected. *)
Definition available_scenarios (scenarios decades : list string)
  : outcome (list string) :=
  match decade_flags decades false false with
  | Raised => Raised
  | Returned (has_historical_decades, has_future_decades) =>
      let available :=
        filter (fun s => if s =? "historical" then has_historical_decades
                         else has_future_decades) scenarios in
      match decades with
      | [] => Returned scenarios
      | _ :: _ => Returned available
      end
  end.

(** Line 558: the dictionary from the label of each available scenario to
    the scenario. *)
Definition scenario_mapping (available : list string)
  : list (string * string) :=
  fold_left (fun d s => dict_set d (scenario_label s) s) available [].

(** Line 559: [[scenario_mapping[s] for s in selected_scenarios]]. *)
Definition sel_scen_of (available selected_scenarios : list string)
  : outcome (list string) :=
  map_outcome (Main.dict_get (scenario_mapping available)) selected_scenarios.

Definition DEFAULT_MODELS : list string :=
  ["ACCESS-ESM1-5"; "CNRM-CM6-1"; "EC-Earth3"; "MPI-ESM1-2-LR"; "MRI-ESM2-0"].

(** Lines 463-466: the default models that exist in the list of models,
    or the first five models when none does. *)
Definition default_model_list (models : list string) : list string :=
  match filter (fun m => str_in m models) DEFAULT_MODELS with
  | [] => if (5 <=? length models)%nat then firstn 5 models else models
  | found => found
  end.

(** Line 468: the options of the default models. *)
Definition default_models (models : list string) : outcome (list string) :=
  map_outcome model_option (default_model_list models).

(** Lines 533-540: the scenarios selected by default. *)
Definition default_scen_keys (available : list string) : list string :=
  if str_in "historical" available && str_in "ssp245" available then
    ["historical"; "ssp245"]
  else if str_in "historical" available then ["historical"]
  else if str_in "ssp245" available then ["ssp245"]
  else
    match available with
    | [] => []
    | _ :: _ => firstn 1 available
    end.

(** Lines 530 and 542: the options and the defaults of the scenario
    selector. *)
Definition scenario_options (available : list string) : list string :=
  map scenario_label available.

Definition default_scenarios (available : list string) : list string :=
  map scenario_label (default_scen_keys available).

End Sidebar.

(** ** What the sweep is expected to ask for *)

Module SweepSpec.
Import Dates Fetcher Main.

(** The invocations of one (scenario, decade) combination: none when the
    clamped range is null, one per selected model otherwise. *)
Definition calls_of_range (lat lon : Q) (sel : Selection)
    (scenario : string) (range : string * string) : list FetchCall :=
  match clamp_dates_for_scenario (fst range) (snd range) scenario with
  | Returned (Some (s_adj, e_adj)) =>
      map (fun model =>
             mkFetchCall lat lon s_adj e_adj (sel_bands sel) model scenario)
          (sel_models sel)
  | _ => []
  end.

(** All invocations, scenario by scenario and decade by decade. *)
Definition expected_calls (lat lon : Q) (sel : Selection)
    (date_ranges : list (string * string)) : list FetchCall :=
  flat_map
    (fun scenario =>
       flat_map (calls_of_range lat lon sel scenario) date_ranges)
    (sel_scen sel).

(** The log entry of one (scenario, decade) combination whose clamped
    range is null. *)
Definition skips_of_range (scenario : string) (range : string * string)
  : list LogEntry :=
  match clamp_dates_for_scenario (fst range) (snd range) scenario with
  | Returned None => [SkippedRange scenario (fst range) (snd range)]
  | _ => []
  end.

Definition expected_skips (sel : Selection)
    (date_ranges : list (string * string)) : list LogEntry :=
  flat_map
    (fun scenario => flat_map (skips_of_range scenario) date_ranges)
    (sel_scen sel).

(** A recorded invocation asks for the selected bands, a selected model
    and a selected scenario, over a range of two dates in order that lies
    within the valid window of the scenario. *)
Definition call_in_window (sel : Selection) (c : FetchCall) : Prop :=
  call_bands c = sel_bands sel /\
  In (call_model c) (sel_models sel) /\
  In (call_scenario c) (sel_scen sel) /\
  exists a b,
    to_datetime (call_start c) = Some a /\
    to_datetime (call_end c) = Some b /\
    ts_le a b /\
    in_window (fst (valid_window (call_scenario c)))
              (snd (valid_window (call_scenario c))) a /\
    in_window (fst (valid_window (call_scenario c)))
              (snd (valid_window (call_scenario c))) b.

Definition is_no_data (e : LogEntry) : bool :=
  match e with
  | NoDataReturned _ _ _ _ => true
  | SkippedRange _ _ _ => false
  end.

(** The number of log entries left by invocations that gave no data, and
    the log entries of skipped ranges. *)
Definition no_data_count (st : Sweep) : nat :=
  length (filter is_no_data (error_log st)).

Definition skipped_entries (st : Sweep) : list LogEntry :=
  filter (fun e => negb (is_no_data e)) (error_log st).

(** The labels of [DECADES]. *)
Definition decade_labels : list string := map fst DECADES.

(** [BAND_UNITS] (lines 64-74). *)
Definition BAND_UNITS : list (string * string) :=
  [ ("tas", "°C"); ("tasmax", "°C"); ("tasmin", "°C"); ("pr", "mm/day");
    ("hurs", "%"); ("huss", "1"); ("rsds", "W m-2"); ("rlds", "W m-2");
    ("sfcWind", "m s-1") ].

(** The dictionary lookups that the display of the fetch branch makes on
    the selection (lines 794, 801, 803 and 826): [BAND_NAMES[b]] and
    [BAND_UNITS[b]] for every selected band, [MODEL_INFO[m]] for every
    selected model.  Each raises [KeyError] on a missing key. *)
Definition display_lookups (sel : Selection) : outcome unit :=
  match PyStr.map_outcome (dict_get Sidebar.BAND_NAMES) (sel_bands sel),
        PyStr.map_outcome (dict_get Sidebar.MODEL_INFO) (sel_models sel),
        PyStr.map_outcome (dict_get BAND_UNITS) (sel_bands sel) with
  | Returned _, Returned _, Returned _ => Returned tt
  | _, _, _ => Raised
  end.

End SweepSpec.

(* ================================================================== *)
(** * Part II: properties                                              *)
(* ================================================================== *)

Module UnitsFacts.
Import Units.

(** C1. [convert_units b v] is [v - 273.15] for the three temperature
    bands, [v * 86400] for ["pr"], and [v] itself for every other
    identifier, documented or not. *)
Theorem convert_units_cases (b : string) (v : Q) :
  ((b = "tas" \/ b = "tasmax" \/ b = "tasmin") ->
     convert_units b v = (v - 273.15)%Q) /\
  (b = "pr" -> convert_units b v = (v * 86400)%Q) /\
  ((b <> "tas" /\ b <> "tasmax" /\ b <> "tasmin" /\ b <> "pr") ->
     convert_units b v = v).
Proof.
  unfold convert_units, str_in; simpl.
  repeat split.
  - intros [-> | [-> | ->]]; reflexivity.
  - intros ->; reflexivity.
  - intros (H1 & H2 & H3 & H4).
    apply String.eqb_neq in H1, H2, H3, H4.
    rewrite H1, H2, H3, H4; reflexivity.
Qed.

Lemma convert_units_cases_witness :
  convert_units "tasmax" 300 = (300 - 273.15)%Q /\
  convert_units "pr" (1 # 2) = ((1 # 2) * 86400)%Q /\
  convert_units "sfcWind" 7 = 7%Q /\
  convert_units "not-a-band" 7 = 7%Q.
Proof.
  split; [| split; [| split]].
  - apply (convert_units_cases "tasmax" 300); right; left; reflexivity.
  - apply (convert_units_cases "pr" (1 # 2)); reflexivity.
  - apply (convert_units_cases "sfcWind" 7); repeat split; discriminate.
  - apply (convert_units_cases "not-a-band" 7); repeat split; discriminate.
Defined.

End UnitsFacts.

Module DatesFacts.
Import Dates.

Local Open Scope Z_scope.

(** *** Decimal digits *)

Lemma digit_roundtrip (d : Z) :
  0 <= d < 10 -> digit_of_ascii (ascii_of_digit d) = Some d.
Proof.
  intros Hd.
  assert (d = 0 \/ d = 1 \/ d = 2 \/ d = 3 \/ d = 4 \/
          d = 5 \/ d = 6 \/ d = 7 \/ d = 8 \/ d = 9) as Hcases by lia.
  repeat (destruct Hcases as [-> | Hcases]; [reflexivity |]).
  subst; reflexivity.
Qed.

Lemma number_of_digits4 (y : Z) :
  0 <= y < 10000 ->
  number_of_digits 0
    [ ascii_of_digit (y / 1000 mod 10); ascii_of_digit (y / 100 mod 10);
      ascii_of_digit (y / 10 mod 10); ascii_of_digit (y mod 10) ] = Some y.
Proof.
  intros Hy. cbn [number_of_digits].
  rewrite !digit_roundtrip by (apply Z.mod_pos_bound; lia).
  f_equal. Z.div_mod_to_equations. lia.
Qed.

Lemma number_of_digits2 (m : Z) :
  0 <= m < 100 ->
  number_of_digits 0
    [ ascii_of_digit (m / 10 mod 10); ascii_of_digit (m mod 10) ] = Some m.
Proof.
  intros Hm. cbn [number_of_digits].
  rewrite !digit_roundtrip by (apply Z.mod_pos_bound; lia).
  f_equal. Z.div_mod_to_equations. lia.
Qed.

Lemma days_in_month_le (y m : Z) : days_in_month y m <= 31.
Proof.
  unfold days_in_month.
  repeat match goal with |- context [if ?c then _ else _] => destruct c end; lia.
Qed.

Lemma valid_date_bounds (t : Timestamp) :
  valid_date t ->
  1678 <= ts_year t <= 2261 /\ 1 <= ts_month t <= 12 /\ 1 <= ts_day t <= 31.
Proof.
  unfold valid_date, valid_dateb. intros H.
  repeat (apply andb_prop in H; destruct H as [H ?]).
  pose proof (days_in_month_le (ts_year t) (ts_month t)).
  lia.
Qed.

(** *** Parsing undoes formatting *)

Lemma to_datetime_strftime (t : Timestamp) :
  valid_date t -> to_datetime (strftime t) = Some t.
Proof.
  intros Hv. pose proof (valid_date_bounds t Hv) as (Hy & Hm & Hd).
  unfold to_datetime, strftime.
  rewrite list_ascii_of_string_of_list_ascii.
  rewrite !Ascii.eqb_refl. cbn [andb].
  rewrite number_of_digits4 by lia.
  rewrite !number_of_digits2 by lia.
  destruct t as [y m d]; cbn [ts_year ts_month ts_day] in *.
  cbv zeta. unfold valid_date in Hv. rewrite Hv. reflexivity.
Qed.

Lemma to_datetime_valid (s : string) (t : Timestamp) :
  to_datetime s = Some t -> valid_date t.
Proof.
  unfold to_datetime.
  repeat match goal with
         | |- context [match ?x with _ => _ end] =>
             destruct x eqn:?; try discriminate
         end.
  intros H; injection H as <-. assumption.
Qed.

(** *** The order of timestamps *)

Definition lex_lt (a b : Timestamp) : Prop :=
  ts_year a < ts_year b \/
  (ts_year a = ts_year b /\
   (ts_month a < ts_month b \/
    (ts_month a = ts_month b /\ ts_day a < ts_day b))).

Lemma ts_ltb_true (a b : Timestamp) : ts_ltb a b = true <-> lex_lt a b.
Proof.
  unfold ts_ltb, lex_lt.
  rewrite !orb_true_iff, !andb_true_iff, !orb_true_iff, !andb_true_iff,
    !Z.ltb_lt, !Z.eqb_eq.
  tauto.
Qed.

Lemma ts_ltb_false (a b : Timestamp) : ts_ltb a b = false <-> ~ lex_lt a b.
Proof.
  rewrite <- ts_ltb_true. destruct (ts_ltb a b); split; congruence.
Qed.

(** Turns every timestamp comparison of the context into linear
    arithmetic on the components. *)
Ltac ts_arith :=
  unfold in_window, ts_le, ts_gtb in *;
  repeat match goal with
         | H : ts_ltb _ _ = true |- _ => apply ts_ltb_true in H
         | H : ts_ltb _ _ = false |- _ => apply ts_ltb_false in H
         | |- ts_ltb _ _ = true => apply ts_ltb_true
         | |- ts_ltb _ _ = false => apply ts_ltb_false
         end;
  unfold lex_lt in *; cbn [ts_year ts_month ts_day] in *.

Lemma py_max_valid (a b : Timestamp) :
  valid_date a -> valid_date b -> valid_date (py_max a b).
Proof. unfold py_max; destruct (ts_gtb b a); auto. Qed.

Lemma py_min_valid (a b : Timestamp) :
  valid_date a -> valid_date b -> valid_date (py_min a b).
Proof. unfold py_min; destruct (ts_ltb b a); auto. Qed.

Lemma py_max_lub (a b d : Timestamp) :
  ts_le (py_max a b) d <-> ts_le a d /\ ts_le b d.
Proof.
  unfold py_max, ts_gtb. destruct (ts_ltb a b) eqn:E;
    split; intros; repeat match goal with H : _ /\ _ |- _ => destruct H end;
    repeat split; ts_arith; lia.
Qed.

Lemma py_min_glb (a b d : Timestamp) :
  ts_le d (py_min a b) <-> ts_le d a /\ ts_le d b.
Proof.
  unfold py_min. destruct (ts_ltb b a) eqn:E;
    split; intros; repeat match goal with H : _ /\ _ |- _ => destruct H end;
    repeat split; ts_arith; lia.
Qed.

Lemma ts_le_refl (a : Timestamp) : ts_le a a.
Proof. ts_arith; lia. Qed.

Lemma ts_le_trans (a b c : Timestamp) : ts_le a b -> ts_le b c -> ts_le a c.
Proof. intros; ts_arith; lia. Qed.

(** The body of [clamp_dates_for_scenario] once both dates are parsed. *)
Lemma clamp_parsed (s e scenario : string) (sd ed : Timestamp) :
  to_datetime s = Some sd -> to_datetime e = Some ed ->
  clamp_dates_for_scenario s e scenario =
    let a := py_max sd (fst (valid_window scenario)) in
    let b := py_min ed (snd (valid_window scenario)) in
    if ts_gtb a b then Returned None
    else Returned (Some (strftime a, strftime b)).
Proof.
  intros Hs He. unfold clamp_dates_for_scenario, valid_window.
  rewrite Hs, He. destruct (scenario =? "historical")%string; reflexivity.
Qed.

Lemma valid_window_valid (scenario : string) :
  valid_date (fst (valid_window scenario)) /\
  valid_date (snd (valid_window scenario)).
Proof.
  unfold valid_window.
  destruct (scenario =? "historical")%string; split; reflexivity.
Qed.

Lemma valid_window_ordered (scenario : string) :
  ts_le (fst (valid_window scenario)) (snd (valid_window scenario)).
Proof.
  unfold valid_window.
  destruct (scenario =? "historical")%string; reflexivity.
Qed.

(** C2. Once both requested dates are parsed, [clamp_dates_for_scenario]
    returns the intersection of the requested window with the scenario's
    valid window ([1950-01-01, 2014-12-31] for ["historical"],
    [2015-01-01, 2100-12-31] otherwise): it returns the null pair exactly
    when no calendar day lies in both windows, and otherwise a pair of dates
    whose window holds exactly the days lying in both.  The three examples
    of the specification evaluate as stated. *)
Theorem clamp_is_window_intersection
    (s e scenario : string) (sd ed : Timestamp) :
  to_datetime s = Some sd -> to_datetime e = Some ed ->
  let lo := fst (valid_window scenario) in
  let hi := snd (valid_window scenario) in
  (clamp_dates_for_scenario s e scenario = Returned None <->
     ~ exists d, valid_date d /\ in_window sd ed d /\ in_window lo hi d) /\
  (clamp_dates_for_scenario s e scenario <> Returned None ->
     exists a b,
       clamp_dates_for_scenario s e scenario =
         Returned (Some (strftime a, strftime b)) /\
       to_datetime (strftime a) = Some a /\
       to_datetime (strftime b) = Some b /\
       forall d, in_window a b d <-> in_window sd ed d /\ in_window lo hi d) /\
  valid_window "historical" =
    (mkTimestamp 1950 1 1, mkTimestamp 2014 12 31) /\
  (scenario <> "historical" ->
     valid_window scenario = (mkTimestamp 2015 1 1, mkTimestamp 2100 12 31)) /\
  clamp_dates_for_scenario "1900-01-01" "2020-12-31" "historical" =
    Returned (Some ("1950-01-01", "2014-12-31")) /\
  clamp_dates_for_scenario "2095-01-01" "2099-12-31" "historical" =
    Returned None /\
  clamp_dates_for_scenario "2005-01-01" "2009-12-31" "ssp245" =
    Returned None.
Proof.
  intros Hs He lo hi.
  pose proof (to_datetime_valid _ _ Hs) as Vs.
  pose proof (to_datetime_valid _ _ He) as Ve.
  destruct (valid_window_valid scenario) as [Vlo Vhi].
  fold lo in Vlo. fold hi in Vhi.
  rewrite (clamp_parsed s e scenario sd ed Hs He). cbv zeta.
  fold lo hi.
  set (a := py_max sd lo). set (b := py_min ed hi).
  assert (Hin : forall d, in_window a b d <->
                          in_window sd ed d /\ in_window lo hi d).
  { intros d. unfold in_window, a, b.
    rewrite py_max_lub, py_min_glb. tauto. }
  split; [| split; [| split; [| split; [| split; [| split]]]]].
  - destruct (ts_gtb a b) eqn:Hgt.
    + split; [intros _ | reflexivity].
      intros (d & _ & H1 & H2).
      assert (in_window a b d) as [Had Hdb] by (apply Hin; split; assumption).
      pose proof (ts_le_trans _ _ _ Had Hdb) as Hab.
      unfold ts_le, ts_gtb in *. congruence.
    + split; [discriminate |].
      intros Hempty. exfalso. apply Hempty. exists a. split.
      * apply py_max_valid; assumption.
      * apply Hin. split; [apply ts_le_refl | exact Hgt].
  - destruct (ts_gtb a b) eqn:Hgt; [congruence |].
    intros _. exists a, b. split; [reflexivity |].
    split; [| split; [| exact Hin]].
    + apply to_datetime_strftime, py_max_valid; assumption.
    + apply to_datetime_strftime, py_min_valid; assumption.
  - reflexivity.
  - intros Hne. unfold valid_window.
    apply String.eqb_neq in Hne. rewrite Hne. reflexivity.
  - reflexivity.
  - reflexivity.
  - reflexivity.
Qed.

Lemma clamp_is_window_intersection_witness :
  to_datetime "2010-01-01" = Some (mkTimestamp 2010 1 1) /\
  to_datetime "2019-12-31" = Some (mkTimestamp 2019 12 31) /\
  exists a b,
    clamp_dates_for_scenario "2010-01-01" "2019-12-31" "ssp585" =
      Returned (Some (strftime a, strftime b)) /\
    to_datetime (strftime a) = Some a /\
    to_datetime (strftime b) = Some b /\
    forall d, in_window a b d <->
              in_window (mkTimestamp 2010 1 1) (mkTimestamp 2019 12 31) d /\
              in_window (mkTimestamp 2015 1 1) (mkTimestamp 2100 12 31) d.
Proof.
  split; [reflexivity | split; [reflexivity |]].
  apply (clamp_is_window_intersection "2010-01-01" "2019-12-31" "ssp585"
           (mkTimestamp 2010 1 1) (mkTimestamp 2019 12 31)
           eq_refl eq_refl).
  discriminate.
Defined.

(** C10. Whenever [clamp_dates_for_scenario] returns a pair of dates, the
    first is not after the second, both lie in the scenario's valid window,
    and clamping the returned pair again returns it unchanged. *)
Theorem clamp_result_is_fixpoint (s e scenario s' e' : string) :
  clamp_dates_for_scenario s e scenario = Returned (Some (s', e')) ->
  exists a b,
    to_datetime s' = Some a /\ to_datetime e' = Some b /\
    ts_le a b /\
    in_window (fst (valid_window scenario)) (snd (valid_window scenario)) a /\
    in_window (fst (valid_window scenario)) (snd (valid_window scenario)) b /\
    clamp_dates_for_scenario s' e' scenario = Returned (Some (s', e')).
Proof.
  intros Hc.
  destruct (to_datetime s) as [sd |] eqn:Hs;
    [| unfold clamp_dates_for_scenario in Hc; rewrite Hs in Hc; discriminate].
  destruct (to_datetime e) as [ed |] eqn:He;
    [| unfold clamp_dates_for_scenario in Hc; rewrite Hs, He in Hc;
       discriminate].
  pose proof (to_datetime_valid _ _ Hs) as Vs.
  pose proof (to_datetime_valid _ _ He) as Ve.
  destruct (valid_window_valid scenario) as [Vlo Vhi].
  pose proof (valid_window_ordered scenario) as Hw.
  rewrite (clamp_parsed s e scenario sd ed Hs He) in Hc. cbv zeta in Hc.
  set (lo := fst (valid_window scenario)) in *.
  set (hi := snd (valid_window scenario)) in *.
  set (a := py_max sd lo) in *. set (b := py_min ed hi) in *.
  destruct (ts_gtb a b) eqn:Hgt; [discriminate |].
  injection Hc as <- <-.
  assert (Va : valid_date a) by (apply py_max_valid; assumption).
  assert (Vb : valid_date b) by (apply py_min_valid; assumption).
  assert (Hab : ts_le a b) by exact Hgt.
  assert (Hloa : ts_le lo a).
  { pose proof (proj1 (py_max_lub sd lo a) (ts_le_refl _)) as [_ H]. exact H. }
  assert (Hbhi : ts_le b hi).
  { pose proof (proj1 (py_min_glb ed hi b) (ts_le_refl _)) as [_ H]. exact H. }
  exists a, b.
  split; [apply to_datetime_strftime; assumption |].
  split; [apply to_datetime_strftime; assumption |].
  split; [exact Hab |].
  split; [split; [exact Hloa | exact (ts_le_trans _ _ _ Hab Hbhi)] |].
  split; [split; [exact (ts_le_trans _ _ _ Hloa Hab) | exact Hbhi] |].
  rewrite (clamp_parsed (strftime a) (strftime b) scenario a b)
    by (apply to_datetime_strftime; assumption).
  cbv zeta. fold lo hi.
  assert (py_max a lo = a) as ->.
  { unfold py_max, ts_gtb. unfold ts_le in Hloa.
    destruct (ts_ltb a lo) eqn:E; [| reflexivity].
    clear - E Hloa. ts_arith. exfalso. lia. }
  assert (py_min b hi = b) as ->.
  { unfold py_min. unfold ts_le in Hbhi.
    destruct (ts_ltb hi b) eqn:E; [| reflexivity].
    clear - E Hbhi. ts_arith. exfalso. lia. }
  rewrite Hgt. reflexivity.
Qed.

Lemma clamp_result_is_fixpoint_witness :
  exists a b,
    to_datetime "1950-01-01" = Some a /\ to_datetime "2014-12-31" = Some b /\
    ts_le a b /\
    in_window (mkTimestamp 1950 1 1) (mkTimestamp 2014 12 31) a /\
    in_window (mkTimestamp 1950 1 1) (mkTimestamp 2014 12 31) b /\
    clamp_dates_for_scenario "1950-01-01" "2014-12-31" "historical" =
      Returned (Some ("1950-01-01", "2014-12-31")).
Proof.
  apply (clamp_result_is_fixpoint "1900-01-01" "2020-12-31" "historical"
           "1950-01-01" "2014-12-31").
  reflexivity.
Defined.

End DatesFacts.

Module FramesFacts.
Import Frames.

(** *** Insertion sort *)

Section InsertionSortFacts.
Context {A : Type} (leb : A -> A -> bool).
Hypothesis leb_total : forall a b, leb a b = false -> leb b a = true.

Lemma insert_sorted_perm (x : A) (l : list A) :
  Permutation (insert_sorted leb x l) (x :: l).
Proof.
  induction l as [| y t IH]; simpl.
  - apply Permutation_refl.
  - destruct (leb x y).
    + apply Permutation_refl.
    + eapply Permutation_trans; [apply perm_skip, IH | apply perm_swap].
Qed.

Lemma sort_by_perm (l : list A) : Permutation (sort_by leb l) l.
Proof.
  induction l as [| x t IH]; simpl.
  - apply perm_nil.
  - eapply Permutation_trans; [apply insert_sorted_perm |].
    apply perm_skip, IH.
Qed.

Lemma insert_sorted_hd (x a : A) (l : list A) :
  leb a x = true ->
  HdRel (fun u v => leb u v = true) a l ->
  HdRel (fun u v => leb u v = true) a (insert_sorted leb x l).
Proof.
  intros Hax Hl. destruct l as [| y t]; simpl.
  - constructor; exact Hax.
  - destruct (leb x y); constructor.
    + exact Hax.
    + inversion Hl; assumption.
Qed.

Lemma insert_sorted_Sorted (x : A) (l : list A) :
  Sorted (fun u v => leb u v = true) l ->
  Sorted (fun u v => leb u v = true) (insert_sorted leb x l).
Proof.
  induction 1 as [| y t Ht IH Hy]; simpl.
  - repeat constructor.
  - destruct (leb x y) eqn:E.
    + constructor; [constructor; assumption | constructor; exact E].
    + constructor; [exact IH |].
      apply insert_sorted_hd; [apply leb_total; exact E | exact Hy].
Qed.

Lemma sort_by_Sorted (l : list A) :
  Sorted (fun u v => leb u v = true) (sort_by leb l).
Proof.
  induction l as [| x t IH]; simpl.
  - constructor.
  - apply insert_sorted_Sorted, IH.
Qed.
End InsertionSortFacts.

Lemma sort_by_in {A : Type} (leb : A -> A -> bool) (l : list A) (x : A) :
  In x (sort_by leb l) <-> In x l.
Proof.
  split; apply Permutation_in;
    [| apply Permutation_sym]; apply sort_by_perm.
Qed.

Lemma Sorted_weaken {A : Type} (R R' : A -> A -> Prop) (l : list A) :
  (forall a b, R a b -> R' a b) -> Sorted R l -> Sorted R' l.
Proof.
  intros HR. induction 1 as [| a l Hl IH Ha]; constructor.
  - exact IH.
  - destruct Ha; constructor. apply HR; assumption.
Qed.

(** *** The order of records *)

Lemma compare_refl (s : string) : String.compare s s = Eq.
Proof.
  pose proof (String.compare_antisym s s) as H.
  destruct (String.compare s s); [reflexivity | discriminate | discriminate].
Qed.

Lemma compare_Eq_iff (a b : string) : String.compare a b = Eq <-> a = b.
Proof.
  split; [apply String.compare_eq_iff | intros ->; apply compare_refl].
Qed.

Lemma row_compare_antisym (a b : Row) :
  row_compare a b = CompOpp (row_compare b a).
Proof.
  unfold row_compare.
  rewrite (String.compare_antisym (band a) (band b)),
    (String.compare_antisym (model a) (model b)),
    (String.compare_antisym (scenario a) (scenario b)),
    (String.compare_antisym (date a) (date b)).
  destruct (String.compare (band b) (band a)),
    (String.compare (model b) (model a)),
    (String.compare (scenario b) (scenario a)),
    (String.compare (date b) (date a)); reflexivity.
Qed.

Lemma row_leb_total (a b : Row) : row_leb a b = false -> row_leb b a = true.
Proof.
  unfold row_leb. rewrite (row_compare_antisym b a).
  destruct (row_compare a b); simpl; congruence.
Qed.

Lemma row_leb_tidy_le (a b : Row) : row_leb a b = true <-> tidy_le a b.
Proof.
  unfold row_leb, row_compare, tidy_le, str_lt, str_le.
  rewrite <- (compare_Eq_iff (band a) (band b)),
    <- (compare_Eq_iff (model a) (model b)),
    <- (compare_Eq_iff (scenario a) (scenario b)).
  destruct (String.compare (band a) (band b)),
    (String.compare (model a) (model b)),
    (String.compare (scenario a) (scenario b)),
    (String.compare (date a) (date b)); simpl;
    intuition congruence.
Qed.

Lemma ascii_compare_refl (a : ascii) : Ascii.compare a a = Eq.
Proof. unfold Ascii.compare. apply N.compare_refl. Qed.

Lemma ascii_lt_trans (a b c : ascii) :
  Ascii.compare a b = Lt -> Ascii.compare b c = Lt -> Ascii.compare a c = Lt.
Proof.
  unfold Ascii.compare. rewrite !N.compare_lt_iff. apply N.lt_trans.
Qed.

Lemma str_lt_trans (a b c : string) : str_lt a b -> str_lt b c -> str_lt a c.
Proof.
  unfold str_lt. revert b c.
  induction a as [| x a' IH]; intros [| y b'] [| z c']; simpl;
    try discriminate; try reflexivity.
  destruct (Ascii.compare x y) eqn:Exy; try discriminate;
    destruct (Ascii.compare y z) eqn:Eyz; try discriminate.
  - apply Ascii.compare_eq_iff in Exy, Eyz. subst.
    rewrite ascii_compare_refl. apply IH.
  - apply Ascii.compare_eq_iff in Exy. subst. rewrite Eyz. reflexivity.
  - apply Ascii.compare_eq_iff in Eyz. subst. rewrite Exy. reflexivity.
  - rewrite (ascii_lt_trans x y z Exy Eyz). reflexivity.
Qed.

Lemma str_le_cases (a b : string) : str_le a b <-> str_lt a b \/ a = b.
Proof.
  unfold str_le, str_lt. rewrite <- compare_Eq_iff.
  destruct (String.compare a b); intuition congruence.
Qed.

Lemma str_le_trans (a b c : string) : str_le a b -> str_le b c -> str_le a c.
Proof.
  rewrite !str_le_cases. intros [Hab | ->] [Hbc | ->]; auto.
  left. exact (str_lt_trans a b c Hab Hbc).
Qed.

(** The order of records is transitive, so a sorted table is ordered
    between any two of its rows, not only between neighbours. *)
Lemma tidy_le_trans (a b c : Row) : tidy_le a b -> tidy_le b c -> tidy_le a c.
Proof.
  unfold tidy_le.
  intros [H1 | (E1 & [H2 | (E2 & [H3 | (E3 & H4)])])]
         [K1 | (F1 & [K2 | (F2 & [K3 | (F3 & K4)])])];
    rewrite ?E1, ?E2, ?E3 in *; rewrite <- ?F1, <- ?F2, <- ?F3 in *;
    eauto 12 using str_lt_trans, str_le_trans.
Qed.

Lemma sort_values_strongly_sorted (df : DataFrame) :
  StronglySorted tidy_le (rows (sort_values df)).
Proof.
  apply Sorted_StronglySorted.
  - intros a b c. apply tidy_le_trans.
  - unfold sort_values; simpl.
    apply Sorted_weaken with (R := fun u v => row_leb u v = true).
    + intros a b; apply row_leb_tidy_le.
    + apply sort_by_Sorted, row_leb_total.
Qed.

Lemma sort_values_sorted (df : DataFrame) :
  Sorted tidy_le (rows (sort_values df)).
Proof.
  unfold sort_values; simpl.
  apply Sorted_weaken with (R := fun u v => row_leb u v = true).
  - intros a b; apply row_leb_tidy_le.
  - apply sort_by_Sorted, row_leb_total.
Qed.

Lemma string_leb_total (a b : string) :
  String.leb a b = false -> String.leb b a = true.
Proof.
  intros H. destruct (String.leb_total a b) as [H' | H']; congruence.
Qed.

(** *** Distinct values *)

Lemma in_unique (x : string) (l : list string) : In x (unique l) <-> In x l.
Proof.
  induction l as [| y t IH]; simpl; [tauto |].
  rewrite filter_In, IH, negb_true_iff, String.eqb_neq.
  destruct (string_dec y x) as [-> | Hne]; [tauto |].
  split; [tauto |]. intros [H | H]; [tauto |]. right. split; congruence.
Qed.

Lemma NoDup_unique (l : list string) : NoDup (unique l).
Proof.
  induction l as [| y t IH]; simpl; constructor.
  - rewrite filter_In, negb_true_iff, String.eqb_neq. tauto.
  - apply NoDup_filter, IH.
Qed.

Lemma NoDup_sorted_unique (l : list string) :
  NoDup (sorted_strings (unique l)).
Proof.
  unfold sorted_strings.
  eapply Permutation_NoDup;
    [apply Permutation_sym, sort_by_perm | apply NoDup_unique].
Qed.

Lemma in_sorted_unique (x : string) (l : list string) :
  In x (sorted_strings (unique l)) <-> In x l.
Proof.
  unfold sorted_strings. rewrite sort_by_in. apply in_unique.
Qed.

End FramesFacts.

Module EnsembleFacts.
Import Frames FramesFacts Main.

Lemma filter_filter {A : Type} (p q : A -> bool) (l : list A) :
  filter p (filter q l) = filter (fun x => q x && p x) l.
Proof.
  induction l as [| x t IH]; simpl; [reflexivity |].
  destruct (q x); simpl; [destruct (p x) |]; rewrite IH; reflexivity.
Qed.

Lemma filter_blocks {A B : Type} (keep : B -> bool) (block : A -> list B) :
  forall xs : list A,
    filter keep (flat_map block xs) =
    flat_map (fun x => filter keep (block x)) xs.
Proof.
  intros xs. induction xs as [| x t IH]; simpl; [reflexivity |].
  rewrite filter_app, IH. reflexivity.
Qed.

Lemma filter_all {A : Type} (p : A -> bool) (l : list A) :
  (forall x, In x l -> p x = true) -> filter p l = l.
Proof.
  induction l as [| x t IH]; simpl; intros H; [reflexivity |].
  rewrite (H x (or_introl eq_refl)), IH; [reflexivity |].
  intros y Hy; apply H; right; exact Hy.
Qed.

Lemma filter_none {A : Type} (p : A -> bool) (l : list A) :
  (forall x, In x l -> p x = false) -> filter p l = [].
Proof.
  induction l as [| x t IH]; simpl; intros H; [reflexivity |].
  rewrite (H x (or_introl eq_refl)). apply IH.
  intros y Hy; apply H; right; exact Hy.
Qed.

(** Among the blocks of a duplicate-free list, only the block of [x]
    survives a test for [x]. *)
Lemma flat_map_only {B : Type} (x : string) (f : string -> list B)
    (l : list string) :
  NoDup l -> In x l ->
  flat_map (fun y => if (y =? x)%string then f y else []) l = f x.
Proof.
  induction l as [| y t IH]; simpl; intros Hnd Hin; [contradiction |].
  inversion Hnd as [| ? ? Hy Ht]; subst.
  assert (Hout : forall u, ~ In x u ->
            flat_map (fun y => if (y =? x)%string then f y else []) u = []).
  { induction u as [| z u IHu]; simpl; intros Hx; [reflexivity |].
    destruct (String.eqb_spec z x) as [-> | _]; [tauto |].
    apply IHu. tauto. }
  destruct (String.eqb_spec y x) as [-> | Hne].
  - rewrite Hout by assumption. apply app_nil_r.
  - destruct Hin as [-> | Hin]; [congruence |].
    simpl. apply IH; assumption.
Qed.

Lemma NoDup_map_coarser {A B C : Type} (f : A -> B) (g : A -> C)
    (l : list A) :
  (forall x y, In x l -> In y l -> g x = g y -> f x = f y) ->
  NoDup (map f l) -> NoDup (map g l).
Proof.
  induction l as [| x t IH]; simpl; intros Hfg Hnd; [constructor |].
  inversion Hnd as [| ? ? Hx Ht]; subst. constructor.
  - rewrite in_map_iff. intros (y & Hy & Hin).
    apply Hx. rewrite in_map_iff. exists y. split; [| exact Hin].
    apply Hfg; auto.
  - apply IH; [| exact Ht]. intros; apply Hfg; auto.
Qed.

Lemma NoDup_keys_kept {K : Type} (key : Row -> K) (keep : Row -> bool) :
  forall rs : list Row,
    NoDup (map key rs) -> NoDup (map key (filter keep rs)).
Proof.
  intros rs. induction rs as [| x t IH]; simpl; intros Hnd; [constructor |].
  inversion Hnd as [| ? ? Hx Ht]; subst.
  destruct (keep x); simpl; [constructor |]; auto.
  rewrite in_map_iff. intros (y & Hy & Hin). apply Hx.
  rewrite in_map_iff. exists y. split; [exact Hy |].
  apply filter_In in Hin. tauto.
Qed.

(** The rows of the ensemble table of one (scenario, band) pair. *)
Lemma ensemble_rows (all_data : DataFrame) (s b : string) :
  rows (ensemble_of (scenario_band_subset all_data s b) b s) =
  map (fun d => mkRow d b (mean (map value (contributors all_data s b d)))
                      ENSEMBLE_MEAN s)
      (sorted_strings
         (unique (map date (rows (scenario_band_subset all_data s b))))).
Proof.
  unfold ensemble_of, groupby_date_mean, contributors, scenario_band_subset,
    select; simpl.
  rewrite map_map. apply map_ext. intros d; simpl.
  rewrite filter_filter. reflexivity.
Qed.

Lemma in_contributors (all_data : DataFrame) (s b d : string) (r : Row) :
  In r (contributors all_data s b d) <->
  In r (rows all_data) /\ scenario r = s /\ band r = b /\ date r = d.
Proof.
  unfold contributors.
  rewrite filter_In, !andb_true_iff, !String.eqb_eq. tauto.
Qed.

Lemma in_subset_dates (all_data : DataFrame) (s b d : string) :
  In d (map date (rows (scenario_band_subset all_data s b))) <->
  exists r, In r (rows all_data) /\ scenario r = s /\ band r = b /\ date r = d.
Proof.
  unfold scenario_band_subset, select; simpl.
  rewrite in_map_iff. split.
  - intros (r & Hd & Hr). apply filter_In in Hr.
    rewrite andb_true_iff, !String.eqb_eq in Hr. exists r. tauto.
  - intros (r & Hr & Hs & Hb & Hd). exists r. split; [exact Hd |].
    apply filter_In. rewrite andb_true_iff, !String.eqb_eq. tauto.
Qed.

Lemma ensemble_block (df : DataFrame) (b s : string) :
  flat_map rows (if negb (df_empty df) then [ensemble_of df b s] else []) =
  rows (ensemble_of df b s).
Proof.
  unfold df_empty, ensemble_of, groupby_date_mean.
  destruct (rows df); cbn [negb flat_map].
  - reflexivity.
  - apply app_nil_r.
Qed.

(** The rows of all ensemble tables, block by block. *)
Lemma ensemble_frames_rows (sel : Selection) (all_data : DataFrame) :
  flat_map rows (ensemble_frames_of sel all_data) =
  flat_map
    (fun s' =>
       flat_map
         (fun b' => rows (ensemble_of (scenario_band_subset all_data s' b')
                                      b' s'))
         (sel_bands sel))
    (sel_scen sel).
Proof.
  unfold ensemble_frames_of.
  generalize (sel_bands sel) as bands. intros bands.
  induction (sel_scen sel) as [| s' ss IHs]; cbn [flat_map]; [reflexivity |].
  rewrite flat_map_app, IHs. f_equal. clear IHs.
  induction bands as [| b' bs IHb]; cbn [flat_map]; [reflexivity |].
  rewrite flat_map_app, IHb, ensemble_block. reflexivity.
Qed.

Lemma filter_ensemble_block (all_data : DataFrame) (s b s' b' : string) :
  filter (fun r => (scenario r =? s)%string && (band r =? b)%string)
         (rows (ensemble_of (scenario_band_subset all_data s' b') b' s')) =
  if ((s' =? s) && (b' =? b))%string
  then rows (ensemble_of (scenario_band_subset all_data s' b') b' s')
  else [].
Proof.
  rewrite ensemble_rows.
  destruct ((s' =? s) && (b' =? b))%string eqn:E.
  - apply filter_all. intros r Hr.
    apply in_map_iff in Hr as (d & <- & _). exact E.
  - apply filter_none. intros r Hr.
    apply in_map_iff in Hr as (d & <- & _). exact E.
Qed.

(** C3. In a table with at most one record per (date, variable, model,
    scenario), the ensemble records computed for a scenario [s] and a
    variable [b] are: exactly one per date occurring among the rows of
    [s] and [b]; each carries the model identifier ["ENSEMBLE-MEAN"], the
    scenario [s], the variable [b], and as value the arithmetic mean of
    the values of the rows for ([s], [b], that date), which come from
    pairwise distinct models, namely the models having a record for that
    date.  For duplicate-free selections these are all the records that
    the aggregation loop emits for [s] and [b].  Values 10 and 20 from two
    models give 15. *)
Theorem ensemble_mean_per_date (all_data : DataFrame) (s b : string) :
  NoDup (map record_key (rows all_data)) ->
  let ens := rows (ensemble_of (scenario_band_subset all_data s b) b s) in
  NoDup (map date ens) /\
  (forall d, In d (map date ens) <->
             exists r, In r (rows all_data) /\
                       scenario r = s /\ band r = b /\ date r = d) /\
  (forall e, In e ens ->
     model e = ENSEMBLE_MEAN /\ scenario e = s /\ band e = b /\
     value e = mean (map value (contributors all_data s b (date e))) /\
     contributors all_data s b (date e) <> [] /\
     NoDup (map model (contributors all_data s b (date e))) /\
     (forall m, In m (map model (contributors all_data s b (date e))) <->
                exists r, In r (rows all_data) /\ model r = m /\
                          scenario r = s /\ band r = b /\
                          date r = date e)) /\
  (forall sel,
     NoDup (sel_scen sel) -> NoDup (sel_bands sel) ->
     In s (sel_scen sel) -> In b (sel_bands sel) ->
     filter (fun r => (scenario r =? s)%string && (band r =? b)%string)
            (flat_map rows (ensemble_frames_of sel all_data)) = ens) /\
  (let table :=
     mkFrame std_columns
       [ mkRow "2020-01-01" "tas" 10 "A" "ssp245";
         mkRow "2020-01-01" "tas" 20 "B" "ssp245" ] in
   exists v,
     rows (ensemble_of (scenario_band_subset table "ssp245" "tas")
                       "tas" "ssp245") =
       [mkRow "2020-01-01" "tas" v ENSEMBLE_MEAN "ssp245"] /\
     (v == 15)%Q).
Proof.
  intros Hkeys ens.
  assert (Hdates : map date ens =
            sorted_strings
              (unique (map date (rows (scenario_band_subset all_data s b))))).
  { unfold ens. rewrite ensemble_rows, map_map. simpl. apply map_id. }
  split; [| split; [| split; [| split]]].
  - rewrite Hdates. apply NoDup_sorted_unique.
  - intros d. rewrite Hdates, in_sorted_unique. apply in_subset_dates.
  - intros e He.
    assert (Hd : In (date e) (map date ens)) by (apply in_map; exact He).
    rewrite Hdates, in_sorted_unique, in_subset_dates in Hd.
    unfold ens in He. rewrite ensemble_rows in He.
    apply in_map_iff in He as (d & <- & _). simpl in *.
    repeat split.
    + destruct Hd as (r & Hr).
      intros Hnil. apply (in_contributors all_data s b d r) in Hr.
      rewrite Hnil in Hr. exact Hr.
    + apply NoDup_map_coarser with (f := record_key).
      * intros x y Hx Hy Hm.
        apply in_contributors in Hx as (_ & Hxs & Hxb & Hxd).
        apply in_contributors in Hy as (_ & Hys & Hyb & Hyd).
        unfold record_key. congruence.
      * apply NoDup_keys_kept. exact Hkeys.
    + intros Hm. apply in_map_iff in Hm as (r & Hrm & Hr).
      apply in_contributors in Hr. exists r. tauto.
    + intros (r & Hr & Hrm & Hrest). apply in_map_iff. exists r.
      split; [exact Hrm |]. apply in_contributors. tauto.
  - intros sel Hns Hnb Hs Hb.
    rewrite ensemble_frames_rows, filter_blocks.
    rewrite (flat_map_ext _
               (fun s' => if (s' =? s)%string then ens else [])).
    + apply (flat_map_only s (fun _ => ens)); assumption.
    + intros s'. rewrite filter_blocks.
      rewrite (flat_map_ext _
                 (fun b' =>
                    if (b' =? b)%string
                    then (if (s' =? s)%string
                          then rows (ensemble_of
                                       (scenario_band_subset all_data s' b)
                                       b s')
                          else [])
                    else [])).
      * rewrite (flat_map_only b
                   (fun _ => if (s' =? s)%string
                             then rows (ensemble_of
                                          (scenario_band_subset all_data s' b)
                                          b s')
                             else [])) by assumption.
        destruct (String.eqb_spec s' s) as [-> | _]; reflexivity.
      * intros b'. rewrite filter_ensemble_block.
        destruct (String.eqb_spec b' b) as [-> | _];
          destruct (s' =? s)%string; reflexivity.
  - eexists. split; [vm_compute; reflexivity | reflexivity].
Qed.

Lemma ensemble_mean_per_date_witness :
  let table :=
    mkFrame std_columns
      [ mkRow "2020-01-01" "pr" 1 "A" "ssp245";
        mkRow "2020-01-02" "pr" 2 "A" "ssp245";
        mkRow "2020-01-01" "pr" 3 "B" "ssp245" ] in
  NoDup (map record_key (rows table)) /\
  NoDup (map date
           (rows (ensemble_of (scenario_band_subset table "ssp245" "pr")
                              "pr" "ssp245"))).
Proof.
  intros table.
  assert (Hkeys : NoDup (map record_key (rows table))).
  { simpl. repeat constructor; simpl; intuition discriminate. }
  split; [exact Hkeys |].
  apply (ensemble_mean_per_date table "ssp245" "pr" Hkeys).
Defined.

End EnsembleFacts.

Module FetcherFacts.
Import Frames Units Fetcher.

Section WithLibrary.
Context {lib : Library}.

Lemma header_has_index (name : string) (header : list Cell) :
  header_has name header = true <->
  exists idx, header_index name header = Some idx.
Proof.
  unfold header_has.
  induction header as [| c t IH]; simpl.
  - split; [discriminate | intros (idx & H); discriminate].
  - destruct (cell_is name c); simpl.
    + split; [intros _; exists O; reflexivity | reflexivity].
    + rewrite IH. split; intros (idx & H).
      * exists (S idx). rewrite H. reflexivity.
      * destruct (header_index name t) as [i |]; [exists i; reflexivity |].
        discriminate.
Qed.

Lemma header_has_false (name : string) (header : list Cell) :
  header_has name header = false -> header_index name header = None.
Proof.
  intros H. destruct (header_index name header) as [idx |] eqn:E;
    [| reflexivity].
  assert (header_has name header = true) as H'
      by (apply header_has_index; exists idx; exact E).
  congruence.
Qed.

(** *** What every returned record looks like *)

Definition record_of (date_str mdl scn : string)
    (bands : list string) (x : Row) : Prop :=
  date x = date_str /\ model x = mdl /\ scenario x = scn /\
  In (band x) bands.

Lemma row_records_sound (date_str : string) (header r : list Cell)
    (mdl scn : string) (all_bands bands : list string)
    (recs recs' : list Row) :
  incl bands all_bands ->
  row_records date_str header r mdl scn bands recs = Returned recs' ->
  exists new,
    recs' = recs ++ new /\
    Forall (record_of date_str mdl scn all_bands) new.
Proof.
  revert recs. induction bands as [| b rest IH]; intros recs Hincl; simpl.
  - intros H; injection H as <-. exists []. rewrite app_nil_r. auto.
  - assert (Hrest : incl rest all_bands)
      by (intros x Hx; apply Hincl; right; exact Hx).
    assert (Hband : In b all_bands) by (apply Hincl; left; reflexivity).
    destruct (header_has b header); [| apply IH; exact Hrest].
    destruct (header_index b header) as [idx |]; [| discriminate].
    destruct (nth_error r idx) as [val |]; [| discriminate].
    assert (Hstep : forall v,
              row_records date_str header r mdl scn rest
                (recs ++ [mkRow date_str b (convert_units b v) mdl scn])
                = Returned recs' ->
              exists new,
                recs' = recs ++ new /\
                Forall (record_of date_str mdl scn all_bands) new).
    { intros v H. apply IH in H as (new & -> & Hnew); [| exact Hrest].
      exists (mkRow date_str b (convert_units b v) mdl scn :: new).
      split; [rewrite <- app_assoc; reflexivity |].
      constructor; [| exact Hnew]. unfold record_of; simpl. auto. }
    destruct val as [| q | s]; simpl.
    + apply IH; exact Hrest.
    + destruct (float_accepts q); [apply Hstep | discriminate].
    + destruct (float_of_str s) as [v |]; [apply Hstep | discriminate].
Qed.

Lemma build_records_sound (header : list Cell) (time_idx : nat)
    (mdl scn : string) (bands : list string)
    (rows : list (list Cell)) (recs recs' : list Row) :
  build_records header time_idx mdl scn bands rows recs = Returned recs' ->
  exists new,
    recs' = recs ++ new /\
    Forall (fun x => model x = mdl /\ scenario x = scn /\
                     In (band x) bands) new.
Proof.
  revert recs. induction rows as [| r rest IH]; intros recs; simpl.
  - intros H; injection H as <-. exists []. rewrite app_nil_r. auto.
  - destruct (row_date time_idx r) as [date_str |]; [| apply IH].
    destruct (row_records date_str header r mdl scn bands recs)
      as [| recs1] eqn:E; [discriminate |].
    intros H. apply IH in H as (new2 & -> & Hnew2).
    apply row_records_sound with (all_bands := bands) in E
      as (new1 & -> & Hnew1); [| apply incl_refl].
    exists (new1 ++ new2). split; [rewrite app_assoc; reflexivity |].
    apply Forall_app. split; [| exact Hnew2].
    eapply Forall_impl; [| exact Hnew1].
    unfold record_of. tauto.
Qed.

Lemma check_bands_incl (coll : Collection)
    (bands bands_to_fetch : list string) :
  check_bands coll bands = inr bands_to_fetch -> incl bands_to_fetch bands.
Proof.
  unfold check_bands.
  destruct (band_names_info coll) as [| available].
  - intros H; injection H as <-. apply incl_refl.
  - destruct (filter (fun b => str_in b available) bands) eqn:E;
      [discriminate |].
    intros H; injection H as <-. rewrite <- E.
    intros x Hx. apply filter_In in Hx. tauto.
Qed.

(** Every record of a returned table carries the model and the scenario
    of the query and one of the requested bands. *)
Lemma fetch_rows_sound (ee : EarthEngine) (lat lon : Q)
    (start end_ : string) (bands : list string) (mdl scn : string)
    (df : DataFrame) :
  fetch_point_timeseries ee lat lon start end_ bands mdl scn = Returned df ->
  Forall (fun x => model x = mdl /\ scenario x = scn /\ In (band x) bands)
         (rows df).
Proof.
  unfold fetch_point_timeseries.
  set (coll := ee lat lon start end_ mdl scn).
  assert (Hempty : Returned empty_with_columns = Returned df ->
                   Forall (fun x => model x = mdl /\ scenario x = scn /\
                                    In (band x) bands) (rows df)).
  { intros H; injection H as <-. constructor. }
  destruct (size_info coll) as [| n]; [exact Hempty |].
  destruct (n =? 0)%Z; [exact Hempty |].
  destruct (check_bands coll bands) as [df0 | bands_to_fetch] eqn:Hcheck.
  - unfold check_bands in Hcheck.
    destruct (band_names_info coll); [discriminate |].
    destruct (filter _ bands); [| discriminate].
    injection Hcheck as <-. exact Hempty.
  - apply check_bands_incl in Hcheck.
    destruct (region_info coll bands_to_fetch) as [| arr];
      [exact Hempty |].
    destruct (length arr <? 2)%nat; [exact Hempty |].
    destruct arr as [| header data]; [exact Hempty |].
    destruct (header_index "time" header) as [time_idx |];
      [| exact Hempty].
    destruct (build_records header time_idx mdl scn bands_to_fetch data [])
      as [| recs] eqn:E; [discriminate |].
    intros H; injection H as <-.
    apply build_records_sound in E as (new & -> & Hnew). simpl in *.
    assert (rows (from_records new) = new) as ->
        by (destruct new; reflexivity).
    eapply Forall_impl; [| exact Hnew]. simpl.
    intros x (Hm & Hs & Hb). auto.
Qed.

(** A returned table that holds rows has the standard column order. *)
Lemma fetch_columns (ee : EarthEngine) (lat lon : Q)
    (start end_ : string) (bands : list string) (mdl scn : string)
    (df : DataFrame) :
  fetch_point_timeseries ee lat lon start end_ bands mdl scn = Returned df ->
  rows df <> [] -> columns df = std_columns.
Proof.
  unfold fetch_point_timeseries.
  set (coll := ee lat lon start end_ mdl scn).
  assert (Hempty : Returned empty_with_columns = Returned df ->
                   rows df <> [] -> columns df = std_columns).
  { intros H; injection H as <-. reflexivity. }
  destruct (size_info coll) as [| n]; [exact Hempty |].
  destruct (n =? 0)%Z; [exact Hempty |].
  destruct (check_bands coll bands) as [df0 | bands_to_fetch] eqn:Hcheck.
  - unfold check_bands in Hcheck.
    destruct (band_names_info coll); [discriminate |].
    destruct (filter _ bands); [| discriminate].
    injection Hcheck as <-. exact Hempty.
  - destruct (region_info coll bands_to_fetch) as [| arr];
      [exact Hempty |].
    destruct (length arr <? 2)%nat; [exact Hempty |].
    destruct arr as [| header data]; [exact Hempty |].
    destruct (header_index "time" header) as [time_idx |];
      [| exact Hempty].
    destruct (build_records header time_idx mdl scn bands_to_fetch data [])
      as [| recs]; [discriminate |].
    intros H; injection H as <-.
    destruct recs; [simpl; congruence | reflexivity].
Qed.

(** *** The loops on complete rows *)

Lemma str_in_In (x : string) (xs : list string) :
  str_in x xs = true <-> In x xs.
Proof.
  unfold str_in. rewrite existsb_exists. split.
  - intros (y & Hy & E). apply String.eqb_eq in E. subst. exact Hy.
  - intros H. exists x. split; [exact H | apply String.eqb_refl].
Qed.

Lemma row_records_complete (date_str : string) (header r : list Cell)
    (mdl scn : string) (bands : list string) (recs : list Row) :
  row_complete header bands r = true ->
  row_records date_str header r mdl scn bands recs =
    Returned
      (recs ++
       flat_map
         (fun b =>
            match header_index b header with
            | None => []
            | Some idx =>
                match nth_error r idx with
                | Some (CNum v) =>
                    [mkRow date_str b (convert_units b v) mdl scn]
                | _ => []
                end
            end)
         bands).
Proof.
  unfold row_complete.
  revert recs. induction bands as [| b rest IH]; intros recs; simpl.
  - intros _. rewrite app_nil_r. reflexivity.
  - rewrite andb_true_iff. intros [Hb Hrest].
    destruct (header_has b header) eqn:Hhas.
    + apply header_has_index in Hhas as (idx & Hidx).
      rewrite Hidx in *.
      destruct (nth_error r idx) as [[| v | s] |]; try discriminate; simpl.
      * apply IH; exact Hrest.
      * simpl in Hb. rewrite Hb.
        rewrite IH by exact Hrest. rewrite <- app_assoc. reflexivity.
    + rewrite (header_has_false _ _ Hhas). simpl. apply IH; exact Hrest.
Qed.

Lemma build_records_complete (header : list Cell) (time_idx : nat)
    (mdl scn : string) (bands : list string) (data : list (list Cell))
    (recs : list Row) :
  rows_complete header bands data = true ->
  build_records header time_idx mdl scn bands data recs =
    Returned (recs ++ expected_records header time_idx mdl scn bands data).
Proof.
  unfold rows_complete.
  revert recs. induction data as [| r rest IH]; intros recs; simpl.
  - intros _. rewrite app_nil_r. reflexivity.
  - rewrite andb_true_iff. intros [Hr Hrest].
    destruct (row_date time_idx r) as [date_str |]; simpl.
    + rewrite row_records_complete by exact Hr.
      rewrite IH by exact Hrest. rewrite <- app_assoc. reflexivity.
    + apply IH; exact Hrest.
Qed.

Lemma expected_records_no_band (header : list Cell) (time_idx : nat)
    (mdl scn : string) (data : list (list Cell)) :
  expected_records header time_idx mdl scn [] data = [].
Proof.
  unfold expected_records.
  induction data as [| r rest IH]; simpl in *; [reflexivity |].
  rewrite IH. destruct (row_date time_idx r); reflexivity.
Qed.

Lemma in_expected_records (header : list Cell) (time_idx : nat)
    (mdl scn : string) (bands : list string) (data : list (list Cell))
    (x : Row) :
  In x (expected_records header time_idx mdl scn bands data) <->
  exists r date_str b idx v,
    In r data /\ row_date time_idx r = Some date_str /\
    In b bands /\ header_index b header = Some idx /\
    nth_error r idx = Some (CNum v) /\
    x = mkRow date_str b (convert_units b v) mdl scn.
Proof.
  unfold expected_records. rewrite in_flat_map. split.
  - intros (r & Hr & Hx).
    destruct (row_date time_idx r) as [date_str |] eqn:Hd;
      [| contradiction].
    apply in_flat_map in Hx as (b & Hb & Hx).
    destruct (header_index b header) as [idx |] eqn:Hi; [| contradiction].
    destruct (nth_error r idx) as [[| v | s] |] eqn:Hn;
      try contradiction.
    destruct Hx as [<- | []].
    exists r, date_str, b, idx, v. auto 10.
  - intros (r & date_str & b & idx & v & Hr & Hd & Hb & Hi & Hn & ->).
    exists r. split; [exact Hr |]. rewrite Hd.
    apply in_flat_map. exists b. split; [exact Hb |].
    rewrite Hi, Hn. left. reflexivity.
Qed.

Lemma rows_from_records (recs : list Row) : rows (from_records recs) = recs.
Proof. destruct recs; reflexivity. Qed.

Lemma filter_self (bands : list string) :
  filter (fun b => str_in b bands) bands = bands.
Proof.
  apply EnsembleFacts.filter_all. intros x Hx. apply str_in_In. exact Hx.
Qed.

(** *** Partial fulfilment *)

(** C5. When the availability check answers, the bands fetched are the
    requested bands that are available, the others being dropped without
    failure: with none available the table is empty; otherwise, on a
    response whose rows are complete (every cell under a fetched band is
    null or a number that [float] accepts), the table holds exactly one
    record per response row with a readable date and fetched band whose
    cell is a number, null cells giving no record, and every record
    carries a band that is both requested and available. *)
Theorem fetch_covers_available_bands (ee : EarthEngine) (lat lon : Q)
    (start end_ : string) (bands : list string) (mdl scn : string)
    (n : Z) (available : list string) :
  let coll := ee lat lon start end_ mdl scn in
  let bands_to_fetch := filter (fun b => str_in b available) bands in
  let result := fetch_point_timeseries ee lat lon start end_ bands mdl scn in
  size_info coll = Ok n -> n <> 0%Z ->
  band_names_info coll = Ok available ->
  (bands_to_fetch = [] -> result = Returned empty_with_columns) /\
  (forall header data time_idx,
     region_info coll bands_to_fetch = Ok (header :: data) ->
     header_index "time" header = Some time_idx ->
     rows_complete header bands_to_fetch data = true ->
     exists df,
       result = Returned df /\
       rows df =
         expected_records header time_idx mdl scn bands_to_fetch data /\
       (forall x,
          In x (rows df) <->
          exists r date_str b idx v,
            In r data /\ row_date time_idx r = Some date_str /\
            (In b bands /\ In b available) /\
            header_index b header = Some idx /\
            nth_error r idx = Some (CNum v) /\
            x = mkRow date_str b (convert_units b v) mdl scn) /\
       (forall x, In x (rows df) ->
                  In (band x) bands /\ In (band x) available)).
Proof.
  intros coll bands_to_fetch result Hsize Hn Havail.
  assert (Hn' : (n =? 0)%Z = false) by (apply Z.eqb_neq; exact Hn).
  assert (Hmem : forall b, In b bands_to_fetch <->
                           In b bands /\ In b available).
  { intros b. unfold bands_to_fetch. rewrite filter_In, str_in_In. tauto. }
  split.
  - intros Hnone. unfold result, fetch_point_timeseries. fold coll.
    rewrite Hsize, Hn'. unfold check_bands. rewrite Havail.
    fold bands_to_fetch. rewrite Hnone. reflexivity.
  - intros header data time_idx Hregion Hidx Hcomplete.
    assert (Hrows : forall x,
              In x (expected_records header time_idx mdl scn
                      bands_to_fetch data) <->
              exists r date_str b idx v,
                In r data /\ row_date time_idx r = Some date_str /\
                (In b bands /\ In b available) /\
                header_index b header = Some idx /\
                nth_error r idx = Some (CNum v) /\
                x = mkRow date_str b (convert_units b v) mdl scn).
    { intros x. rewrite in_expected_records. split.
      - intros (r & d & b & idx & v & H1 & H2 & H3 & H4).
        exists r, d, b, idx, v. rewrite <- Hmem. tauto.
      - intros (r & d & b & idx & v & H1 & H2 & H3 & H4).
        exists r, d, b, idx, v. rewrite Hmem. tauto. }
    assert (Hbands : forall x,
              In x (expected_records header time_idx mdl scn
                      bands_to_fetch data) ->
              In (band x) bands /\ In (band x) available).
    { intros x Hx. apply Hrows in Hx
        as (r & d & b & idx & v & _ & _ & Hb & _ & _ & ->). exact Hb. }
    unfold result, fetch_point_timeseries. fold coll.
    rewrite Hsize, Hn'. unfold check_bands. rewrite Havail.
    fold bands_to_fetch.
    destruct bands_to_fetch as [| b0 bs] eqn:Hbs.
    + exists empty_with_columns.
      rewrite expected_records_no_band in *. simpl.
      repeat split; try reflexivity; try contradiction; try apply Hrows.
    + rewrite Hregion.
      destruct data as [| r0 rest].
      * exists empty_with_columns. cbn [length Nat.ltb Nat.leb].
        split; [reflexivity |]. auto.
      * cbn [length Nat.ltb Nat.leb]. rewrite Hidx.
        rewrite build_records_complete by exact Hcomplete.
        cbn [app].
        eexists. split; [reflexivity |].
        rewrite rows_from_records. auto.
Qed.

(** *** Degradation to an empty table *)

(** C4 (amended). [fetch_point_timeseries] returns the empty table with
    the columns date, band, value, model, scenario when the collection
    is empty or its size call fails, when the call for the region fails,
    when the response has fewer than two rows, and when its header lacks
    the time field.  A failure of the band-availability call alone does
    not end the fetch: when at least one band is requested, the result is
    the one obtained when every requested band is reported available.
    No exception propagates when every row of the response holds, under
    every fetched band named in the header, null or a number that
    [float] accepts. *)
Theorem fetch_degrades_to_empty (ee : EarthEngine) (lat lon : Q)
    (start end_ : string) (bands : list string) (mdl scn : string) :
  let coll := ee lat lon start end_ mdl scn in
  let result := fetch_point_timeseries ee lat lon start end_ bands mdl scn in
  (size_info coll = Ok 0%Z \/ size_info coll = Failed ->
     result = Returned empty_with_columns) /\
  (forall bs, check_bands coll bands = inr bs ->
     region_info coll bs = Failed ->
     result = Returned empty_with_columns) /\
  (forall bs arr, check_bands coll bands = inr bs ->
     region_info coll bs = Ok arr -> (length arr < 2)%nat ->
     result = Returned empty_with_columns) /\
  (forall bs header data, check_bands coll bands = inr bs ->
     region_info coll bs = Ok (header :: data) ->
     header_has "time" header = false ->
     result = Returned empty_with_columns) /\
  (band_names_info coll = Failed -> bands <> [] ->
     result =
       fetch_point_timeseries
         (fun a b c d e f => with_band_names (Ok bands) (ee a b c d e f))
         lat lon start end_ bands mdl scn) /\
  ((forall bs header data, check_bands coll bands = inr bs ->
      region_info coll bs = Ok (header :: data) ->
      rows_complete header bs data = true) ->
   exists df, result = Returned df).
Proof.
  intros coll result. unfold result, fetch_point_timeseries. fold coll.
  split; [| split; [| split; [| split; [| split]]]].
  - intros [-> | ->]; reflexivity.
  - intros bs Hcheck Hregion.
    destruct (size_info coll) as [| n]; [reflexivity |].
    destruct (n =? 0)%Z; [reflexivity |].
    rewrite Hcheck, Hregion. reflexivity.
  - intros bs arr Hcheck Hregion Hlen.
    destruct (size_info coll) as [| n]; [reflexivity |].
    destruct (n =? 0)%Z; [reflexivity |].
    rewrite Hcheck, Hregion.
    apply Nat.ltb_lt in Hlen. rewrite Hlen. reflexivity.
  - intros bs header data Hcheck Hregion Htime.
    destruct (size_info coll) as [| n]; [reflexivity |].
    destruct (n =? 0)%Z; [reflexivity |].
    rewrite Hcheck, Hregion.
    rewrite (header_has_false _ _ Htime).
    destruct (length (header :: data) <? 2)%nat; reflexivity.
  - intros Hfail Hbands. cbn [with_band_names size_info region_info].
    destruct (size_info coll) as [| n]; [reflexivity |].
    destruct (n =? 0)%Z; [reflexivity |].
    unfold check_bands. cbn [band_names_info with_band_names].
    rewrite Hfail, filter_self.
    destruct bands as [| b0 bs]; [congruence | reflexivity].
  - intros Hcomplete.
    destruct (size_info coll) as [| n]; [eexists; reflexivity |].
    destruct (n =? 0)%Z; [eexists; reflexivity |].
    destruct (check_bands coll bands) as [df0 | bs] eqn:Hcheck;
      [eexists; reflexivity |].
    destruct (region_info coll bs) as [| arr] eqn:Hregion;
      [eexists; reflexivity |].
    destruct (length arr <? 2)%nat; [eexists; reflexivity |].
    destruct arr as [| header data]; [eexists; reflexivity |].
    destruct (header_index "time" header) as [time_idx |];
      [| eexists; reflexivity].
    rewrite build_records_complete
      by (apply (Hcomplete bs header data); [reflexivity | exact Hregion]).
    eexists; reflexivity.
Qed.

End WithLibrary.

(** *** Concrete responses *)

(** A collection of two images on which three of the nine documented bands
    exist; the region call answers with the columns selected. *)
Definition sample_header : list Cell :=
  [CStr "id"; CStr "longitude"; CStr "latitude"; CStr "time";
   CStr "tas"; CStr "pr"; CStr "hurs"].

Definition sample_data : list (list Cell) :=
  [ [CStr "img0"; CNum 2; CNum 48; CNum 946684800000;
     CNum 280; CNull; CNum 50];
    [CStr "img1"; CNum 2; CNum 48; CNum 946771200000;
     CNum 281; CNum (1 # 100000); CNull] ].

Definition sample_engine : EarthEngine :=
  fun _ _ _ _ _ _ =>
    mkCollection (Ok 2%Z) (Ok ["tas"; "pr"; "hurs"])
                 (fun _ => Ok (sample_header :: sample_data)).

Definition five_bands : list string :=
  ["tas"; "tasmax"; "pr"; "hurs"; "sfcWind"].

(** Five bands requested, three available: the table covers those three,
    and the two null cells give no record. *)
Example fetch_five_requested_three_available :
  fetch_point_timeseries (lib := Reference.library) sample_engine 48 2
    "2000-01-01" "2009-12-31" five_bands "CanESM5" "historical" =
  Returned
    (mkFrame std_columns
       [ mkRow "2000-01-01" "tas" (280 - 273.15) "CanESM5" "historical";
         mkRow "2000-01-01" "hurs" 50 "CanESM5" "historical";
         mkRow "2000-01-02" "tas" (281 - 273.15) "CanESM5" "historical";
         mkRow "2000-01-02" "pr" ((1 # 100000) * 86400) "CanESM5"
               "historical" ]).
Proof. vm_compute. reflexivity. Qed.

Lemma fetch_covers_available_bands_witness :
  exists df,
    fetch_point_timeseries (lib := Reference.library) sample_engine 48 2
      "2000-01-01" "2009-12-31" five_bands "CanESM5" "historical"
      = Returned df /\
    rows df =
      expected_records (lib := Reference.library) sample_header 3
        "CanESM5" "historical" ["tas"; "pr"; "hurs"] sample_data /\
    forall x, In x (rows df) ->
              In (band x) five_bands /\ In (band x) ["tas"; "pr"; "hurs"].
Proof.
  destruct (fetch_covers_available_bands (lib := Reference.library)
              sample_engine 48 2 "2000-01-01" "2009-12-31" five_bands
              "CanESM5" "historical" 2%Z ["tas"; "pr"; "hurs"]
              eq_refl ltac:(discriminate) eq_refl) as [_ H].
  destruct (H sample_header sample_data 3%nat eq_refl eq_refl eq_refl)
    as (df & H1 & H2 & _ & H4).
  exists df. split; [exact H1 | split; [exact H2 | exact H4]].
Defined.

(** The availability call fails and the region call answers. *)
Definition unchecked_engine : EarthEngine :=
  fun _ _ _ _ _ _ =>
    mkCollection (Ok 1%Z) Failed
                 (fun _ => Ok [ [CStr "time"; CStr "tas"];
                                [CNum 0; CNum 300] ]).

(** The response holds a row shorter than its header. *)
Definition short_row_engine : EarthEngine :=
  fun _ _ _ _ _ _ =>
    mkCollection (Ok 1%Z) (Ok ["tas"])
                 (fun _ => Ok [ [CStr "time"; CStr "tas"]; [CNum 0] ]).

(** The response holds an integer beyond the binary64 range. *)
Definition overflow_engine : EarthEngine :=
  fun _ _ _ _ _ _ =>
    mkCollection (Ok 1%Z) (Ok ["hurs"])
                 (fun _ => Ok [ [CStr "time"; CStr "hurs"];
                                [CNum 0; CNum (inject_Z (10 ^ 400))] ]).

(** [float(val)] raises [OverflowError] on that cell and the exception
    propagates; the row is not complete.  The bound is exact: the integer
    just below it is accepted. *)
Example fetch_raises_on_overflowing_integer :
  fetch_point_timeseries (lib := Reference.library) overflow_engine 51 0
    "1970-01-01" "1979-12-31" ["hurs"] "CanESM5" "historical" = Raised /\
  rows_complete [CStr "time"; CStr "hurs"] ["hurs"]
                [ [CNum 0; CNum (inject_Z (10 ^ 400))] ] = false /\
  float_accepts (inject_Z (2 ^ 1024 - 2 ^ 970)) = false /\
  float_accepts (inject_Z (2 ^ 1024 - 2 ^ 970 - 1)) = true /\
  float_accepts (inject_Z (- (2 ^ 1024 - 2 ^ 970))) = false.
Proof.
  split; [vm_compute; reflexivity |].
  split; [vm_compute; reflexivity |].
  split; [vm_compute; reflexivity |].
  split; vm_compute; reflexivity.
Qed.

(** C4 as stated fails: a remote call errors (the availability call) and
    the table returned is not empty; and a response with a short row makes
    an [IndexError] propagate. *)
Lemma fetch_degrades_counterexample :
  band_names_info (unchecked_engine 51 0 "1970-01-01" "1979-12-31"
                     "CanESM5" "historical") = Failed /\
  fetch_point_timeseries (lib := Reference.library) unchecked_engine 51 0
    "1970-01-01" "1979-12-31" ["tas"] "CanESM5" "historical" =
  Returned
    (mkFrame std_columns
       [mkRow "1970-01-01" "tas" (300 - 273.15) "CanESM5" "historical"]) /\
  fetch_point_timeseries (lib := Reference.library) unchecked_engine 51 0
    "1970-01-01" "1979-12-31" ["tas"] "CanESM5" "historical" <>
  Returned empty_with_columns /\
  fetch_point_timeseries (lib := Reference.library) short_row_engine 51 0
    "1970-01-01" "1979-12-31" ["tas"] "CanESM5" "historical" = Raised.
Proof.
  split; [reflexivity |].
  split; [vm_compute; reflexivity |].
  split; [vm_compute; discriminate | vm_compute; reflexivity].
Qed.

(** A response whose only row is too short to hold the time field: the
    row is skipped, and the table returned has no row and no column. *)
Example fetch_without_records_has_no_column :
  fetch_point_timeseries (lib := Reference.library)
    (fun _ _ _ _ _ _ =>
       mkCollection (Ok 1%Z) (Ok ["tas"])
         (fun _ => Ok [ [CStr "tas"; CStr "time"]; [CNum 300] ]))
    51 0 "1970-01-01" "1979-12-31" ["tas"] "CanESM5" "historical" =
  Returned (mkFrame [] []).
Proof. reflexivity. Qed.

Lemma fetch_degrades_to_empty_witness :
  fetch_point_timeseries (lib := Reference.library)
    (fun _ _ _ _ _ _ => mkCollection (Ok 0%Z) (Ok ["tas"]) (fun _ => Failed))
    51 0 "2000-01-01" "2009-12-31" ["tas"] "CanESM5" "historical" =
  Returned empty_with_columns /\
  exists df,
    fetch_point_timeseries (lib := Reference.library) sample_engine 48 2
      "2000-01-01" "2009-12-31" five_bands "CanESM5" "historical"
    = Returned df.
Proof.
  split.
  - destruct (fetch_degrades_to_empty (lib := Reference.library)
                (fun _ _ _ _ _ _ =>
                   mkCollection (Ok 0%Z) (Ok ["tas"]) (fun _ => Failed))
                51 0 "2000-01-01" "2009-12-31" ["tas"] "CanESM5"
                "historical") as (H & _).
    apply H. left; reflexivity.
  - destruct (fetch_degrades_to_empty (lib := Reference.library)
                sample_engine 48 2 "2000-01-01" "2009-12-31" five_bands
                "CanESM5" "historical") as (_ & _ & _ & _ & _ & H).
    apply H.
    intros bs header data Hcheck Hregion.
    injection Hcheck as <-. injection Hregion as <- <-. reflexivity.
Defined.

End FetcherFacts.

Module MainFacts.
Import Frames FramesFacts Dates Fetcher FetcherFacts Main.

Section WithLibrary.
Context {lib : Library}.

(** *** Validation *)

Lemma validation_passed (sel : Selection) :
  validation sel = None ->
  sel_bands sel <> [] /\ sel_models sel <> [] /\ sel_scen sel <> [] /\
  decades sel <> [] /\
  (include_individual sel = true \/ include_ensemble sel = true) /\
  (include_ensemble sel = true -> (2 <= length (sel_models sel))%nat).
Proof.
  unfold validation.
  destruct (sel_bands sel); [discriminate |].
  destruct (sel_models sel) as [| m ms] eqn:Hm; [discriminate |].
  destruct (sel_scen sel); [discriminate |].
  destruct (decades sel); [discriminate |].
  destruct (include_individual sel), (include_ensemble sel);
    cbn [negb andb]; try discriminate.
  - destruct (length (m :: ms) <? 2)%nat eqn:E; [discriminate |].
    apply Nat.ltb_ge in E. intros _.
    repeat split; try discriminate; auto.
  - intros _. repeat split; try discriminate; auto.
  - destruct (length (m :: ms) <? 2)%nat eqn:E; [discriminate |].
    apply Nat.ltb_ge in E. intros _.
    repeat split; try discriminate; auto.
Qed.

(** C8. When the variable list, the model list, the scenario list or the
    decade list is empty, or the ensemble mean is requested with fewer
    than two models, [main] ends with a message for the user and no
    invocation of [fetch_point_timeseries] has been made. *)
Theorem invalid_selection_aborts_before_fetch
    (ee : EarthEngine) (lat lon : Q) (sel : Selection) :
  sel_bands sel = [] \/ sel_models sel = [] \/ sel_scen sel = [] \/
  decades sel = [] \/
  (include_ensemble sel = true /\ (length (sel_models sel) < 2)%nat) ->
  exists message st,
    run_main ee lat lon sel = (Returned (Aborted message), st) /\
    fetch_calls st = [].
Proof.
  intros Hbad. unfold run_main, main_fetch.
  destruct (validation sel) as [message |] eqn:Hv.
  - exists message, no_sweep. split; reflexivity.
  - exfalso.
    apply validation_passed in Hv as (H1 & H2 & H3 & H4 & _ & H6).
    destruct Hbad as [H | [H | [H | [H | [He Hlt]]]]]; try contradiction.
    specialize (H6 He). lia.
Qed.

(** *** The frames collected by the sweep *)

(** A collected frame holds rows, in the standard column order, of a
    selected scenario and a selected band. *)
Definition frame_ok (sel : Selection) (df : DataFrame) : Prop :=
  rows df <> [] /\ columns df = std_columns /\
  Forall (fun x => In (scenario x) (sel_scen sel) /\
                   In (band x) (sel_bands sel)) (rows df).

Definition frames_ok (sel : Selection) (st : Sweep) : Prop :=
  Forall (frame_ok sel) (all_frames st).

Lemma for_each_inv {A : Type} (P : Sweep -> Prop) (xs : list A)
    (body : A -> M unit) :
  (forall x st o st', In x xs -> P st -> body x st = (o, st') -> P st') ->
  forall st o st', P st -> for_each xs body st = (o, st') -> P st'.
Proof.
  induction xs as [| x t IH]; intros Hbody st o st' HP; simpl.
  - unfold ret. intros H; injection H as _ <-. exact HP.
  - unfold bind. destruct (body x st) as [o1 st1] eqn:E.
    assert (HP1 : P st1)
      by (eapply Hbody; [left; reflexivity | exact HP | exact E]).
    destruct o1 as [| []].
    + intros H; injection H as _ <-. exact HP1.
    + apply IH; [| exact HP1].
      intros y st0 o0 st0' Hy. apply Hbody. right. exact Hy.
Qed.

Lemma fetch_model_inv (ee : EarthEngine) (lat lon : Q) (sel : Selection)
    (scn s_adj e_adj mdl : string) (st st' : Sweep) (o : outcome unit) :
  In scn (sel_scen sel) -> frames_ok sel st ->
  fetch_model ee lat lon sel scn s_adj e_adj mdl st = (o, st') ->
  frames_ok sel st'.
Proof.
  intros Hscn Hok. unfold fetch_model, bind, record_call, lift.
  cbn [fetch_calls all_frames error_log].
  destruct (fetch_point_timeseries ee lat lon s_adj e_adj (sel_bands sel)
              mdl scn) as [| df] eqn:Hfetch.
  - intros H; injection H as _ <-. exact Hok.
  - destruct (df_empty df) eqn:Hempty; cbn [negb].
    + unfold log_error. intros H; injection H as _ <-. exact Hok.
    + unfold append_frame. intros H; injection H as _ <-.
      unfold frames_ok in *. cbn [all_frames].
      apply Forall_app. split; [exact Hok |].
      assert (Hrows : rows df <> [])
        by (unfold df_empty in Hempty; destruct (rows df); congruence).
      constructor; [| constructor]. split; [exact Hrows | split].
      * apply (fetch_columns _ _ _ _ _ _ _ _ _ Hfetch Hrows).
      * apply fetch_rows_sound in Hfetch.
        eapply Forall_impl; [| exact Hfetch]. simpl.
        intros x (_ & -> & Hb). auto.
Qed.

Lemma sweep_inv (ee : EarthEngine) (lat lon : Q) (sel : Selection)
    (ranges : list (string * string)) (st st' : Sweep) (o : outcome unit) :
  frames_ok sel st ->
  sweep ee lat lon sel ranges st = (o, st') ->
  frames_ok sel st'.
Proof.
  unfold sweep. apply for_each_inv.
  intros scn st1 o1 st1' Hscn. apply for_each_inv.
  intros [start end_] st2 o2 st2' _ Hok2.
  unfold bind, lift.
  destruct (clamp_dates_for_scenario start end_ scn) as [| [[s_adj e_adj] |]].
  - intros H; injection H as _ <-. exact Hok2.
  - revert Hok2. apply for_each_inv.
    intros mdl st3 o3 st3' _ Hok3. apply fetch_model_inv; assumption.
  - unfold log_error. intros H; injection H as _ <-. exact Hok2.
Qed.

(** *** From the frames to the final table *)

Lemma concat_returns (frames : list DataFrame) :
  frames <> [] ->
  exists joined,
    concat frames = Returned joined /\
    rows joined = flat_map rows frames.
Proof.
  destruct frames as [| df t]; [congruence |]. intros _.
  eexists. split; reflexivity.
Qed.

Lemma ensemble_frames_nonempty (sel : Selection) (all_data : DataFrame)
    (x : Row) :
  In x (rows all_data) ->
  In (scenario x) (sel_scen sel) -> In (band x) (sel_bands sel) ->
  ensemble_frames_of sel all_data <> [].
Proof.
  intros Hx Hs Hb Hnil.
  assert (Hin : In (ensemble_of
                      (scenario_band_subset all_data (scenario x) (band x))
                      (band x) (scenario x))
                   (ensemble_frames_of sel all_data)).
  { unfold ensemble_frames_of.
    apply in_flat_map. exists (scenario x). split; [exact Hs |].
    apply in_flat_map. exists (band x). split; [exact Hb |].
    assert (In x (rows (scenario_band_subset all_data
                          (scenario x) (band x)))) as Hsub.
    { unfold scenario_band_subset, select; simpl.
      apply filter_In. split; [exact Hx |].
      rewrite !String.eqb_refl. reflexivity. }
    unfold df_empty.
    destruct (rows (scenario_band_subset all_data (scenario x) (band x)));
      [contradiction |].
    left. reflexivity. }
  rewrite Hnil in Hin. exact Hin.
Qed.

Lemma combine_returns (sel : Selection) (frames : list DataFrame) :
  frames <> [] -> Forall (frame_ok sel) frames ->
  include_individual sel = true \/ include_ensemble sel = true ->
  (include_ensemble sel = true -> (2 <= length (sel_models sel))%nat) ->
  exists all_data out,
    combine sel frames = Returned (all_data, out) /\
    StronglySorted tidy_le (rows all_data) /\ StronglySorted tidy_le (rows out).
Proof.
  intros Hne Hok Hopt Hens.
  destruct (concat_returns frames Hne) as (joined & Hjoin & Hrows).
  unfold combine. rewrite Hjoin. cbv zeta.
  set (all_data := sort_values joined).
  assert (Hx : exists x, In x (rows all_data) /\
                         In (scenario x) (sel_scen sel) /\
                         In (band x) (sel_bands sel)).
  { destruct frames as [| df t]; [congruence |].
    inversion Hok as [| ? ? (Hdf & _ & Hall) _]; subst.
    destruct (rows df) as [| x rest] eqn:E; [congruence |].
    inversion Hall as [| ? ? Hxok _]; subst.
    exists x. split; [| exact Hxok].
    unfold all_data, sort_values; simpl. apply sort_by_in.
    rewrite Hrows. simpl. rewrite E. left. reflexivity. }
  assert (Hfinish : forall output_frames,
            output_frames <> [] ->
            exists all_data0 out,
              match concat output_frames with
              | Raised => Raised
              | Returned out0 => Returned (all_data, sort_values out0)
              end = Returned (all_data0, out) /\
              StronglySorted tidy_le (rows all_data0) /\
              StronglySorted tidy_le (rows out)).
  { intros fs Hfs. destruct (concat_returns fs Hfs) as (o & -> & _).
    exists all_data, (sort_values o).
    split; [reflexivity |]. split; apply sort_values_strongly_sorted. }
  destruct (include_ensemble sel) eqn:He; cbn [andb].
  - specialize (Hens eq_refl).
    assert ((1 <? length (sel_models sel))%nat = true) as ->
        by (apply Nat.ltb_lt; lia).
    destruct Hx as (x & Hx & Hs & Hb).
    pose proof (ensemble_frames_nonempty sel all_data x Hx Hs Hb) as Hef.
    destruct (ensemble_frames_of sel all_data) as [| f fs] eqn:Ef;
      [congruence |].
    destruct (concat_returns (f :: fs)) as (edf & -> & _); [congruence |].
    apply Hfinish. destruct (include_individual sel); discriminate.
  - destruct Hopt as [Hi | Hi]; [| congruence].
    rewrite Hi. apply Hfinish. discriminate.
Qed.

(** *** The column order of the final table *)

Lemma concat_columns (cs : list Col) (frames : list DataFrame)
    (joined : DataFrame) :
  add_columns [] cs = cs -> add_columns cs cs = cs ->
  Forall (fun df => columns df = cs) frames ->
  concat frames = Returned joined ->
  columns joined = cs.
Proof.
  intros H0 H1 Hall. destruct frames as [| df t]; [discriminate |].
  intros H; injection H as <-. simpl.
  pose proof (Forall_inv Hall) as Hdf. simpl in Hdf.
  pose proof (Forall_inv_tail Hall) as Ht.
  rewrite Hdf, H0.
  clear Hall Hdf. induction t as [| df' t' IH]; simpl; [reflexivity |].
  pose proof (Forall_inv Ht) as Hdf'. simpl in Hdf'.
  rewrite Hdf', H1.
  apply IH. exact (Forall_inv_tail Ht).
Qed.

Lemma ensemble_frames_columns (sel : Selection) (all_data : DataFrame) :
  Forall (fun df => columns df = ensemble_columns)
         (ensemble_frames_of sel all_data).
Proof.
  apply Forall_forall. intros df Hdf. unfold ensemble_frames_of in Hdf.
  apply in_flat_map in Hdf as (scn & _ & Hdf).
  apply in_flat_map in Hdf as (b & _ & Hdf).
  destruct (negb (df_empty (scenario_band_subset all_data scn b)));
    [| contradiction].
  destruct Hdf as [<- | []]. reflexivity.
Qed.

(** The final table has the column order of the fetched frames when the
    individual models are included, and the column order of the
    ensemble tables when they are not. *)
Lemma combine_columns (sel : Selection) (frames : list DataFrame)
    (all_data out : DataFrame) :
  Forall (fun df => columns df = std_columns) frames ->
  combine sel frames = Returned (all_data, out) ->
  columns all_data = std_columns /\
  columns out =
    if include_individual sel then std_columns else ensemble_columns.
Proof.
  intros Hstd. unfold combine.
  destruct (concat frames) as [| joined] eqn:Hjoin; [discriminate |].
  cbv zeta.
  assert (Hcols : columns (sort_values joined) = std_columns).
  { unfold sort_values; simpl.
    apply (concat_columns std_columns frames joined); auto. }
  set (all_data0 := sort_values joined) in *. clearbody all_data0.
  assert (Hout : forall fs cs,
            columns
              (mkFrame (fold_left add_columns (map columns fs) []) []) = cs ->
            fs <> [] ->
            match concat fs with
            | Raised => Raised
            | Returned out0 => Returned (all_data0, sort_values out0)
            end = Returned (all_data, out) ->
            columns all_data = std_columns /\ columns out = cs).
  { intros fs cs Hfs Hne. destruct fs as [| f t]; [congruence |].
    intros H; injection H as <- <-. split; [exact Hcols |].
    exact Hfs. }
  destruct (include_ensemble sel && (1 <? length (sel_models sel))%nat).
  - pose proof (ensemble_frames_columns sel all_data0) as Hens.
    destruct (ensemble_frames_of sel all_data0) as [| f fs] eqn:Ef.
    + destruct (include_individual sel).
      * apply Hout; [simpl; rewrite Hcols; reflexivity | discriminate].
      * discriminate.
    + destruct (concat (f :: fs)) as [| edf] eqn:Hedf; [discriminate |].
      assert (columns edf = ensemble_columns) as Hec
          by (apply (concat_columns ensemble_columns (f :: fs) edf); auto).
      destruct (include_individual sel).
      * apply Hout; [| discriminate].
        simpl. rewrite Hcols, Hec. reflexivity.
      * apply Hout; [| discriminate].
        simpl. rewrite Hec. reflexivity.
  - destruct (include_individual sel).
    + apply Hout; [simpl; rewrite Hcols; reflexivity | discriminate].
    + discriminate.
Qed.

(** C9. When the sweep has run to its end and collected at least one
    frame, [main] produces the table of all models and the final table,
    and both are sorted by variable, then model, then scenario, then
    date (each row is in order with every later row); the final table
    includes the ensemble records when they were requested. *)
Theorem final_tables_sorted (ee : EarthEngine) (lat lon : Q)
    (sel : Selection) (ranges : list (string * string)) (st : Sweep) :
  validation sel = None ->
  date_ranges_of (decades sel) = Returned ranges ->
  sweep ee lat lon sel ranges no_sweep = (Returned tt, st) ->
  all_frames st <> [] ->
  exists all_data out,
    run_main ee lat lon sel = (Returned (Fetched all_data out), st) /\
    StronglySorted tidy_le (rows all_data) /\ StronglySorted tidy_le (rows out).
Proof.
  intros Hv Hranges Hsweep Hframes.
  pose proof (validation_passed sel Hv) as (_ & _ & _ & _ & Hopt & Hens).
  assert (Hok : frames_ok sel st).
  { eapply sweep_inv; [| exact Hsweep]. constructor. }
  destruct (combine_returns sel (all_frames st) Hframes Hok Hopt Hens)
    as (all_data & out & Hcombine & Hs1 & Hs2).
  exists all_data, out. split; [| split; assumption].
  unfold run_main, main_fetch. rewrite Hv.
  unfold bind, lift, get_frames. rewrite Hranges, Hsweep.
  destruct (all_frames st) as [| f fs] eqn:Ef; [congruence |].
  rewrite Hcombine. reflexivity.
Qed.

End WithLibrary.

(** *** A concrete run *)

(** A service with one image per model on 2000-01-01: 283.15 K for
    CanESM5 and 293.15 K for every other model. *)
Definition two_model_engine : EarthEngine :=
  fun _ _ _ _ mdl _ =>
    mkCollection (Ok 1%Z) (Ok ["tas"; "pr"])
      (fun _ =>
         Ok [ [CStr "time"; CStr "tas"];
              [CNum 946684800000;
               CNum (if (mdl =? "CanESM5")%string then 283.15 else 293.15)] ]).

Definition sample_selection (individual ensemble : bool) : Selection :=
  mkSelection ["2000s (2000-01-01 to 2009-12-31)"] ["tas"]
              ["GFDL-ESM4"; "CanESM5"] ["historical"] individual ensemble.

Definition sample_run (individual ensemble : bool)
  : outcome RunResult * Sweep :=
  run_main (lib := Reference.library) two_model_engine 48 2
           (sample_selection individual ensemble).

Lemma invalid_selection_aborts_before_fetch_witness :
  exists message st,
    run_main (lib := Reference.library) two_model_engine 48 2
      (mkSelection ["2000s (2000-01-01 to 2009-12-31)"] ["tas"]
                   ["CanESM5"] ["historical"] true true)
    = (Returned (Aborted message), st) /\
    fetch_calls st = [].
Proof.
  apply (invalid_selection_aborts_before_fetch (lib := Reference.library)
           two_model_engine 48 2
           (mkSelection ["2000s (2000-01-01 to 2009-12-31)"] ["tas"]
                        ["CanESM5"] ["historical"] true true)).
  right; right; right; right. split; [reflexivity | simpl; lia].
Defined.

Lemma final_tables_sorted_witness :
  exists all_data out st,
    sample_run true true = (Returned (Fetched all_data out), st) /\
    length (fetch_calls st) = 2%nat /\
    StronglySorted tidy_le (rows all_data) /\ StronglySorted tidy_le (rows out).
Proof.
  set (st := snd (sweep (lib := Reference.library) two_model_engine 48 2
                    (sample_selection true true)
                    [("2000-01-01", "2009-12-31")] no_sweep)).
  destruct (final_tables_sorted (lib := Reference.library) two_model_engine
              48 2 (sample_selection true true)
              [("2000-01-01", "2009-12-31")] st)
    as (all_data & out & Hrun & H1 & H2).
  - reflexivity.
  - reflexivity.
  - vm_compute. reflexivity.
  - vm_compute. discriminate.
  - exists all_data, out, st.
    split; [exact Hrun | split; [vm_compute; reflexivity | split; assumption]].
Defined.

End MainFacts.

Module PackagerFacts.
Import Frames Fetcher Main MainFacts Csv Packager Reader.

Local Open Scope string_scope.

(** The final table of the sample run, for the two output options. *)
Definition sample_out (individual ensemble : bool) : DataFrame :=
  match fst (sample_run individual ensemble) with
  | Returned (Fetched _ out) => out
  | _ => mkFrame [] []
  end.

Definition sample_files (individual ensemble : bool)
  : list (string * string) :=
  download_files (lib := Reference.library) 48 2 "Paris"
    "2025-01-01 00:00:00" (sample_out individual ensemble).

Definition sample_metadata (models_included : list string) : string :=
  create_metadata (lib := Reference.library) 48 2 "Paris"
    "2025-01-01 00:00:00" models_included.

(** For every run without the individual models, the header row of the
    final table names value before band. *)
Lemma ensemble_only_header {lib : Library} (sel : Selection)
    (frames : list DataFrame) (all_data out : DataFrame) :
  Forall (fun df => columns df = std_columns) frames ->
  include_individual sel = false ->
  combine sel frames = Returned (all_data, out) ->
  header_line out = "date,value,band,model,scenario" ++ newline.
Proof.
  intros Hstd Hind Hcombine.
  destruct (combine_columns sel frames all_data out Hstd Hcombine)
    as [_ Hcols].
  rewrite Hind in Hcols. unfold header_line. rewrite Hcols. reflexivity.
Qed.

(** With the individual models the header row is the documented one. *)
Lemma individual_header {lib : Library} (sel : Selection)
    (frames : list DataFrame) (all_data out : DataFrame) :
  Forall (fun df => columns df = std_columns) frames ->
  include_individual sel = true ->
  combine sel frames = Returned (all_data, out) ->
  header_line out = "date,band,value,model,scenario" ++ newline.
Proof.
  intros Hstd Hind Hcombine.
  destruct (combine_columns sel frames all_data out Hstd Hcombine)
    as [_ Hcols].
  rewrite Hind in Hcols. unfold header_line. rewrite Hcols. reflexivity.
Qed.

(** C6. The code at the failing input: two models, the ensemble mean
    requested and the individual models excluded.  Both files then carry
    the header row [date,value,band,model,scenario] and data rows in that
    order, not the documented [date,band,value,model,scenario]; with the
    individual models included the combined file carries the documented
    header. *)
Example ensemble_only_files_swap_columns :
  sample_files false true =
    [ ("ENSEMBLE-MEAN",
       sample_metadata ["ENSEMBLE-MEAN"] ++
       text_of_lines [ "date,value,band,model,scenario";
                       "2000-01-01,15.0,tas,ENSEMBLE-MEAN,historical" ]);
      ("_combined",
       sample_metadata ["ENSEMBLE-MEAN"] ++
       text_of_lines [ "date,value,band,model,scenario";
                       "2000-01-01,15.0,tas,ENSEMBLE-MEAN,historical" ]) ] /\
  header_line (sample_out false true) <>
    "date,band,value,model,scenario" ++ newline /\
  nth_error (sample_files true true) 3 =
    Some ("_combined",
          sample_metadata ["CanESM5"; "ENSEMBLE-MEAN"; "GFDL-ESM4"] ++
          text_of_lines [ "date,band,value,model,scenario";
                          "2000-01-01,tas,10.0,CanESM5,historical";
                          "2000-01-01,tas,15.0,ENSEMBLE-MEAN,historical";
                          "2000-01-01,tas,20.0,GFDL-ESM4,historical" ]).
Proof.
  split; [vm_compute; reflexivity |].
  split; [vm_compute; discriminate | vm_compute; reflexivity].
Qed.

(** C7. The code at the same failing input: the data rows of the
    ensemble-only file, read in the documented order, do not give the
    records back (the value field holds the band), whereas the file with
    the individual models does. *)
Example ensemble_only_file_not_read_back :
  parse_artifact (lib := Reference.library)
    (combined_file (lib := Reference.library) 48 2 "Paris"
       "2025-01-01 00:00:00" (sample_out false true)) = None /\
  rows (sample_out false true) <> [] /\
  exists recs,
    parse_artifact (lib := Reference.library)
      (combined_file (lib := Reference.library) 48 2 "Paris"
         "2025-01-01 00:00:00" (sample_out true true)) = Some recs /\
    Forall2 same_record (rows (sample_out true true)) recs.
Proof.
  split; [vm_compute; reflexivity |].
  split; [vm_compute; discriminate |].
  exists [ mkRow "2000-01-01" "tas" 10.0 "CanESM5" "historical";
           mkRow "2000-01-01" "tas" 15.0 "ENSEMBLE-MEAN" "historical";
           mkRow "2000-01-01" "tas" 20.0 "GFDL-ESM4" "historical" ].
  split; [vm_compute; reflexivity |].
  assert (Hrows : rows (sample_out true true) =
            [ mkRow "2000-01-01" "tas" (283.15 - 273.15)
                    "CanESM5" "historical";
              mkRow "2000-01-01" "tas"
                    (mean [283.15 - 273.15; 293.15 - 273.15])%Q
                    "ENSEMBLE-MEAN" "historical";
              mkRow "2000-01-01" "tas" (293.15 - 273.15)
                    "GFDL-ESM4" "historical" ])
    by (vm_compute; reflexivity).
  rewrite Hrows.
  repeat (apply Forall2_cons;
          [ unfold same_record; cbn [date band value model scenario];
            repeat split; vm_compute; reflexivity |]).
  apply Forall2_nil.
Qed.

End PackagerFacts.

Module ReaderFacts.
Import Frames Csv Packager Reader.

Local Open Scope string_scope.

(** *** Texts and their pieces *)

Lemma append_nil_r (s : string) : s ++ "" = s.
Proof. induction s as [| c t IH]; simpl; [| rewrite IH]; reflexivity. Qed.

Lemma append_assoc (a b c : string) : (a ++ b) ++ c = a ++ (b ++ c).
Proof. induction a as [| x t IH]; simpl; [| rewrite IH]; reflexivity. Qed.

Lemma contains_append (c : ascii) (a b : string) :
  contains c (a ++ b) = contains c a || contains c b.
Proof.
  induction a as [| x t IH]; simpl; [reflexivity |].
  rewrite IH. apply orb_assoc.
Qed.

Lemma split_on_plain (sep : ascii) (a : string) :
  contains sep a = false -> split_on sep a = [a].
Proof.
  induction a as [| x t IH]; simpl; [reflexivity |].
  intros H. apply orb_false_iff in H as [Hx Ht].
  rewrite Hx, (IH Ht). reflexivity.
Qed.

Lemma split_on_append (sep : ascii) (a b : string) :
  contains sep a = false ->
  split_on sep (a ++ String sep b) = a :: split_on sep b.
Proof.
  induction a as [| x t IH]; simpl.
  - intros _. rewrite Ascii.eqb_refl. reflexivity.
  - intros H. apply orb_false_iff in H as [Hx Ht].
    rewrite Hx, (IH Ht). reflexivity.
Qed.

Lemma split_fields (fields : list string) :
  fields <> [] ->
  Forall (fun f => contains COMMA f = false) fields ->
  split_on COMMA (String.concat "," fields) = fields%list.
Proof.
  induction fields as [| f t IH]; [congruence |]. intros _ Hall.
  pose proof (Forall_inv Hall) as Hf. simpl in Hf.
  pose proof (Forall_inv_tail Hall) as Ht.
  destruct t as [| g t'].
  - simpl. apply split_on_plain. exact Hf.
  - change (String.concat "," (f :: g :: t'))
      with (f ++ String COMMA (String.concat "," (g :: t'))).
    rewrite split_on_append by exact Hf.
    rewrite IH; [reflexivity | discriminate | exact Ht].
Qed.

Lemma text_of_lines_cons (l : string) (ls : list string) :
  text_of_lines (l :: ls) = l ++ String LF (text_of_lines ls).
Proof.
  unfold text_of_lines. destruct ls as [| l' ls']; simpl.
  - reflexivity.
  - rewrite append_assoc. reflexivity.
Qed.

Lemma text_of_lines_app (a b : list string) :
  text_of_lines (a ++ b) = text_of_lines a ++ text_of_lines b.
Proof.
  induction a as [| l t IH]; [reflexivity |].
  rewrite <- app_comm_cons, !text_of_lines_cons, IH.
  rewrite append_assoc. reflexivity.
Qed.

Lemma split_lines (lines : list string) :
  Forall (fun l => contains LF l = false) lines ->
  split_on LF (text_of_lines lines) = (lines ++ [""])%list.
Proof.
  induction 1 as [| l t Hl Ht IH]; [reflexivity |].
  rewrite text_of_lines_cons, split_on_append by exact Hl.
  rewrite IH. reflexivity.
Qed.

Lemma concat_newline_text (lines : list string) :
  lines <> [] ->
  String.concat newline lines ++ newline = text_of_lines lines.
Proof.
  induction lines as [| l t IH]; [congruence |]. intros _.
  rewrite text_of_lines_cons. destruct t as [| l' t'].
  - reflexivity.
  - change (String.concat newline (l :: l' :: t'))
      with (l ++ String LF (String.concat newline (l' :: t'))).
    rewrite append_assoc, <- IH by discriminate. reflexivity.
Qed.

Lemma keep_lines (lines : list string) :
  Forall (fun l => is_blank l = false) lines ->
  filter (fun l => negb (is_blank l)) (lines ++ [""]) = lines.
Proof.
  induction 1 as [| l t Hl Ht IH]; [reflexivity |].
  simpl. rewrite Hl. simpl. rewrite IH. reflexivity.
Qed.

Lemma drop_comments_app (meta rest : list string) :
  Forall (fun l => is_comment l = true) meta ->
  drop_comments (meta ++ rest) = drop_comments rest.
Proof.
  induction 1 as [| l t Hl Ht IH]; [reflexivity |].
  simpl. rewrite Hl. exact IH.
Qed.

Lemma plain_no_comma (s : string) : plain s -> contains COMMA s = false.
Proof.
  unfold plain, needs_quoting. induction s as [| c t IH]; simpl;
    [reflexivity |].
  intros H. apply orb_false_iff in H as [Hc Ht].
  unfold special in Hc.
  repeat (apply orb_false_iff in Hc as [Hc ?]).
  rewrite Hc. apply IH. exact Ht.
Qed.

Lemma plain_no_break (s : string) : plain s -> contains LF s = false.
Proof.
  unfold plain, needs_quoting. induction s as [| c t IH]; simpl;
    [reflexivity |].
  intros H. apply orb_false_iff in H as [Hc Ht].
  unfold special in Hc.
  repeat (apply orb_false_iff in Hc as [Hc ?]).
  rewrite IH by exact Ht. rewrite orb_false_r. assumption.
Qed.

Lemma csv_field_plain (s : string) : plain s -> csv_field s = s.
Proof. unfold plain, csv_field. intros ->. reflexivity. Qed.

(** *** The metadata block *)

Definition comment_line (l : string) : Prop :=
  is_comment l = true /\ contains LF l = false.

Lemma digits_no_break (d : Decimal.uint) :
  contains LF (NilEmpty.string_of_uint d) = false.
Proof. induction d; simpl; auto. Qed.

Lemma decimal_of_nat_no_break (n : nat) :
  contains LF (Main.decimal_of_nat n) = false.
Proof.
  unfold Main.decimal_of_nat, NilZero.string_of_uint.
  destruct (Nat.to_uint n); try reflexivity; apply digits_no_break.
Qed.

Ltac comment_line_tac :=
  split;
  [ reflexivity
  | rewrite ?contains_append;
    repeat match goal with
           | H : contains LF _ = false |- _ => rewrite H
           end;
    reflexivity ].

Ltac comment_lines :=
  repeat (apply Forall_cons; [comment_line_tac |]); try apply Forall_nil.

Section WithLibrary.
Context {lib : Library}.

Lemma metadata_models_ok (models_included : list string) :
  Forall (fun m => contains LF m = false) models_included ->
  Forall comment_line (metadata_models models_included).
Proof.
  intros Hm. unfold metadata_models.
  destruct models_included as [| first others]; [constructor |].
  pose proof (Forall_inv Hm) as Hfirst. simpl in Hfirst.
  destruct (str_in ENSEMBLE_MEAN (first :: others)
            && (1 <? length (first :: others))%nat).
  - pose proof (decimal_of_nat_no_break
                  (length (filter (fun m => negb (m =? ENSEMBLE_MEAN))
                                  (first :: others)))) as Hn.
    apply Forall_app. split.
    + comment_lines.
    + apply Forall_app. split.
      * apply Forall_forall. intros l Hl.
        apply in_map_iff in Hl as (m & <- & Hin).
        apply filter_In in Hin as [Hin _].
        pose proof (proj1 (Forall_forall _ _) Hm m Hin) as Hmm.
        simpl in Hmm. comment_line_tac.
      * comment_lines.
  - destruct ((length (first :: others) =? 1)%nat
              && negb (first =? ENSEMBLE_MEAN)).
    + comment_lines.
    + destruct others; [| constructor].
      destruct (first =? ENSEMBLE_MEAN); [| constructor].
      comment_lines.
Qed.

Lemma metadata_lines_ok (lat lon : Q) (location_name now : string)
    (models_included : list string) :
  contains LF (float_repr lat) = false ->
  contains LF (float_repr lon) = false ->
  contains LF location_name = false ->
  contains LF now = false ->
  Forall (fun m => contains LF m = false) models_included ->
  Forall comment_line
         (metadata_lines lat lon location_name now models_included).
Proof.
  intros Hlat Hlon Hloc Hnow Hm. unfold metadata_lines.
  apply Forall_app. split; [| apply Forall_app; split].
  - unfold metadata_head. comment_lines.
  - apply metadata_models_ok. exact Hm.
  - unfold metadata_tail. comment_lines.
Qed.

(** *** The data rows *)

(** The text of the data row of a record in the standard column order,
    when no field needs quotes. *)
Definition record_text (r : Row) : string :=
  String.concat ","
    [date r; band r; float_repr (value r); model r; scenario r].

Lemma data_line_standard (df : DataFrame) (r : Row) :
  columns df = std_columns -> readable_record r ->
  data_line df r = record_text r ++ newline.
Proof.
  intros Hcols (Hd & _ & Hb & Hv & Hm & Hs & _).
  unfold data_line, csv_line, record_text. rewrite Hcols.
  cbn [map std_columns cell_text].
  rewrite !csv_field_plain by assumption. reflexivity.
Qed.

Lemma to_csv_standard (df : DataFrame) :
  columns df = std_columns -> Forall readable_record (rows df) ->
  to_csv df =
    text_of_lines ("date,band,value,model,scenario"
                     :: map record_text (rows df)).
Proof.
  intros Hcols Hrows. unfold to_csv.
  rewrite text_of_lines_cons.
  assert (header_line df =
            "date,band,value,model,scenario" ++ newline) as ->
      by (unfold header_line; rewrite Hcols; reflexivity).
  assert (String.concat "" (map (data_line df) (rows df)) =
            text_of_lines (map record_text (rows df))) as ->.
  { unfold text_of_lines. rewrite map_map. f_equal.
    apply map_ext_in. intros r Hr.
    apply data_line_standard; [exact Hcols |].
    exact (proj1 (Forall_forall _ _) Hrows r Hr). }
  rewrite append_assoc. reflexivity.
Qed.

Lemma record_text_line (r : Row) :
  readable_record r ->
  contains LF (record_text r) = false /\
  is_blank (record_text r) = false /\
  is_comment (record_text r) = false.
Proof.
  intros (Hd & Hc & Hb & Hv & Hm & Hs & _).
  unfold record_text. cbn [String.concat]. repeat split.
  - rewrite !contains_append.
    rewrite (plain_no_break _ Hd), (plain_no_break _ Hb),
      (plain_no_break _ Hv), (plain_no_break _ Hm),
      (plain_no_break _ Hs).
    reflexivity.
  - destruct (date r); reflexivity.
  - destruct (date r); [reflexivity | exact Hc].
Qed.

Lemma parse_record_text (r : Row) :
  readable_record r ->
  exists r', parse_data_row (record_text r) = Some r' /\ same_record r r'.
Proof.
  intros (Hd & _ & Hb & Hv & Hm & Hs & v & Hparse & Hclose).
  exists (mkRow (date r) (band r) v (model r) (scenario r)).
  unfold parse_data_row, record_text.
  rewrite split_fields.
  - rewrite Hparse. split; [reflexivity |].
    unfold same_record; simpl. repeat split; try reflexivity.
    symmetry. exact Hclose.
  - discriminate.
  - repeat constructor; apply plain_no_comma; assumption.
Qed.

Lemma parse_record_texts (rs : list Row) :
  Forall readable_record rs ->
  exists recs,
    parse_data_rows (map record_text rs) = Some recs /\
    Forall2 same_record rs recs.
Proof.
  induction 1 as [| r t Hr Ht (recs & Hrecs & Hsame)]; simpl.
  - exists []. split; [reflexivity | constructor].
  - destruct (parse_record_text r Hr) as (r' & Hr' & Hrr').
    exists (r' :: recs). rewrite Hr', Hrecs.
    split; [reflexivity | constructor; assumption].
Qed.

(** Round trip.  A table in the standard column order whose records are
    readable is recovered from its file: the reader, after the metadata
    block and the header row, gives back one record per row, equal to
    the original up to the precision of the value text. *)
Theorem standard_artifact_round_trip (lat lon : Q)
    (location_name now : string) (models_included : list string)
    (df : DataFrame) :
  columns df = std_columns ->
  contains LF (float_repr lat) = false ->
  contains LF (float_repr lon) = false ->
  contains LF location_name = false ->
  contains LF now = false ->
  Forall (fun m => contains LF m = false) models_included ->
  Forall readable_record (rows df) ->
  exists recs,
    parse_artifact
      (create_metadata lat lon location_name now models_included
         ++ to_csv df) = Some recs /\
    Forall2 same_record (rows df) recs.
Proof.
  intros Hcols Hlat Hlon Hloc Hnow Hmodels Hrows.
  pose proof (metadata_lines_ok lat lon location_name now models_included
                Hlat Hlon Hloc Hnow Hmodels) as Hmeta.
  set (meta := metadata_lines lat lon location_name now models_included)
    in *.
  assert (Hne : meta <> []) by (unfold meta, metadata_lines; discriminate).
  unfold create_metadata. fold meta.
  rewrite (concat_newline_text meta Hne).
  rewrite (to_csv_standard df Hcols Hrows).
  rewrite <- text_of_lines_app.
  set (header := "date,band,value,model,scenario").
  set (data := map record_text (rows df)).
  assert (Hdata : Forall (fun l => contains LF l = false /\
                                   is_blank l = false /\
                                   is_comment l = false) data).
  { unfold data. apply Forall_forall. intros l Hl.
    apply in_map_iff in Hl as (r & <- & Hr).
    apply record_text_line.
    exact (proj1 (Forall_forall _ _) Hrows r Hr). }
  unfold parse_artifact.
  rewrite split_lines.
  - rewrite keep_lines.
    + rewrite drop_comments_app
        by (eapply Forall_impl; [| exact Hmeta];
            intros l Hl; exact (proj1 Hl)).
      cbn [drop_comments is_comment header Ascii.eqb].
      change (drop_comments (header :: data)) with (header :: data).
      apply parse_record_texts. exact Hrows.
    + apply Forall_app. split.
      * eapply Forall_impl; [| exact Hmeta].
        intros l [Hl _]. destruct l; [discriminate | reflexivity].
      * constructor; [reflexivity |].
        eapply Forall_impl; [| exact Hdata].
        intros l (_ & Hl & _). exact Hl.
  - apply Forall_app. split.
    + eapply Forall_impl; [| exact Hmeta]. intros l Hl; exact (proj2 Hl).
    + constructor; [reflexivity |].
      eapply Forall_impl; [| exact Hdata].
      intros l (Hl & _). exact Hl.
Qed.

End WithLibrary.

Lemma standard_artifact_round_trip_witness :
  exists recs,
    parse_artifact (lib := Reference.library)
      (combined_file (lib := Reference.library) 48 2 "Paris"
         "2025-01-01 00:00:00" (PackagerFacts.sample_out true true))
    = Some recs /\
    Forall2 same_record (rows (PackagerFacts.sample_out true true)) recs.
Proof.
  apply (standard_artifact_round_trip (lib := Reference.library) 48 2
           "Paris" "2025-01-01 00:00:00"
           (unique_models (PackagerFacts.sample_out true true))
           (PackagerFacts.sample_out true true)).
  - vm_compute. reflexivity.
  - vm_compute. reflexivity.
  - vm_compute. reflexivity.
  - reflexivity.
  - reflexivity.
  - vm_compute. repeat constructor.
  - assert (Hrec : forall d b (q : Q) m s v,
              plain d -> is_comment d = false -> plain b ->
              plain (Reference.float_repr q) -> plain m -> plain s ->
              Reference.float_of_str (Reference.float_repr q) = Some v ->
              (v == q)%Q ->
              readable_record (lib := Reference.library) (mkRow d b q m s)).
    { intros d b q m s v H1 H2 H3 H4 H5 H6 H7 H8.
      unfold readable_record; simpl. repeat split; try assumption.
      exists v. split; assumption. }
    assert (Hrows : rows (PackagerFacts.sample_out true true) =
              [ mkRow "2000-01-01" "tas" (283.15 - 273.15)
                      "CanESM5" "historical";
                mkRow "2000-01-01" "tas"
                      (mean [283.15 - 273.15; 293.15 - 273.15])%Q
                      "ENSEMBLE-MEAN" "historical";
                mkRow "2000-01-01" "tas" (293.15 - 273.15)
                      "GFDL-ESM4" "historical" ])
      by (vm_compute; reflexivity).
    rewrite Hrows.
    apply Forall_cons;
      [apply (Hrec _ _ _ _ _ 10.0%Q); vm_compute; reflexivity |].
    apply Forall_cons;
      [apply (Hrec _ _ _ _ _ 15.0%Q); vm_compute; reflexivity |].
    apply Forall_cons;
      [apply (Hrec _ _ _ _ _ 20.0%Q); vm_compute; reflexivity |].
    apply Forall_nil.
Defined.

End ReaderFacts.

(* ================================================================== *)
(** * Part III: further properties of the code                         *)
(* ================================================================== *)

Module SidebarFacts.
Import PyStr Sidebar Reader ReaderFacts.

Local Open Scope string_scope.

(** *** Pieces of a text *)

Lemma split_on_two_pieces (sep : ascii) (x y : string) :
  exists p q qs, split_on sep (x ++ String sep y) = (p :: q :: qs)%list.
Proof.
  induction x as [| c x' (p & q & qs & IH)]; simpl.
  - rewrite Ascii.eqb_refl.
    destruct (split_on sep y) as [| q qs] eqn:E.
    + destruct y; simpl in E; [discriminate |].
      destruct (Ascii.eqb a sep); [discriminate |].
      destruct (split_on sep y); discriminate.
    + exists "", q, qs. reflexivity.
  - rewrite IH. destruct (Ascii.eqb c sep).
    + exists "", p, (q :: qs)%list. reflexivity.
    + exists (String c p), q, qs. reflexivity.
Qed.

Lemma last_piece_append (sep : ascii) (x y : string) :
  last_piece sep (x ++ String sep y) = last_piece sep y.
Proof.
  unfold last_piece. induction x as [| c x' IH].
  - simpl. rewrite Ascii.eqb_refl.
    destruct (split_on_two_pieces sep "" y) as (p & q & qs & E).
    simpl in E. rewrite Ascii.eqb_refl in E. injection E as _ E.
    rewrite E. reflexivity.
  - destruct (split_on_two_pieces sep x' y) as (p & q & qs & E).
    simpl. rewrite E in *. destruct (Ascii.eqb c sep); exact IH.
Qed.

Lemma rstrip_append (c : ascii) (s : string) :
  rstrip c (s ++ String c "") = rstrip c s.
Proof.
  induction s as [| a t IH]; simpl.
  - rewrite Ascii.eqb_refl. reflexivity.
  - rewrite IH. reflexivity.
Qed.

Lemma prefix_append (u v : string) : String.prefix u (u ++ v) = true.
Proof.
  induction u as [| x u' IH]; simpl.
  - destruct v; reflexivity.
  - destruct (ascii_dec x x); [exact IH | congruence].
Qed.

Lemma before_first_append (c : ascii) (sep m rest : string) :
  contains c m = false ->
  before_first (String c sep) (m ++ String c (sep ++ rest)) = m.
Proof.
  induction m as [| a t IH]; intros Hm.
  - cbn [append before_first].
    change (String c (sep ++ rest)) with (String c sep ++ rest).
    rewrite prefix_append. reflexivity.
  - simpl in Hm. apply orb_false_iff in Hm as [Ha Ht].
    cbn [append before_first String.prefix].
    destruct (ascii_dec c a) as [-> | _].
    + rewrite Ascii.eqb_refl in Ha. discriminate.
    + rewrite (IH Ht). reflexivity.
Qed.

(** *** Options and what is read back from them *)

Lemma map_outcome_inverse {A B : Type} (f : A -> outcome B) (g : B -> A)
    (chosen : list A) :
  (forall x, In x chosen -> exists v, f x = Returned v /\ g v = x) ->
  exists vs, map_outcome f chosen = Returned vs /\ map g vs = chosen.
Proof.
  induction chosen as [| x t IH]; intros H; simpl.
  - exists []%list. split; reflexivity.
  - destruct (H x (or_introl eq_refl)) as (v & Hf & Hg).
    destruct IH as (vs & Hvs & Hmap);
      [intros y Hy; apply H; right; exact Hy |].
    exists (v :: vs)%list. rewrite Hf, Hvs. simpl. rewrite Hg, Hmap.
    split; reflexivity.
Qed.

Lemma band_option_text (name b : string) :
  contains "("%char b = false -> rstrip ")"%char b = b ->
  band_of_option (name ++ " (" ++ b ++ ")") = b.
Proof.
  intros Hopen Hclose. unfold band_of_option.
  replace (name ++ " (" ++ b ++ ")")
    with ((name ++ " ") ++ String "("%char (b ++ ")"))
    by (rewrite append_assoc; reflexivity).
  rewrite last_piece_append. unfold last_piece.
  rewrite split_on_plain
    by (rewrite contains_append, Hopen; reflexivity).
  cbn [last]. rewrite rstrip_append. exact Hclose.
Qed.

(** X1. The band read back from a variable option (line 448) is the band
    the option was built from (line 437), whatever the display name,
    parentheses included, as long as the band holds no opening parenthesis
    and does not end with a closing one; and for every choice among the
    documented bands, the options built from [BAND_NAMES] give back
    exactly the chosen bands, in order. *)
Theorem selected_bands_recovered :
  (forall name b,
     contains "("%char b = false -> rstrip ")"%char b = b ->
     band_of_option (name ++ " (" ++ b ++ ")") = b) /\
  (forall chosen,
     incl chosen AVAILABLE_BANDS ->
     exists options,
       map_outcome band_option chosen = Returned options /\
       map band_of_option options = chosen).
Proof.
  split; [exact band_option_text |].
  intros chosen Hincl. apply map_outcome_inverse.
  intros b Hb. apply Hincl in Hb. unfold band_option.
  simpl in Hb.
  repeat (destruct Hb as [<- | Hb];
          [eexists; split; [reflexivity | apply band_option_text; reflexivity]
          |]).
  contradiction.
Qed.

Lemma selected_bands_recovered_witness :
  band_of_option "Rain (24 h) (pr)" = "pr" /\
  exists options,
    map_outcome band_option ["pr"; "tasmax"]%list = Returned options /\
    map band_of_option options = ["pr"; "tasmax"]%list.
Proof.
  split.
  - apply (proj1 selected_bands_recovered "Rain (24 h)" "pr"); reflexivity.
  - apply (proj2 selected_bands_recovered ["pr"; "tasmax"]%list).
    intros x [<- | [<- | []]]; simpl; auto 10.
Defined.

Lemma model_option_text (m info : string) :
  contains " "%char m = false ->
  model_of_option (m ++ " - " ++ info) = m.
Proof.
  intros Hm. unfold model_of_option.
  exact (before_first_append " "%char "- " m info Hm).
Qed.

(** X2. The model read back from a model option (line 478) is the model
    the option was built from (line 460) whenever the model holds no
    space, whatever its description; and for every choice among the known
    models, the options built from [MODEL_INFO] give back exactly the
    chosen models, in order. *)
Theorem selected_models_recovered :
  (forall m info,
     contains " "%char m = false ->
     model_of_option (m ++ " - " ++ info) = m) /\
  (forall chosen,
     incl chosen KNOWN_MODELS ->
     exists options,
       model_options chosen = Returned options /\
       map model_of_option options = chosen).
Proof.
  split; [exact model_option_text |].
  intros chosen Hincl. apply map_outcome_inverse.
  intros m Hm. apply Hincl in Hm. unfold model_option.
  simpl in Hm.
  repeat (destruct Hm as [<- | Hm];
          [eexists; split; [reflexivity | apply model_option_text; reflexivity]
          |]).
  contradiction.
Qed.

Lemma selected_models_recovered_witness :
  model_of_option "ACCESS-ESM1-5 - a model - with dashes" = "ACCESS-ESM1-5" /\
  exists options,
    model_options ["UKESM1-0-LL"; "CanESM5"]%list = Returned options /\
    map model_of_option options = ["UKESM1-0-LL"; "CanESM5"]%list.
Proof.
  split.
  - apply (proj1 selected_models_recovered "ACCESS-ESM1-5"
             "a model - with dashes"); reflexivity.
  - apply (proj2 selected_models_recovered ["UKESM1-0-LL"; "CanESM5"]%list).
    intros x [<- | [<- | []]]; simpl; auto 12.
Defined.

(** *** The scenario dictionary *)

Lemma dict_get_set_same {V : Type} (d : list (string * V)) (k : string)
    (v : V) :
  Main.dict_get (dict_set d k v) k = Returned v.
Proof.
  induction d as [| [k' v'] t IH]; simpl.
  - rewrite String.eqb_refl. reflexivity.
  - destruct (String.eqb_spec k' k) as [-> | Hne]; simpl.
    + rewrite String.eqb_refl. reflexivity.
    + apply String.eqb_neq in Hne. rewrite Hne. exact IH.
Qed.

Lemma dict_get_set_other {V : Type} (d : list (string * V)) (k k' : string)
    (v : V) :
  k' <> k -> Main.dict_get (dict_set d k v) k' = Main.dict_get d k'.
Proof.
  intros Hne. induction d as [| [k0 v0] t IH]; simpl.
  - destruct (String.eqb_spec k k'); [congruence | reflexivity].
  - destruct (String.eqb_spec k0 k) as [-> | Hk0]; simpl.
    + destruct (String.eqb_spec k k'); [congruence | reflexivity].
    + destruct (k0 =? k'); [reflexivity | exact IH].
Qed.

Lemma mapping_keeps (l : list string) (d : list (string * string))
    (k : string) :
  ~ In k (map scenario_label l) ->
  Main.dict_get
    (fold_left (fun d s => dict_set d (scenario_label s) s) l d) k =
  Main.dict_get d k.
Proof.
  revert d. induction l as [| s t IH]; intros d Hk; simpl; [reflexivity |].
  simpl in Hk. rewrite IH by tauto.
  apply dict_get_set_other. intros ->. tauto.
Qed.

Lemma mapping_finds (l : list string) (d : list (string * string))
    (s : string) :
  NoDup (map scenario_label l) -> In s l ->
  Main.dict_get
    (fold_left (fun d s => dict_set d (scenario_label s) s) l d)
    (scenario_label s) = Returned s.
Proof.
  revert d. induction l as [| s0 t IH]; intros d Hnd Hin; [contradiction |].
  simpl in *. inversion Hnd as [| ? ? Hs0 Ht]; subst.
  destruct Hin as [-> | Hin].
  - rewrite mapping_keeps by exact Hs0. apply dict_get_set_same.
  - apply IH; assumption.
Qed.

Lemma NoDup_labels_filter (p : string -> bool) (l : list string) :
  NoDup (map scenario_label l) -> NoDup (map scenario_label (filter p l)).
Proof.
  induction l as [| x t IH]; simpl; intros Hnd; [constructor |].
  inversion Hnd as [| ? ? Hx Ht]; subst.
  destruct (p x); simpl; [constructor |]; auto.
  intros Hin. apply Hx. apply in_map_iff in Hin as (y & Hy & Hin).
  apply in_map_iff. exists y. split; [exact Hy |].
  apply filter_In in Hin. tauto.
Qed.

Lemma available_is_sublist (scenarios decades available : list string) :
  available_scenarios scenarios decades = Returned available ->
  available = scenarios \/ exists p, available = filter p scenarios.
Proof.
  unfold available_scenarios.
  destruct (decade_flags decades false false) as [| [h f]]; [discriminate |].
  destruct decades; intros H; injection H as <-; [left | right]; eauto.
Qed.

(** X3. The scenarios read back from the selected labels (lines 558-559)
    are the scenarios those labels stand for: when the labels of the
    available scenarios are pairwise distinct, every choice among them is
    recovered, in order.  The labels of the known scenarios are distinct,
    so this holds for every list of scenarios that the sidebar offers. *)
Theorem selected_scenarios_recovered :
  (forall available chosen,
     NoDup (map scenario_label available) -> incl chosen available ->
     sel_scen_of available (map scenario_label chosen) = Returned chosen) /\
  (forall decades available chosen,
     available_scenarios KNOWN_SCENARIOS decades = Returned available ->
     incl chosen available ->
     sel_scen_of available (map scenario_label chosen) = Returned chosen).
Proof.
  assert (Hgen : forall available chosen,
            NoDup (map scenario_label available) -> incl chosen available ->
            sel_scen_of available (map scenario_label chosen)
              = Returned chosen).
  { intros available chosen Hnd Hincl. unfold sel_scen_of, scenario_mapping.
    induction chosen as [| s t IH]; simpl; [reflexivity |].
    rewrite mapping_finds;
      [| exact Hnd | apply Hincl; left; reflexivity].
    rewrite IH; [reflexivity |].
    intros x Hx. apply Hincl. right. exact Hx. }
  split; [exact Hgen |].
  intros decades available chosen Havail Hincl.
  apply Hgen; [| exact Hincl].
  assert (Hknown : NoDup (map scenario_label KNOWN_SCENARIOS)).
  { simpl. repeat constructor; simpl; intuition discriminate. }
  destruct (available_is_sublist _ _ _ Havail) as [-> | (p & ->)].
  - exact Hknown.
  - apply NoDup_labels_filter. exact Hknown.
Qed.

Lemma selected_scenarios_recovered_witness :
  available_scenarios KNOWN_SCENARIOS
    ["2020s (2020-01-01 to 2029-12-31)"]%list
    = Returned ["ssp245"; "ssp585"]%list /\
  sel_scen_of ["ssp245"; "ssp585"]%list
    (map scenario_label ["ssp585"]%list) = Returned ["ssp585"]%list.
Proof.
  split; [reflexivity |].
  apply (proj2 selected_scenarios_recovered
           ["2020s (2020-01-01 to 2029-12-31)"]%list
           ["ssp245"; "ssp585"]%list ["ssp585"]%list).
  - reflexivity.
  - intros x [<- | []]. right; left; reflexivity.
Defined.

(** *** Offered scenarios and the clamper *)

(** The clamper returns a pair of dates for the range. *)
Definition clamps_to_pair (range : string * string) (scenario : string)
  : bool :=
  match Dates.clamp_dates_for_scenario (fst range) (snd range) scenario with
  | Returned (Some _) => true
  | _ => false
  end.

Definition decade_range (d : string) : string * string :=
  match Main.dict_get Main.DECADES d with
  | Returned range => range
  | Raised => ("", "")
  end.

Lemma clamp_other_scenario (a b s : string) :
  s <> "historical" ->
  Dates.clamp_dates_for_scenario a b s =
  Dates.clamp_dates_for_scenario a b "ssp245".
Proof.
  intros Hs. unfold Dates.clamp_dates_for_scenario.
  apply String.eqb_neq in Hs. rewrite Hs. reflexivity.
Qed.

Lemma decade_start_year (d : string) :
  In d SweepSpec.decade_labels ->
  exists y,
    py_int (before_first "s" d) = Returned y /\
    Main.dict_get Main.DECADES d = Returned (decade_range d) /\
    (y <=? 2010)%Z = clamps_to_pair (decade_range d) "historical" /\
    (2010 <=? y)%Z = clamps_to_pair (decade_range d) "ssp245".
Proof.
  intros Hd. cbv in Hd.
  repeat (destruct Hd as [<- | Hd];
          [eexists; repeat split; vm_compute; reflexivity |]).
  contradiction.
Qed.

Lemma decade_flags_spec (decades : list string) (h f : bool) :
  incl decades SweepSpec.decade_labels ->
  decade_flags decades h f =
    Returned
      (h || existsb (fun d => clamps_to_pair (decade_range d) "historical")
                    decades,
       f || existsb (fun d => clamps_to_pair (decade_range d) "ssp245")
                    decades).
Proof.
  revert h f. induction decades as [| d t IH]; intros h f Hincl; simpl.
  - rewrite !orb_false_r. reflexivity.
  - destruct (decade_start_year d) as (y & -> & _ & Hh & Hf);
      [apply Hincl; left; reflexivity |].
    rewrite IH by (intros x Hx; apply Hincl; right; exact Hx).
    rewrite Hh, Hf, !orb_assoc. reflexivity.
Qed.

(** X4. The scenarios that the sidebar offers for a non-empty choice of
    decades (lines 505-527) are exactly the scenarios for which the
    clamper (lines 582-594) returns a range for at least one chosen
    decade: no offered scenario is skipped for every decade, and no
    scenario left out would have been fetched. *)
Theorem offered_scenarios_match_clamp (scenarios decades : list string) :
  decades <> []%list -> incl decades SweepSpec.decade_labels ->
  exists available,
    available_scenarios scenarios decades = Returned available /\
    forall s,
      In s available <->
      In s scenarios /\
      exists d a b p,
        In d decades /\
        Main.dict_get Main.DECADES d = Returned (a, b) /\
        Dates.clamp_dates_for_scenario a b s = Returned (Some p).
Proof.
  intros Hne Hincl. unfold available_scenarios.
  rewrite (decade_flags_spec decades false false Hincl). cbn [orb].
  destruct decades as [| d0 t] eqn:Hd; [congruence |]. rewrite <- Hd in *.
  eexists. split; [reflexivity |].
  assert (Hpair : forall s,
            (if s =? "historical"
             then existsb (fun d => clamps_to_pair (decade_range d)
                                      "historical") decades
             else existsb (fun d => clamps_to_pair (decade_range d)
                                      "ssp245") decades) = true <->
            exists d a b p,
              In d decades /\
              Main.dict_get Main.DECADES d = Returned (a, b) /\
              Dates.clamp_dates_for_scenario a b s = Returned (Some p)).
  { intros s.
    assert (Hone : forall d, In d decades ->
              (clamps_to_pair (decade_range d)
                 (if s =? "historical" then "historical" else "ssp245")
               = true <->
               exists a b p,
                 Main.dict_get Main.DECADES d = Returned (a, b) /\
                 Dates.clamp_dates_for_scenario a b s = Returned (Some p))).
    { intros d Hin.
      destruct (decade_start_year d (Hincl d Hin)) as (y & _ & Hget & _).
      assert (Hs : Dates.clamp_dates_for_scenario
                     (fst (decade_range d)) (snd (decade_range d)) s =
                   Dates.clamp_dates_for_scenario
                     (fst (decade_range d)) (snd (decade_range d))
                     (if s =? "historical" then "historical" else "ssp245")).
      { destruct (String.eqb_spec s "historical") as [-> | Hs];
          [reflexivity | apply clamp_other_scenario; exact Hs]. }
      unfold clamps_to_pair. rewrite <- Hs. split.
      - intros Hc.
        destruct (Dates.clamp_dates_for_scenario (fst (decade_range d))
                    (snd (decade_range d)) s) as [| [p |]] eqn:E;
          try discriminate.
        exists (fst (decade_range d)), (snd (decade_range d)), p.
        rewrite <- surjective_pairing. split; assumption.
      - intros (a & b & p & Hab & Hc).
        rewrite Hget in Hab. injection Hab as Hab. rewrite Hab. simpl.
        rewrite Hc. reflexivity. }
    destruct (s =? "historical"); rewrite existsb_exists; split.
    - intros (d & Hin & Hc). apply (Hone d Hin) in Hc as (a & b & p & H).
      exists d, a, b, p. tauto.
    - intros (d & a & b & p & Hin & H). exists d. split; [exact Hin |].
      apply (Hone d Hin). exists a, b, p. exact H.
    - intros (d & Hin & Hc). apply (Hone d Hin) in Hc as (a & b & p & H).
      exists d, a, b, p. tauto.
    - intros (d & a & b & p & Hin & H). exists d. split; [exact Hin |].
      apply (Hone d Hin). exists a, b, p. exact H. }
  intros s. rewrite filter_In, Hpair. reflexivity.
Qed.

Lemma offered_scenarios_match_clamp_witness :
  exists available,
    available_scenarios KNOWN_SCENARIOS
      ["2000s (2000-01-01 to 2009-12-31)"]%list = Returned available /\
    forall s,
      In s available <->
      In s KNOWN_SCENARIOS /\
      exists d a b p,
        In d ["2000s (2000-01-01 to 2009-12-31)"]%list /\
        Main.dict_get Main.DECADES d = Returned (a, b) /\
        Dates.clamp_dates_for_scenario a b s = Returned (Some p).
Proof.
  apply (offered_scenarios_match_clamp KNOWN_SCENARIOS
           ["2000s (2000-01-01 to 2009-12-31)"]%list).
  - discriminate.
  - intros x [<- | []]. cbv. auto 20.
Defined.

(** *** Defaults *)

Lemma firstn_in (n : nat) (l : list string) (x : string) :
  In x (firstn n l) -> In x l.
Proof.
  revert l. induction n as [| n IH]; intros [| a t]; simpl; try tauto.
  intros [-> | H]; [left; reflexivity | right; apply IH; exact H].
Qed.

Lemma str_in_spec (x : string) (xs : list string) :
  str_in x xs = true -> In x xs.
Proof.
  unfold str_in. rewrite existsb_exists.
  intros (y & Hy & E). apply String.eqb_eq in E. subst. exact Hy.
Qed.

Lemma default_model_list_incl (models : list string) :
  incl (default_model_list models) models.
Proof.
  intros m. unfold default_model_list.
  destruct (filter (fun m0 => str_in m0 models) DEFAULT_MODELS)
    as [| found rest] eqn:E.
  - destruct (5 <=? length models)%nat; [apply firstn_in | auto].
  - rewrite <- E. intros Hm. apply filter_In in Hm as [_ Hm].
    apply str_in_spec. exact Hm.
Qed.

Lemma default_scen_keys_incl (available : list string) :
  incl (default_scen_keys available) available.
Proof.
  intros s. unfold default_scen_keys.
  destruct (str_in "historical" available) eqn:Hh;
    destruct (str_in "ssp245" available) eqn:Hs; cbn [andb].
  - intros [<- | [<- | []]]; apply str_in_spec; assumption.
  - intros [<- | []]; apply str_in_spec; assumption.
  - intros [<- | []]; apply str_in_spec; assumption.
  - destruct available as [| a t]; [intros [] |].
    apply firstn_in.
Qed.

Lemma map_outcome_in {A B : Type} (f : A -> outcome B) (xs : list A)
    (ys : list B) :
  map_outcome f xs = Returned ys ->
  (forall x, In x xs -> exists y, f x = Returned y /\ In y ys) /\
  (forall y, In y ys -> exists x, In x xs /\ f x = Returned y).
Proof.
  revert ys. induction xs as [| x t IH]; intros ys; simpl.
  - intros H; injection H as <-. split; intros ? [].
  - destruct (f x) as [| y] eqn:Ex; [discriminate |].
    destruct (map_outcome f t) as [| ys'] eqn:Et; [discriminate |].
    intros H; injection H as <-.
    destruct (IH ys' eq_refl) as [IH1 IH2]. split.
    + intros x' [<- | Hx'].
      * exists y. split; [exact Ex | left; reflexivity].
      * destruct (IH1 x' Hx') as (y' & Hy' & Hin).
        exists y'. split; [exact Hy' | right; exact Hin].
    + intros y' [<- | Hy'].
      * exists x. split; [left; reflexivity | exact Ex].
      * destruct (IH2 y' Hy') as (x' & Hx' & Hfx').
        exists x'. split; [right; exact Hx' | exact Hfx'].
Qed.

Lemma map_outcome_returns {A B : Type} (f : A -> outcome B) (xs : list A) :
  (forall x, In x xs -> exists y, f x = Returned y) ->
  exists ys, map_outcome f xs = Returned ys.
Proof.
  induction xs as [| x t IH]; intros Hall; simpl.
  - exists []. reflexivity.
  - destruct (Hall x (or_introl eq_refl)) as (y & ->).
    destruct IH as (ys & ->);
      [intros x' Hx'; apply Hall; right; exact Hx' |].
    exists (y :: ys). reflexivity.
Qed.

(** X5. The defaults handed to the model selector and to the scenario
    selector are always among the options of that selector, for every
    list of models and every list of available scenarios: once the model
    options have been built, building the default options does not raise
    and gives only options; the default scenarios are labels of available
    scenarios. *)
Theorem defaults_are_offered (models available : list string)
    (options : list string) :
  model_options models = Returned options ->
  (exists defaults,
     default_models models = Returned defaults /\
     incl defaults options) /\
  incl (default_scen_keys available) available /\
  incl (default_scenarios available) (scenario_options available).
Proof.
  intros Hopts. unfold model_options in Hopts.
  apply map_outcome_in in Hopts as [Hopt1 Hopt2].
  split; [| split].
  - unfold default_models.
    destruct (map_outcome_returns model_option (default_model_list models))
      as (defaults & Hdefaults).
    { intros m Hm. apply default_model_list_incl in Hm.
      destruct (Hopt1 m Hm) as (y & Hy & _). exists y. exact Hy. }
    exists defaults. split; [exact Hdefaults |].
    intros y Hy.
    apply map_outcome_in in Hdefaults as [_ Hback].
    destruct (Hback y Hy) as (m & Hm & Hfm).
    apply default_model_list_incl in Hm.
    destruct (Hopt1 m Hm) as (y' & Hy' & Hin).
    congruence.
  - apply default_scen_keys_incl.
  - unfold default_scenarios, scenario_options. intros l Hl.
    apply in_map_iff in Hl as (s & <- & Hs).
    apply in_map, default_scen_keys_incl. exact Hs.
Qed.

Lemma defaults_are_offered_witness :
  exists options defaults,
    model_options KNOWN_MODELS = Returned options /\
    default_models KNOWN_MODELS = Returned defaults /\
    length defaults = 5%nat /\
    incl defaults options /\
    incl (default_scenarios ["ssp585"]%list)
         (scenario_options ["ssp585"]%list).
Proof.
  set (options := match model_options KNOWN_MODELS with
                  | Returned l => l
                  | Raised => []%list
                  end).
  destruct (defaults_are_offered KNOWN_MODELS ["ssp585"]%list options)
    as ((defaults & Hdefaults & Hincl) & _ & Hscen).
  - vm_compute. reflexivity.
  - exists options, defaults.
    split; [vm_compute; reflexivity |].
    split; [exact Hdefaults |].
    split; [| split; [exact Hincl | exact Hscen]].
    pose proof Hdefaults as E. vm_compute in E.
    injection E as <-. reflexivity.
Defined.

End SidebarFacts.

Module SweepFacts.
Import Frames Dates DatesFacts Fetcher Main MainFacts SweepSpec.

(** The clamper's pair, without reference to the requested dates. *)
Lemma clamp_pair_in_window (s e scenario s' e' : string) :
  clamp_dates_for_scenario s e scenario = Returned (Some (s', e')) ->
  exists a b,
    to_datetime s' = Some a /\ to_datetime e' = Some b /\ ts_le a b /\
    in_window (fst (valid_window scenario)) (snd (valid_window scenario)) a /\
    in_window (fst (valid_window scenario)) (snd (valid_window scenario)) b.
Proof.
  intros Hc.
  destruct (to_datetime s) as [sd |] eqn:Hs;
    [| unfold clamp_dates_for_scenario in Hc; rewrite Hs in Hc; discriminate].
  destruct (to_datetime e) as [ed |] eqn:He;
    [| unfold clamp_dates_for_scenario in Hc; rewrite Hs, He in Hc;
       discriminate].
  rewrite (clamp_parsed s e scenario sd ed Hs He) in Hc. cbv zeta in Hc.
  destruct (valid_window_valid scenario) as [Vlo Vhi].
  set (lo := fst (valid_window scenario)) in *.
  set (hi := snd (valid_window scenario)) in *.
  destruct (ts_gtb (py_max sd lo) (py_min ed hi)) eqn:Hgt; [discriminate |].
  injection Hc as <- <-.
  pose proof (to_datetime_valid _ _ Hs) as Vs.
  pose proof (to_datetime_valid _ _ He) as Ve.
  assert (Hab : ts_le (py_max sd lo) (py_min ed hi)) by exact Hgt.
  assert (Hlo : ts_le lo (py_max sd lo))
    by (apply (proj1 (py_max_lub sd lo _) (ts_le_refl _))).
  assert (Hhi : ts_le (py_min ed hi) hi)
    by (apply (proj1 (py_min_glb ed hi _) (ts_le_refl _))).
  exists (py_max sd lo), (py_min ed hi).
  split; [apply to_datetime_strftime, py_max_valid; assumption |].
  split; [apply to_datetime_strftime, py_min_valid; assumption |].
  split; [exact Hab |].
  split; split; eauto using ts_le_trans.
Qed.

Section WithLibrary.
Context {lib : Library}.

(** *** Loops that run to their end *)

Lemma for_each_returned {A : Type} (body : A -> M unit)
    (R : list A -> Sweep -> Sweep -> Prop) :
  (forall st, R [] st st) ->
  (forall x t st st1 st2,
     body x st = (Returned tt, st1) -> R t st1 st2 -> R (x :: t) st st2) ->
  forall xs st st',
    for_each xs body st = (Returned tt, st') -> R xs st st'.
Proof.
  intros Hnil Hcons xs. induction xs as [| x t IH]; intros st st'; simpl.
  - unfold ret. intros H; injection H as <-. apply Hnil.
  - unfold bind. destruct (body x st) as [[| []] st1] eqn:E;
      [discriminate |].
    intros H. eapply Hcons; [exact E | apply IH; exact H].
Qed.

Lemma for_each_returns {A : Type} (body : A -> M unit) (xs : list A) :
  (forall x st, In x xs -> exists st', body x st = (Returned tt, st')) ->
  forall st, exists st', for_each xs body st = (Returned tt, st').
Proof.
  induction xs as [| x t IH]; intros Hbody st; simpl.
  - exists st. reflexivity.
  - destruct (Hbody x st (or_introl eq_refl)) as (st1 & E).
    unfold bind. rewrite E. apply IH.
    intros y st0 Hy. apply Hbody. right. exact Hy.
Qed.

(** *** The effect of the sweep on its state *)

(** From [st] to [st']: the invocations [cs] were recorded, each gave a
    frame or a log entry, and the ranges [sk] were skipped. *)
Definition advanced (cs : list FetchCall) (sk : list LogEntry)
    (st st' : Sweep) : Prop :=
  fetch_calls st' = fetch_calls st ++ cs /\
  skipped_entries st' = skipped_entries st ++ sk /\
  (length (all_frames st') + no_data_count st' =
   length (all_frames st) + no_data_count st + length cs)%nat.

Lemma advanced_refl (st : Sweep) : advanced [] [] st st.
Proof.
  unfold advanced. rewrite !app_nil_r. simpl. repeat split. lia.
Qed.

Lemma advanced_trans (cs1 cs2 : list FetchCall) (sk1 sk2 : list LogEntry)
    (st st1 st2 : Sweep) :
  advanced cs1 sk1 st st1 -> advanced cs2 sk2 st1 st2 ->
  advanced (cs1 ++ cs2) (sk1 ++ sk2) st st2.
Proof.
  intros (H1 & H2 & H3) (K1 & K2 & K3). unfold advanced.
  rewrite K1, H1, K2, H2, !app_assoc, length_app. repeat split. lia.
Qed.

Lemma fetch_model_advanced (ee : EarthEngine) (lat lon : Q)
    (sel : Selection) (scn s_adj e_adj mdl : string) (st st' : Sweep) :
  fetch_model ee lat lon sel scn s_adj e_adj mdl st = (Returned tt, st') ->
  advanced [mkFetchCall lat lon s_adj e_adj (sel_bands sel) mdl scn] []
           st st'.
Proof.
  unfold fetch_model, bind, record_call, lift.
  destruct (fetch_point_timeseries ee lat lon s_adj e_adj (sel_bands sel)
              mdl scn) as [| df]; [discriminate |].
  destruct (df_empty df); cbn [negb].
  - unfold log_error. intros H; injection H as <-.
    unfold advanced, skipped_entries, no_data_count; simpl.
    rewrite !filter_app, !length_app, app_nil_r; simpl.
    rewrite app_nil_r. repeat split. lia.
  - unfold append_frame. intros H; injection H as <-.
    unfold advanced, skipped_entries, no_data_count; simpl.
    rewrite !length_app, app_nil_r; simpl. repeat split. lia.
Qed.

Lemma models_advanced (ee : EarthEngine) (lat lon : Q) (sel : Selection)
    (scn s_adj e_adj : string) (models : list string) (st st' : Sweep) :
  for_each models (fetch_model ee lat lon sel scn s_adj e_adj) st
    = (Returned tt, st') ->
  advanced
    (map (fun mdl => mkFetchCall lat lon s_adj e_adj (sel_bands sel) mdl scn)
         models)
    [] st st'.
Proof.
  revert st st'.
  apply (for_each_returned _
           (fun ms st st' =>
              advanced
                (map (fun mdl =>
                        mkFetchCall lat lon s_adj e_adj (sel_bands sel)
                                    mdl scn) ms) [] st st')).
  - intros st. apply advanced_refl.
  - intros mdl t st st1 st2 Hbody Hrest.
    apply fetch_model_advanced in Hbody.
    exact (advanced_trans _ _ [] [] _ _ _ Hbody Hrest).
Qed.

Lemma sweep_advanced (ee : EarthEngine) (lat lon : Q) (sel : Selection)
    (ranges : list (string * string)) (st st' : Sweep) :
  sweep ee lat lon sel ranges st = (Returned tt, st') ->
  advanced (expected_calls lat lon sel ranges) (expected_skips sel ranges)
           st st'.
Proof.
  unfold sweep, expected_calls, expected_skips.
  revert st st'.
  apply (for_each_returned _
           (fun scens st st' =>
              advanced
                (flat_map (fun scn =>
                             flat_map (calls_of_range lat lon sel scn) ranges)
                          scens)
                (flat_map (fun scn => flat_map (skips_of_range scn) ranges)
                          scens)
                st st')).
  - intros st. apply advanced_refl.
  - intros scn t st st1 st2 Hbody Hrest. cbn [flat_map].
    refine (advanced_trans _ _ _ _ _ _ _ _ Hrest). clear Hrest.
    revert st st1 Hbody.
    apply (for_each_returned _
             (fun rs st st' =>
                advanced (flat_map (calls_of_range lat lon sel scn) rs)
                         (flat_map (skips_of_range scn) rs) st st')).
    + intros st. apply advanced_refl.
    + intros [start end_] rs st st1' st2' Hbody Hrest. cbn [flat_map].
      refine (advanced_trans _ _ _ _ _ _ _ _ Hrest). clear Hrest.
      unfold bind, lift in Hbody.
      unfold calls_of_range, skips_of_range. cbn [fst snd].
      destruct (clamp_dates_for_scenario start end_ scn)
        as [| [[s_adj e_adj] |]]; [discriminate | |].
      * apply (models_advanced ee). exact Hbody.
      * unfold log_error in Hbody. injection Hbody as <-.
        unfold advanced, skipped_entries, no_data_count; simpl.
        rewrite !filter_app, app_nil_r; simpl.
        rewrite app_nil_r. repeat split. lia.
Qed.

Lemma calls_of_range_length (lat lon : Q) (sel : Selection)
    (scn : string) (range : string * string) :
  (length (calls_of_range lat lon sel scn range)
   <= length (sel_models sel))%nat.
Proof.
  unfold calls_of_range.
  destruct (clamp_dates_for_scenario (fst range) (snd range) scn)
    as [| [[s_adj e_adj] |]]; simpl; try lia.
  rewrite length_map. lia.
Qed.

Lemma flat_map_length_le {A B : Type} (f : A -> list B) (k : nat)
    (l : list A) :
  (forall x, (length (f x) <= k)%nat) ->
  (length (flat_map f l) <= length l * k)%nat.
Proof.
  intros Hf. induction l as [| x t IH]; simpl; [lia |].
  rewrite length_app. pose proof (Hf x). lia.
Qed.

(** X6. When the sweep runs to its end, [fetch_point_timeseries] has been
    invoked exactly once per selected scenario, selected decade whose
    clamped range is not null, and selected model, in the order of the
    loops, each time with the clamped dates and all selected bands; the
    number of invocations is at most the progress total of line 810. *)
Theorem sweep_calls_once_per_combination (ee : EarthEngine) (lat lon : Q)
    (sel : Selection) (ranges : list (string * string)) (st : Sweep) :
  sweep ee lat lon sel ranges no_sweep = (Returned tt, st) ->
  fetch_calls st = expected_calls lat lon sel ranges /\
  (length (fetch_calls st)
   <= length (sel_scen sel) * length ranges * length (sel_models sel))%nat.
Proof.
  intros Hsweep. apply sweep_advanced in Hsweep as (Hcalls & _ & _).
  simpl in Hcalls. split; [exact Hcalls |].
  rewrite Hcalls. unfold expected_calls.
  rewrite <- Nat.mul_assoc. apply flat_map_length_le. intros scn.
  apply flat_map_length_le. intros range. apply calls_of_range_length.
Qed.

(** X7. When the sweep runs to its end, every invocation is accounted
    for: the frames collected and the log entries of invocations without
    data are together as many as the invocations, and the other log
    entries are exactly the (scenario, decade) combinations whose clamped
    range is null, in the order of the loops. *)
Theorem sweep_accounts_for_every_call (ee : EarthEngine) (lat lon : Q)
    (sel : Selection) (ranges : list (string * string)) (st : Sweep) :
  sweep ee lat lon sel ranges no_sweep = (Returned tt, st) ->
  (length (all_frames st) + no_data_count st = length (fetch_calls st))%nat /\
  skipped_entries st = expected_skips sel ranges.
Proof.
  intros Hsweep. apply sweep_advanced in Hsweep as (Hcalls & Hskips & Hsum).
  simpl in Hcalls, Hskips, Hsum. rewrite Hcalls. split; [| exact Hskips].
  unfold no_data_count in *. simpl in Hsum. lia.
Qed.

(** *** Where the invocations look *)

Lemma sweep_calls_in_window (ee : EarthEngine) (lat lon : Q)
    (sel : Selection) (ranges : list (string * string))
    (st st' : Sweep) (o : outcome unit) :
  Forall (call_in_window sel) (fetch_calls st) ->
  sweep ee lat lon sel ranges st = (o, st') ->
  Forall (call_in_window sel) (fetch_calls st').
Proof.
  pose (P := fun s : Sweep => Forall (call_in_window sel) (fetch_calls s)).
  unfold sweep. apply (for_each_inv P).
  intros scn st1 o1 st1' Hscn. apply (for_each_inv P).
  intros [start end_] st2 o2 st2' _ Hok2.
  unfold bind, lift.
  destruct (clamp_dates_for_scenario start end_ scn)
    as [| [[s_adj e_adj] |]] eqn:Hclamp.
  - intros H; injection H as _ <-. exact Hok2.
  - revert Hok2. apply (for_each_inv P).
    intros mdl st3 o3 st3' Hmdl Hok3. unfold P in *.
    unfold fetch_model, bind, record_call, lift.
    assert (Hnew : Forall (call_in_window sel)
                     (fetch_calls st3 ++
                      [mkFetchCall lat lon s_adj e_adj (sel_bands sel)
                                   mdl scn])).
    { apply Forall_app. split; [exact Hok3 |]. constructor; [| constructor].
      unfold call_in_window; simpl. repeat split; try assumption.
      apply (clamp_pair_in_window start end_ scn). exact Hclamp. }
    destruct (fetch_point_timeseries ee lat lon s_adj e_adj (sel_bands sel)
                mdl scn) as [| df].
    + intros H; injection H as _ <-. exact Hnew.
    + destruct (df_empty df); cbn [negb].
      * unfold log_error. intros H; injection H as _ <-. exact Hnew.
      * unfold append_frame. intros H; injection H as _ <-. exact Hnew.
  - unfold log_error. intros H; injection H as _ <-. exact Hok2.
Qed.

(** X8. Whatever the service answers and however [main] ends, every
    invocation of [fetch_point_timeseries] it has made asks for the
    selected bands, a selected model and a selected scenario, over a range
    of two dates in order that lies within the valid window of that
    scenario: no request reaches outside 1950-2014 for the historical
    scenario or outside 2015-2100 for another one. *)
Theorem calls_stay_in_window (ee : EarthEngine) (lat lon : Q)
    (sel : Selection) (o : outcome RunResult) (st : Sweep) :
  run_main ee lat lon sel = (o, st) ->
  Forall (call_in_window sel) (fetch_calls st).
Proof.
  unfold run_main, main_fetch.
  destruct (validation sel).
  - unfold ret. intros H; injection H as _ <-. constructor.
  - unfold bind, lift, get_frames.
    destruct (date_ranges_of (decades sel)) as [| ranges].
    + intros H; injection H as _ <-. constructor.
    + destruct (sweep ee lat lon sel ranges no_sweep) as [o1 st1] eqn:Hsweep.
      assert (Hok : Forall (call_in_window sel) (fetch_calls st1))
        by (eapply sweep_calls_in_window; [| exact Hsweep]; constructor).
      destruct o1 as [| []].
      * intros H; injection H as _ <-. exact Hok.
      * destruct (all_frames st1).
        -- unfold ret. intros H; injection H as _ <-. exact Hok.
        -- destruct (combine sel (d :: l)); unfold ret;
             intros H; injection H as _ <-; exact Hok.
Qed.

(** *** Runs that do not raise *)

Lemma dict_get_label {V : Type} (d : list (string * V)) (key : string) :
  In key (map fst d) ->
  exists v, dict_get d key = Returned v /\ In v (map snd d).
Proof.
  induction d as [| [k v] t IH]; simpl; [contradiction |].
  intros Hin. destruct (k =? key)%string eqn:E.
  - exists v. split; [reflexivity | left; reflexivity].
  - destruct Hin as [-> | Hin]; [rewrite String.eqb_refl in E; discriminate |].
    destruct (IH Hin) as (w & Hw & Hwin). exists w. split; [exact Hw |].
    right. exact Hwin.
Qed.

Lemma date_ranges_of_labels (ds : list string) :
  incl ds decade_labels ->
  exists ranges,
    date_ranges_of ds = Returned ranges /\
    Forall (fun r => In r (map snd DECADES)) ranges.
Proof.
  induction ds as [| d t IH]; intros Hin; cbn [date_ranges_of].
  - exists []. split; [reflexivity | constructor].
  - destruct (dict_get_label DECADES d) as (r & -> & Hr).
    { apply Hin. left. reflexivity. }
    destruct IH as (ranges & -> & Hall).
    { intros x Hx. apply Hin. right. exact Hx. }
    exists (r :: ranges). split; [reflexivity |]. constructor; assumption.
Qed.

(** Both dates of a range parse. *)
Definition range_parses (r : string * string) : bool :=
  match to_datetime (fst r), to_datetime (snd r) with
  | Some _, Some _ => true
  | _, _ => false
  end.

Lemma decades_parse : forallb range_parses (map snd DECADES) = true.
Proof. vm_compute. reflexivity. Qed.

Lemma clamp_of_parsed_range (r : string * string) (scn : string) :
  range_parses r = true ->
  clamp_dates_for_scenario (fst r) (snd r) scn <> Raised.
Proof.
  unfold range_parses, clamp_dates_for_scenario.
  destruct (to_datetime (fst r)) as [sd |]; [| discriminate].
  destruct (to_datetime (snd r)) as [ed |]; [| discriminate].
  intros _. destruct (scn =? "historical")%string;
    match goal with |- context [if ?c then _ else _] => destruct c end;
    discriminate.
Qed.

Lemma sweep_returns (ee : EarthEngine) (lat lon : Q) (sel : Selection)
    (ranges : list (string * string)) :
  (forall s e mdl scn,
     fetch_point_timeseries ee lat lon s e (sel_bands sel) mdl scn
     <> Raised) ->
  Forall (fun r => range_parses r = true) ranges ->
  forall st, exists st', sweep ee lat lon sel ranges st = (Returned tt, st').
Proof.
  intros Hfetch Hranges. unfold sweep.
  apply for_each_returns. intros scn st1 _.
  apply for_each_returns. intros [start end_] st2 Hr.
  rewrite Forall_forall in Hranges.
  pose proof (clamp_of_parsed_range (start, end_) scn (Hranges _ Hr)) as Hc.
  cbn [fst snd] in Hc. unfold bind, lift.
  destruct (clamp_dates_for_scenario start end_ scn)
    as [| [[s_adj e_adj] |]]; [congruence | |].
  - apply for_each_returns. intros mdl st3 _.
    unfold fetch_model, bind, record_call, lift.
    specialize (Hfetch s_adj e_adj mdl scn).
    destruct (fetch_point_timeseries ee lat lon s_adj e_adj (sel_bands sel)
                mdl scn) as [| df]; [congruence |].
    destruct (df_empty df); cbn [negb]; eexists; reflexivity.
  - eexists. reflexivity.
Qed.

Lemma lookups_return {V : Type} (d : list (string * V))
    (keys : list string) :
  incl keys (map fst d) ->
  exists vs, PyStr.map_outcome (dict_get d) keys = Returned vs.
Proof.
  intros Hkeys. apply SidebarFacts.map_outcome_returns.
  intros k Hk. destruct (dict_get_label d k (Hkeys k Hk)) as (v & Hv & _).
  exists v. exact Hv.
Qed.

Lemma display_lookups_return (sel : Selection) :
  incl (sel_bands sel) Sidebar.AVAILABLE_BANDS ->
  incl (sel_models sel) Sidebar.KNOWN_MODELS ->
  display_lookups sel = Returned tt.
Proof.
  intros Hbands Hmodels. unfold display_lookups.
  destruct (lookups_return Sidebar.BAND_NAMES (sel_bands sel)) as (v1 & ->);
    [exact Hbands |].
  destruct (lookups_return Sidebar.MODEL_INFO (sel_models sel)) as (v2 & ->);
    [exact Hmodels |].
  destruct (lookups_return BAND_UNITS (sel_bands sel)) as (v3 & ->);
    [exact Hbands |].
  reflexivity.
Qed.

(** X9. When the selected decades are labels of [DECADES], the selected
    bands and models are among the documented ones, and no invocation of
    [fetch_point_timeseries] raises, nothing raises in the fetch branch
    of [main] up to the final table: the dictionary lookups of the
    display return, every decade range is found and parses, and
    [pd.concat] never receives an empty list.  The run ends with the
    message of the failed check, or with no data when the sweep collected
    no frame, or with the two tables when it collected one. *)
Theorem main_returns_when_fetches_return (ee : EarthEngine) (lat lon : Q)
    (sel : Selection) :
  incl (decades sel) decade_labels ->
  incl (sel_bands sel) Sidebar.AVAILABLE_BANDS ->
  incl (sel_models sel) Sidebar.KNOWN_MODELS ->
  (forall s e mdl scn,
     fetch_point_timeseries ee lat lon s e (sel_bands sel) mdl scn
     <> Raised) ->
  display_lookups sel = Returned tt /\
  exists res st,
    run_main ee lat lon sel = (Returned res, st) /\
    match res with
    | Aborted message => validation sel = Some message
    | NoData => validation sel = None /\ all_frames st = []
    | Fetched _ _ => validation sel = None /\ all_frames st <> []
    end.
Proof.
  intros Hdec Hbands Hmodels Hfetch.
  split; [apply display_lookups_return; assumption |].
  unfold run_main, main_fetch.
  destruct (validation sel) as [message |] eqn:Hv.
  - exists (Aborted message), no_sweep. split; reflexivity.
  - destruct (date_ranges_of_labels (decades sel) Hdec)
      as (ranges & Hranges & Hin).
    assert (Hparse : Forall (fun r => range_parses r = true) ranges).
    { pose proof decades_parse as Hall. rewrite forallb_forall in Hall.
      eapply Forall_impl; [| exact Hin]. exact Hall. }
    destruct (sweep_returns ee lat lon sel ranges Hfetch Hparse no_sweep)
      as (st & Hsweep).
    unfold bind, lift, get_frames. rewrite Hranges, Hsweep.
    destruct (all_frames st) as [| f fs] eqn:Ef.
    + exists NoData, st. repeat split. exact Ef.
    + pose proof (validation_passed sel Hv) as (_ & _ & _ & _ & Hopt & Hens).
      assert (Hok : frames_ok sel st)
        by (eapply sweep_inv; [| exact Hsweep]; constructor).
      unfold frames_ok in Hok. rewrite Ef in Hok.
      destruct (combine_returns sel (f :: fs)) as (all_data & out & -> & _);
        try assumption; [discriminate |].
      exists (Fetched all_data out), st. unfold ret; simpl.
      repeat split. rewrite Ef. discriminate.
Qed.

(** X10. [main] ends with a message instead of fetching exactly when the
    variable list, the model list, the scenario list or the decade list is
    empty, or neither output option is chosen, or the ensemble mean is
    requested with fewer than two models; any other selection goes on to
    the sweep. *)
Theorem aborts_exactly_when_selection_invalid (ee : EarthEngine)
    (lat lon : Q) (sel : Selection) :
  (exists message st,
     run_main ee lat lon sel = (Returned (Aborted message), st)) <->
  (sel_bands sel = [] \/ sel_models sel = [] \/ sel_scen sel = [] \/
   decades sel = [] \/
   (include_individual sel = false /\ include_ensemble sel = false) \/
   (include_ensemble sel = true /\ (length (sel_models sel) < 2)%nat)).
Proof.
  unfold run_main, main_fetch. split.
  - intros (message & st & Hrun).
    destruct (validation sel) as [m |] eqn:Hv.
    + clear Hrun. revert Hv. unfold validation.
      destruct (sel_bands sel); [auto |].
      destruct (sel_models sel) as [| m0 ms]; [auto |].
      destruct (sel_scen sel); [auto |].
      destruct (decades sel); [auto |].
      destruct (include_individual sel), (include_ensemble sel);
        cbn [negb andb]; try discriminate; auto 10.
      * destruct (length (m0 :: ms) <? 2)%nat eqn:E; [| discriminate].
        apply Nat.ltb_lt in E. auto 10.
      * destruct (length (m0 :: ms) <? 2)%nat eqn:E; [| discriminate].
        apply Nat.ltb_lt in E. auto 10.
    + exfalso. revert Hrun. unfold bind, lift, get_frames, ret.
      destruct (date_ranges_of (decades sel)); [discriminate |].
      destruct (sweep ee lat lon sel l no_sweep) as [[| []] st1];
        [discriminate |].
      destruct (all_frames st1); [discriminate |].
      destruct (combine sel (d :: l0)); discriminate.
  - intros Hbad.
    destruct (validation sel) as [m |] eqn:Hv.
    + exists m, no_sweep. reflexivity.
    + exfalso.
      apply validation_passed in Hv as (H1 & H2 & H3 & H4 & H5 & H6).
      destruct Hbad as [H | [H | [H | [H | [[Hi He] | [He Hlt]]]]]];
        try contradiction.
      * destruct H5; congruence.
      * specialize (H6 He). lia.
Qed.

End WithLibrary.

(** *** A concrete sweep *)

(** Two decades across the boundary of 2015 and one scenario on each side
    of it: the historical scenario keeps the 2000s and the first half of
    the 2010s, ssp245 skips the 2000s and keeps the second half of the
    2010s. *)
Definition boundary_selection : Selection :=
  mkSelection ["2000s (2000-01-01 to 2009-12-31)";
               "2010s (2010-01-01 to 2019-12-31)"]
              ["tas"] ["GFDL-ESM4"; "CanESM5"] ["historical"; "ssp245"]
              true true.

Definition boundary_ranges : list (string * string) :=
  [("2000-01-01", "2009-12-31"); ("2010-01-01", "2019-12-31")].

Definition boundary_sweep : outcome unit * Sweep :=
  sweep (lib := Reference.library) two_model_engine 48 2 boundary_selection
        boundary_ranges no_sweep.

Lemma sweep_calls_once_per_combination_witness :
  map (fun c => (call_scenario c, call_start c, call_end c, call_model c))
      (fetch_calls (snd boundary_sweep))
  = [("historical", "2000-01-01", "2009-12-31", "GFDL-ESM4");
     ("historical", "2000-01-01", "2009-12-31", "CanESM5");
     ("historical", "2010-01-01", "2014-12-31", "GFDL-ESM4");
     ("historical", "2010-01-01", "2014-12-31", "CanESM5");
     ("ssp245", "2015-01-01", "2019-12-31", "GFDL-ESM4");
     ("ssp245", "2015-01-01", "2019-12-31", "CanESM5")] /\
  (length (fetch_calls (snd boundary_sweep)) <= 2 * 2 * 2)%nat.
Proof.
  destruct (sweep_calls_once_per_combination (lib := Reference.library)
              two_model_engine 48 2 boundary_selection boundary_ranges
              (snd boundary_sweep)) as [Hcalls Hbound].
  - vm_compute. reflexivity.
  - split; [| exact Hbound].
    rewrite Hcalls. vm_compute. reflexivity.
Defined.

Lemma sweep_accounts_for_every_call_witness :
  (length (all_frames (snd boundary_sweep))
   + no_data_count (snd boundary_sweep)
   = length (fetch_calls (snd boundary_sweep)))%nat /\
  skipped_entries (snd boundary_sweep)
  = [SkippedRange "ssp245" "2000-01-01" "2009-12-31"].
Proof.
  destruct (sweep_accounts_for_every_call (lib := Reference.library)
              two_model_engine 48 2 boundary_selection boundary_ranges
              (snd boundary_sweep)) as [Hsum Hskips].
  - vm_compute. reflexivity.
  - split; [exact Hsum |].
    rewrite Hskips. vm_compute. reflexivity.
Defined.

Definition boundary_run : outcome RunResult * Sweep :=
  run_main (lib := Reference.library) two_model_engine 48 2
           boundary_selection.

Lemma calls_stay_in_window_witness :
  Forall (call_in_window boundary_selection)
         (fetch_calls (snd boundary_run)).
Proof.
  apply (calls_stay_in_window (lib := Reference.library) two_model_engine
           48 2 boundary_selection (fst boundary_run) (snd boundary_run)).
  vm_compute. reflexivity.
Defined.

Lemma two_model_engine_returns (lat lon : Q) (s e mdl scn : string) :
  fetch_point_timeseries (lib := Reference.library) two_model_engine lat lon
    s e ["tas"] mdl scn <> Raised.
Proof.
  unfold fetch_point_timeseries, two_model_engine.
  destruct (mdl =? "CanESM5")%string; vm_compute; discriminate.
Qed.

Lemma main_returns_when_fetches_return_witness :
  display_lookups boundary_selection = Returned tt /\
  exists res st,
    boundary_run = (Returned res, st) /\
    match res with
    | Aborted message =>
        validation boundary_selection = Some message
    | NoData =>
        validation boundary_selection = None /\
        all_frames st = []
    | Fetched _ _ =>
        validation boundary_selection = None /\
        all_frames st <> []
    end.
Proof.
  apply (main_returns_when_fetches_return (lib := Reference.library)
           two_model_engine 48 2 boundary_selection).
  - intros d [<- | [<- | []]]; vm_compute; auto 20.
  - intros b [<- | []]. vm_compute. auto 20.
  - intros m [<- | [<- | []]]; vm_compute; auto 20.
  - intros s e mdl scn. apply two_model_engine_returns.
Defined.

Lemma aborts_exactly_when_selection_invalid_witness :
  (exists message st,
     run_main (lib := Reference.library) two_model_engine 48 2
       (mkSelection ["2000s (2000-01-01 to 2009-12-31)"] ["tas"]
                    ["GFDL-ESM4"; "CanESM5"] ["historical"] false false)
     = (Returned (Aborted message), st)) /\
  ~ (exists message st,
       boundary_run = (Returned (Aborted message), st)).
Proof.
  split.
  - apply (aborts_exactly_when_selection_invalid (lib := Reference.library)
             two_model_engine 48 2
             (mkSelection ["2000s (2000-01-01 to 2009-12-31)"] ["tas"]
                          ["GFDL-ESM4"; "CanESM5"] ["historical"]
                          false false)).
    right; right; right; right; left. split; reflexivity.
  - intros Habort.
    apply (aborts_exactly_when_selection_invalid (lib := Reference.library)
             two_model_engine 48 2 boundary_selection) in Habort.
    simpl in Habort.
    destruct Habort as [H | [H | [H | [H | [[H _] | [_ H]]]]]];
      try discriminate.
    lia.
Defined.

End SweepFacts.

Module OutputFacts.
Import Frames FramesFacts EnsembleFacts Fetcher FetcherFacts Main MainFacts.

(** *** From the collected frames to the two tables *)

Lemma concat_rows (frames : list DataFrame) (joined : DataFrame) :
  concat frames = Returned joined -> rows joined = flat_map rows frames.
Proof.
  destruct frames as [| f fs]; [discriminate |].
  intros H; injection H as <-. reflexivity.
Qed.

Lemma combine_rows (sel : Selection) (frames : list DataFrame)
    (all_data out : DataFrame) :
  combine sel frames = Returned (all_data, out) ->
  Permutation (rows all_data) (flat_map rows frames) /\
  Permutation (rows out)
    ((if include_individual sel then rows all_data else []) ++
     (if include_ensemble sel && (1 <? length (sel_models sel))%nat
      then flat_map rows (ensemble_frames_of sel all_data)
      else [])).
Proof.
  unfold combine.
  destruct (concat frames) as [| joined] eqn:Hjoin; [discriminate |].
  apply concat_rows in Hjoin. cbv zeta.
  assert (Hall : Permutation (rows (sort_values joined))
                             (flat_map rows frames)).
  { unfold sort_values; simpl. rewrite <- Hjoin. apply sort_by_perm. }
  set (sorted := sort_values joined) in *. clearbody sorted.
  assert (Hfinish : forall fs,
            match concat fs with
            | Raised => Raised
            | Returned out0 => Returned (sorted, sort_values out0)
            end = Returned (all_data, out) ->
            all_data = sorted /\
            Permutation (rows out) (flat_map rows fs)).
  { intros fs. destruct (concat fs) as [| out0] eqn:Hout; [discriminate |].
    apply concat_rows in Hout. intros H; injection H as <- <-.
    split; [reflexivity |]. unfold sort_values; simpl.
    rewrite <- Hout. apply sort_by_perm. }
  destruct (include_ensemble sel && (1 <? length (sel_models sel))%nat).
  - destruct (ensemble_frames_of sel sorted) as [| f fs] eqn:Ef.
    + intros H. apply Hfinish in H as [-> Hout].
      split; [exact Hall |]. rewrite Ef. cbn [flat_map].
      rewrite app_nil_r.
      destruct (include_individual sel); cbn [flat_map] in Hout;
        rewrite ?app_nil_r in Hout; exact Hout.
    + destruct (concat (f :: fs)) as [| edf] eqn:Hedf; [discriminate |].
      apply concat_rows in Hedf.
      intros H. apply Hfinish in H as [-> Hout].
      split; [exact Hall |]. rewrite Ef, <- Hedf.
      rewrite flat_map_app in Hout. cbn [flat_map] in Hout.
      rewrite app_nil_r in Hout.
      destruct (include_individual sel); cbn [flat_map] in Hout;
        rewrite ?app_nil_r in Hout; exact Hout.
  - intros H. apply Hfinish in H as [-> Hout].
    split; [exact Hall |]. rewrite app_nil_r.
    destruct (include_individual sel); cbn [flat_map] in Hout;
      rewrite ?app_nil_r in Hout; exact Hout.
Qed.

(** X11. Between the fetch and the final table no record is lost,
    repeated or invented: the table of all models holds the records of
    the collected frames, each as often as it was collected, and the
    final table holds those records when the individual models are
    included, followed by the records of the ensemble tables when the
    ensemble mean is requested for more than one model, and nothing
    else. *)
Theorem combine_keeps_every_record (sel : Selection)
    (frames : list DataFrame) (all_data out : DataFrame) :
  combine sel frames = Returned (all_data, out) ->
  Permutation (rows all_data) (flat_map rows frames) /\
  Permutation (rows out)
    ((if include_individual sel then rows all_data else []) ++
     (if include_ensemble sel && (1 <? length (sel_models sel))%nat
      then flat_map rows (ensemble_frames_of sel all_data)
      else [])) /\
  length (rows all_data) = length (flat_map rows frames) /\
  (forall x, In x (rows all_data) <->
             exists df, In df frames /\ In x (rows df)).
Proof.
  intros Hcombine.
  destruct (combine_rows sel frames all_data out Hcombine) as [Hall Hout].
  split; [exact Hall |]. split; [exact Hout |].
  split; [apply Permutation_length; exact Hall |].
  intros x. rewrite <- in_flat_map. split.
  - apply Permutation_in. exact Hall.
  - apply Permutation_in, Permutation_sym. exact Hall.
Qed.

(** *** What the tables hold *)

(** A record of a selected model, scenario and variable, and an
    aggregated record of a selected scenario and variable. *)
Definition row_selected (sel : Selection) (x : Row) : Prop :=
  In (model x) (sel_models sel) /\ In (scenario x) (sel_scen sel) /\
  In (band x) (sel_bands sel).

Definition row_aggregated (sel : Selection) (x : Row) : Prop :=
  model x = ENSEMBLE_MEAN /\ In (scenario x) (sel_scen sel) /\
  In (band x) (sel_bands sel).

Definition frames_selected (sel : Selection) (st : Sweep) : Prop :=
  Forall (fun df => Forall (row_selected sel) (rows df)) (all_frames st).

Lemma ensemble_rows_aggregated (sel : Selection) (all_data : DataFrame) :
  Forall (row_aggregated sel)
         (flat_map rows (ensemble_frames_of sel all_data)).
Proof.
  rewrite ensemble_frames_rows. apply Forall_forall. intros x Hx.
  apply in_flat_map in Hx as (s & Hs & Hx).
  apply in_flat_map in Hx as (b & Hb & Hx).
  rewrite ensemble_rows in Hx. apply in_map_iff in Hx as (d & <- & _).
  unfold row_aggregated; simpl. auto.
Qed.

Section WithLibrary.
Context {lib : Library}.

Lemma sweep_frames_selected (ee : EarthEngine) (lat lon : Q)
    (sel : Selection) (ranges : list (string * string))
    (st st' : Sweep) (o : outcome unit) :
  frames_selected sel st ->
  sweep ee lat lon sel ranges st = (o, st') ->
  frames_selected sel st'.
Proof.
  unfold sweep. apply (for_each_inv (frames_selected sel)).
  intros scn st1 o1 st1' Hscn. apply (for_each_inv (frames_selected sel)).
  intros [start end_] st2 o2 st2' _ Hok2.
  unfold bind, lift.
  destruct (Dates.clamp_dates_for_scenario start end_ scn)
    as [| [[s_adj e_adj] |]].
  - intros H; injection H as _ <-. exact Hok2.
  - revert Hok2. apply (for_each_inv (frames_selected sel)).
    intros mdl st3 o3 st3' Hmdl Hok3.
    unfold fetch_model, bind, record_call, lift.
    destruct (fetch_point_timeseries ee lat lon s_adj e_adj (sel_bands sel)
                mdl scn) as [| df] eqn:Hfetch.
    + intros H; injection H as _ <-. exact Hok3.
    + destruct (df_empty df); cbn [negb].
      * unfold log_error. intros H; injection H as _ <-. exact Hok3.
      * unfold append_frame. intros H; injection H as _ <-.
        unfold frames_selected in *. cbn [all_frames].
        apply Forall_app. split; [exact Hok3 |].
        constructor; [| constructor].
        apply fetch_rows_sound in Hfetch.
        eapply Forall_impl; [| exact Hfetch]. simpl.
        intros x (Hm & Hs & Hb). unfold row_selected.
        rewrite Hm, Hs. auto.
  - unfold log_error. intros H; injection H as _ <-. exact Hok2.
Qed.

(** X12. The tables of a completed run hold only what was selected:
    every record of the table of all models carries a selected model, a
    selected scenario and a selected variable; every record of the final
    table is such a record or an ENSEMBLE-MEAN record of a selected
    scenario and variable; without the ensemble mean the final table
    holds only the former, without the individual models only the
    latter. *)
Theorem output_holds_only_selection (ee : EarthEngine) (lat lon : Q)
    (sel : Selection) (all_data out : DataFrame) (st : Sweep) :
  run_main ee lat lon sel = (Returned (Fetched all_data out), st) ->
  Forall (row_selected sel) (rows all_data) /\
  Forall (fun x => row_selected sel x \/ row_aggregated sel x) (rows out) /\
  (include_ensemble sel = false -> Forall (row_selected sel) (rows out)) /\
  (include_individual sel = false ->
   Forall (row_aggregated sel) (rows out)).
Proof.
  unfold run_main, main_fetch.
  destruct (validation sel); [discriminate |].
  unfold bind, lift, get_frames, ret.
  destruct (date_ranges_of (decades sel)) as [| ranges]; [discriminate |].
  destruct (sweep ee lat lon sel ranges no_sweep) as [[| []] st1] eqn:Hsweep;
    [discriminate |].
  assert (Hsel : frames_selected sel st1)
    by (eapply sweep_frames_selected; [| exact Hsweep]; constructor).
  unfold frames_selected in Hsel.
  destruct (all_frames st1) as [| f fs]; [discriminate |].
  destruct (combine sel (f :: fs)) as [| [all_data0 out0]] eqn:Hcombine;
    [discriminate |].
  intros H; injection H as <- <- _.
  apply combine_rows in Hcombine as [Hall Hout].
  assert (Hrows : Forall (row_selected sel) (rows all_data0)).
  { apply Forall_forall. intros x Hx.
    apply (Permutation_in _ Hall) in Hx.
    apply in_flat_map in Hx as (df & Hdf & Hx).
    rewrite Forall_forall in Hsel. specialize (Hsel df Hdf).
    rewrite Forall_forall in Hsel. apply Hsel. exact Hx. }
  pose proof (ensemble_rows_aggregated sel all_data0) as Hens.
  assert (Hparts : Forall (row_selected sel)
                     (if include_individual sel then rows all_data0 else []))
    by (destruct (include_individual sel); [exact Hrows | constructor]).
  assert (Hmean : Forall (row_aggregated sel)
                    (if include_ensemble sel
                        && (1 <? length (sel_models sel))%nat
                     then flat_map rows (ensemble_frames_of sel all_data0)
                     else []))
    by (destruct (include_ensemble sel && _); [exact Hens | constructor]).
  split; [exact Hrows |]. split; [| split].
  - apply Forall_forall. intros x Hx.
    apply (Permutation_in _ Hout) in Hx. apply in_app_or in Hx as [Hx | Hx].
    + left. rewrite Forall_forall in Hparts. apply Hparts. exact Hx.
    + right. rewrite Forall_forall in Hmean. apply Hmean. exact Hx.
  - intros He. rewrite He in Hout. cbn [andb] in Hout.
    rewrite app_nil_r in Hout.
    apply Forall_forall. intros x Hx.
    apply (Permutation_in _ Hout) in Hx.
    rewrite Forall_forall in Hparts. apply Hparts. exact Hx.
  - intros Hi. rewrite Hi in Hout. cbn [app] in Hout.
    apply Forall_forall. intros x Hx.
    apply (Permutation_in _ Hout) in Hx.
    rewrite Forall_forall in Hmean. apply Hmean. exact Hx.
Qed.

Lemma run_fetched (ee : EarthEngine) (lat lon : Q) (sel : Selection)
    (all_data out : DataFrame) (st : Sweep) :
  run_main ee lat lon sel = (Returned (Fetched all_data out), st) ->
  validation sel = None /\ frames_selected sel st /\
  combine sel (all_frames st) = Returned (all_data, out).
Proof.
  unfold run_main, main_fetch.
  destruct (validation sel); [discriminate |].
  unfold bind, lift, get_frames, ret.
  destruct (date_ranges_of (decades sel)) as [| ranges]; [discriminate |].
  destruct (sweep ee lat lon sel ranges no_sweep) as [[| []] st1] eqn:Hsweep;
    [discriminate |].
  assert (Hsel : frames_selected sel st1)
    by (eapply sweep_frames_selected; [| exact Hsweep]; constructor).
  destruct (all_frames st1) as [| f fs] eqn:Ef; [discriminate |].
  destruct (combine sel (f :: fs)) as [| [all_data0 out0]] eqn:Hcombine;
    [discriminate |].
  intros H; injection H as <- <- <-.
  split; [reflexivity |]. split; [exact Hsel |].
  rewrite Ef. exact Hcombine.
Qed.

(** X13. When the ensemble mean is requested and the run ends with
    tables, the final table holds an ENSEMBLE-MEAN record for every
    scenario, variable and date that occurs in the table of all models,
    its value being the mean of the records of that scenario, variable
    and date; this holds for however many of the selected models returned
    data, a single one included. *)
Theorem ensemble_present_when_requested (ee : EarthEngine) (lat lon : Q)
    (sel : Selection) (all_data out : DataFrame) (st : Sweep) :
  run_main ee lat lon sel = (Returned (Fetched all_data out), st) ->
  include_ensemble sel = true ->
  forall r, In r (rows all_data) ->
    exists e,
      In e (rows out) /\ model e = ENSEMBLE_MEAN /\
      scenario e = scenario r /\ band e = band r /\ date e = date r /\
      value e =
        mean (map value
                (contributors all_data (scenario r) (band r) (date r))).
Proof.
  intros Hrun He r Hr.
  destruct (run_fetched _ _ _ _ _ _ _ Hrun) as (Hv & Hsel & Hcombine).
  pose proof (validation_passed sel Hv) as (_ & _ & _ & _ & _ & Hens).
  specialize (Hens He).
  apply combine_rows in Hcombine as [Hall Hout].
  rewrite He in Hout. cbn [andb] in Hout.
  assert ((1 <? length (sel_models sel))%nat = true) as Hguard
      by (apply Nat.ltb_lt; lia).
  rewrite Hguard in Hout.
  assert (Hrsel : row_selected sel r).
  { apply (Permutation_in _ Hall) in Hr.
    apply in_flat_map in Hr as (df & Hdf & Hr).
    unfold frames_selected in Hsel. rewrite Forall_forall in Hsel.
    specialize (Hsel df Hdf). rewrite Forall_forall in Hsel.
    apply Hsel. exact Hr. }
  destruct Hrsel as (_ & Hs & Hb).
  exists (mkRow (date r) (band r)
                (mean (map value
                         (contributors all_data (scenario r) (band r)
                                       (date r))))
                ENSEMBLE_MEAN (scenario r)).
  split; [| simpl; auto].
  apply (Permutation_in _ (Permutation_sym Hout)).
  apply in_or_app. right.
  rewrite ensemble_frames_rows.
  apply in_flat_map. exists (scenario r). split; [exact Hs |].
  apply in_flat_map. exists (band r). split; [exact Hb |].
  rewrite ensemble_rows. apply in_map_iff. exists (date r).
  split; [reflexivity |].
  apply in_sorted_unique, in_subset_dates. exists r. auto.
Qed.

End WithLibrary.

(** *** A concrete table *)

Definition collected_frames : list DataFrame :=
  [ mkFrame std_columns
      [ mkRow "2000-01-02" "tas" 20 "GFDL-ESM4" "historical";
        mkRow "2000-01-01" "tas" 18 "GFDL-ESM4" "historical" ];
    mkFrame std_columns
      [ mkRow "2000-01-01" "tas" 10 "CanESM5" "historical" ] ].

Definition collected_tables : DataFrame * DataFrame :=
  match combine (sample_selection true true) collected_frames with
  | Returned tables => tables
  | Raised => (empty_with_columns, empty_with_columns)
  end.

Lemma combine_keeps_every_record_witness :
  Permutation (rows (fst collected_tables))
              (flat_map rows collected_frames) /\
  length (rows (snd collected_tables)) = 5%nat.
Proof.
  destruct (combine_keeps_every_record (sample_selection true true)
              collected_frames (fst collected_tables)
              (snd collected_tables)) as (Hall & Hout & _).
  - vm_compute. reflexivity.
  - split; [exact Hall |].
    rewrite (Permutation_length Hout). vm_compute. reflexivity.
Defined.

Lemma output_holds_only_selection_witness :
  exists all_data out,
    fst (sample_run true true) = Returned (Fetched all_data out) /\
    Forall (row_selected (sample_selection true true)) (rows all_data) /\
    Forall (fun x => row_selected (sample_selection true true) x \/
                     row_aggregated (sample_selection true true) x)
           (rows out).
Proof.
  set (all_data := match fst (sample_run true true) with
                   | Returned (Fetched a _) => a
                   | _ => empty_with_columns
                   end).
  set (out := match fst (sample_run true true) with
              | Returned (Fetched _ o) => o
              | _ => empty_with_columns
              end).
  exists all_data, out.
  destruct (output_holds_only_selection (lib := Reference.library)
              two_model_engine 48 2 (sample_selection true true)
              all_data out (snd (sample_run true true)))
    as (Hall & Hout & _ & _).
  - vm_compute. reflexivity.
  - split; [vm_compute; reflexivity |]. split; [exact Hall | exact Hout].
Defined.

Lemma ensemble_present_when_requested_witness :
  exists e,
    In e (PackagerFacts.sample_out true true).(rows) /\
    model e = ENSEMBLE_MEAN /\ scenario e = "historical" /\
    band e = "tas" /\ date e = "2000-01-01".
Proof.
  set (all_data := match fst (sample_run true true) with
                   | Returned (Fetched a _) => a
                   | _ => empty_with_columns
                   end).
  destruct (ensemble_present_when_requested (lib := Reference.library)
              two_model_engine 48 2 (sample_selection true true)
              all_data (PackagerFacts.sample_out true true)
              (snd (sample_run true true)))
    with (r := mkRow "2000-01-01" "tas" (283.15 - 273.15) "CanESM5"
                     "historical")
    as (e & H1 & H2 & H3 & H4 & H5 & _).
  - vm_compute. reflexivity.
  - reflexivity.
  - vm_compute. left. reflexivity.
  - exists e. split; [exact H1 |]. split; [exact H2 |].
    split; [exact H3 |]. split; [exact H4 | exact H5].
Defined.

End OutputFacts.

Module ConversionFacts.
Import Units.

(** X14. The unit conversion keeps the order of values for every band:
    a raw value that is not above another is not above it after the
    conversion either. *)
Theorem convert_units_keeps_order (b : string) (v1 v2 : Q) :
  (v1 <= v2)%Q -> (convert_units b v1 <= convert_units b v2)%Q.
Proof.
  intros Hle. unfold convert_units.
  destruct (str_in b ["tas"; "tasmax"; "tasmin"]).
  - unfold Qminus. apply Qplus_le_compat; [exact Hle | apply Qle_refl].
  - destruct (b =? "pr")%string; [| exact Hle].
    apply Qmult_le_compat_r; [exact Hle | discriminate].
Qed.

Lemma convert_units_keeps_order_witness :
  (convert_units "pr" (1 # 1000) <= convert_units "pr" (2 # 1000))%Q /\
  (convert_units "tasmin" 250 <= convert_units "tasmin" 300)%Q.
Proof.
  split.
  - apply (convert_units_keeps_order "pr" (1 # 1000) (2 # 1000)).
    discriminate.
  - apply (convert_units_keeps_order "tasmin" 250 300). discriminate.
Defined.

End ConversionFacts.

Module FetchedFacts.
Import Frames Units Fetcher FetcherFacts.

Section WithLibrary.
Context {lib : Library}.

(** *** How many records a response can give *)

Lemma row_records_length (date_str : string) (header r : list Cell)
    (mdl scn : string) (bands : list string) (recs recs' : list Row) :
  row_records date_str header r mdl scn bands recs = Returned recs' ->
  (length recs' <= length recs + length bands)%nat.
Proof.
  revert recs. induction bands as [| b rest IH]; intros recs; simpl.
  - intros H; injection H as <-. lia.
  - destruct (header_has b header);
      [| intros H; apply IH in H; lia].
    destruct (header_index b header) as [idx |]; [| discriminate].
    destruct (nth_error r idx) as [val |]; [| discriminate].
    destruct val as [| q | s]; simpl.
    + intros H. apply IH in H. lia.
    + destruct (float_accepts q); [| discriminate].
      intros H. apply IH in H. rewrite length_app in H. simpl in H. lia.
    + destruct (float_of_str s) as [v |]; [| discriminate].
      intros H. apply IH in H. rewrite length_app in H. simpl in H. lia.
Qed.

Lemma build_records_length (header : list Cell) (time_idx : nat)
    (mdl scn : string) (bands : list string) (data : list (list Cell))
    (recs recs' : list Row) :
  build_records header time_idx mdl scn bands data recs = Returned recs' ->
  (length recs' <= length recs + length data * length bands)%nat.
Proof.
  revert recs. induction data as [| r rest IH]; intros recs; simpl.
  - intros H; injection H as <-. lia.
  - destruct (row_date time_idx r) as [date_str |];
      [| intros H; apply IH in H; lia].
    destruct (row_records date_str header r mdl scn bands recs)
      as [| recs1] eqn:E; [discriminate |].
    apply row_records_length in E.
    intros H. apply IH in H. lia.
Qed.

(** X15. Whatever the service answers, a table returned by
    [fetch_point_timeseries] holds only records of the queried model and
    scenario and of a requested band, has the columns date, band, value,
    model, scenario whenever it holds a record, and holds at most one
    record per data row of the response and fetched band. *)
Theorem fetched_records_match_query (ee : EarthEngine) (lat lon : Q)
    (start end_ : string) (bands : list string) (mdl scn : string)
    (df : DataFrame) :
  fetch_point_timeseries ee lat lon start end_ bands mdl scn = Returned df ->
  Forall (fun x => model x = mdl /\ scenario x = scn /\ In (band x) bands)
         (rows df) /\
  (rows df <> [] -> columns df = std_columns) /\
  (forall bs header data,
     check_bands (ee lat lon start end_ mdl scn) bands = inr bs ->
     region_info (ee lat lon start end_ mdl scn) bs = Ok (header :: data) ->
     (length (rows df) <= length data * length bs)%nat).
Proof.
  intros Hfetch.
  split; [exact (fetch_rows_sound _ _ _ _ _ _ _ _ _ Hfetch) |].
  split; [exact (fetch_columns _ _ _ _ _ _ _ _ _ Hfetch) |].
  intros bs header data Hcheck Hregion. revert Hfetch.
  unfold fetch_point_timeseries.
  assert (Hempty : Returned empty_with_columns = Returned df ->
                   (length (rows df) <= length data * length bs)%nat)
    by (intros H; injection H as <-; simpl; lia).
  destruct (size_info (ee lat lon start end_ mdl scn)) as [| n];
    [exact Hempty |].
  destruct (n =? 0)%Z; [exact Hempty |].
  rewrite Hcheck, Hregion.
  destruct (length (header :: data) <? 2)%nat; [exact Hempty |].
  destruct (header_index "time" header) as [time_idx |]; [| exact Hempty].
  destruct (build_records header time_idx mdl scn bs data []) as [| recs]
    eqn:E; [discriminate |].
  intros H; injection H as <-. rewrite rows_from_records.
  apply build_records_length in E. simpl in E. exact E.
Qed.

End WithLibrary.

Lemma fetched_records_match_query_witness :
  exists df,
    fetch_point_timeseries (lib := Reference.library) sample_engine 48 2
      "2000-01-01" "2009-12-31" five_bands "CanESM5" "historical"
      = Returned df /\
    Forall (fun x => model x = "CanESM5" /\ scenario x = "historical" /\
                     In (band x) five_bands) (rows df) /\
    (length (rows df) <= 2 * 3)%nat.
Proof.
  set (df := match fetch_point_timeseries (lib := Reference.library)
                     sample_engine 48 2 "2000-01-01" "2009-12-31"
                     five_bands "CanESM5" "historical" with
             | Returned d => d
             | Raised => empty_with_columns
             end).
  exists df.
  destruct (fetched_records_match_query (lib := Reference.library)
              sample_engine 48 2 "2000-01-01" "2009-12-31" five_bands
              "CanESM5" "historical" df) as (Hrows & _ & Hbound).
  - vm_compute. reflexivity.
  - split; [vm_compute; reflexivity |]. split; [exact Hrows |].
    apply (Hbound ["tas"; "pr"; "hurs"] sample_header sample_data).
    + vm_compute. reflexivity.
    + reflexivity.
Defined.

End FetchedFacts.

Module FilesFacts.
Import Frames FramesFacts Csv Packager Reader ReaderFacts.

Local Open Scope string_scope.

(** *** One file per model *)

(** The rows of [out[out["model"] == m]]. *)
Definition rows_of_model (rs : list Row) (m : string) : list Row :=
  filter (fun r => model r =? m) rs.

Lemma rows_of_absent_model (r : Row) (rs : list Row) (ms : list string) :
  ~ In (model r) ms ->
  flat_map (rows_of_model (r :: rs)) ms = flat_map (rows_of_model rs) ms.
Proof.
  induction ms as [| m t IH]; intros Hnot; [reflexivity |].
  cbn [flat_map]. rewrite IH by (intros H; apply Hnot; right; exact H).
  unfold rows_of_model at 1. cbn [filter].
  destruct (String.eqb_spec (model r) m) as [E | _]; [| reflexivity].
  exfalso. apply Hnot. left. symmetry. exact E.
Qed.

Lemma rows_of_present_model (r : Row) (rs : list Row) (ms : list string) :
  NoDup ms -> In (model r) ms ->
  Permutation (flat_map (rows_of_model (r :: rs)) ms)
              (r :: flat_map (rows_of_model rs) ms).
Proof.
  induction 1 as [| m t Hm Ht IH]; intros Hin; [contradiction |].
  cbn [flat_map]. unfold rows_of_model at 1. cbn [filter].
  destruct (String.eqb_spec (model r) m) as [E | Hne].
  - rewrite rows_of_absent_model by (rewrite E; exact Hm).
    apply Permutation_refl.
  - destruct Hin as [E | Hin]; [congruence |].
    eapply Permutation_trans;
      [apply Permutation_app_head, IH, Hin | ].
    apply Permutation_sym, Permutation_middle.
Qed.

Lemma rows_by_model (rs : list Row) (ms : list string) :
  NoDup ms -> (forall r, In r rs -> In (model r) ms) ->
  Permutation (flat_map (rows_of_model rs) ms) rs.
Proof.
  intros Hms. induction rs as [| r t IH]; intros Hall.
  - assert (flat_map (rows_of_model []) ms = []) as ->
        by (clear Hms Hall; induction ms as [| m ms' IHm];
            [reflexivity | cbn [flat_map]; rewrite IHm; reflexivity]).
    constructor.
  - eapply Permutation_trans.
    + apply rows_of_present_model; [exact Hms |].
      apply Hall. left. reflexivity.
    + apply perm_skip, IH. intros x Hx. apply Hall. right. exact Hx.
Qed.

Section WithLibrary.
Context {lib : Library}.

(** X16. The models that get a file of their own are the models occurring
    in the final table, in ascending order of name and without
    repetition; the per-model tables together hold every record of the
    final table exactly once, each in the table of its own model. *)
Theorem model_files_partition_table (out : DataFrame) :
  NoDup (unique_models out) /\
  Sorted (fun a b => String.leb a b = true) (unique_models out) /\
  (forall m, In m (unique_models out) <->
             exists r, In r (rows out) /\ model r = m) /\
  Permutation
    (flat_map (fun m => rows (select (fun r => model r =? m) out))
              (unique_models out))
    (rows out) /\
  (forall m r, In r (rows (select (fun r => model r =? m) out)) ->
               model r = m).
Proof.
  split; [| split; [| split; [| split]]].
  - apply NoDup_sorted_unique.
  - unfold unique_models, sorted_strings.
    apply sort_by_Sorted, string_leb_total.
  - intros m. unfold unique_models. rewrite in_sorted_unique, in_map_iff.
    split; intros (r & H1 & H2); exists r; auto.
  - apply (rows_by_model (rows out) (unique_models out)).
    + apply NoDup_sorted_unique.
    + intros r Hr. unfold unique_models. rewrite in_sorted_unique.
      apply in_map. exact Hr.
  - intros m r Hr. unfold select in Hr; simpl in Hr.
    apply filter_In in Hr as [_ Hr]. apply String.eqb_eq. exact Hr.
Qed.

(** *** The lines of a file *)

(** No field of the record needs quotes in the file. *)
Definition writable (r : Row) : bool :=
  negb (needs_quoting (date r)) && negb (needs_quoting (band r)) &&
  negb (needs_quoting (float_repr (value r))) &&
  negb (needs_quoting (model r)) && negb (needs_quoting (scenario r)).

Lemma writable_plain (r : Row) :
  writable r = true ->
  plain (date r) /\ plain (band r) /\ plain (float_repr (value r)) /\
  plain (model r) /\ plain (scenario r).
Proof.
  unfold writable, plain. rewrite !andb_true_iff, !negb_true_iff. tauto.
Qed.

Lemma to_csv_writable (df : DataFrame) :
  columns df = std_columns -> forallb writable (rows df) = true ->
  to_csv df =
    text_of_lines ("date,band,value,model,scenario"
                     :: map record_text (rows df)).
Proof.
  intros Hcols Hrows. rewrite forallb_forall in Hrows. unfold to_csv.
  rewrite text_of_lines_cons.
  assert (header_line df =
            "date,band,value,model,scenario" ++ newline) as ->
      by (unfold header_line; rewrite Hcols; reflexivity).
  assert (String.concat "" (map (data_line df) (rows df)) =
            text_of_lines (map record_text (rows df))) as ->.
  { unfold text_of_lines. rewrite map_map. f_equal.
    apply map_ext_in. intros r Hr.
    destruct (writable_plain r (Hrows r Hr)) as (Hd & Hb & Hv & Hm & Hs).
    unfold data_line, csv_line, record_text. rewrite Hcols.
    cbn [map std_columns cell_text].
    rewrite !csv_field_plain by assumption. reflexivity. }
  rewrite append_assoc. reflexivity.
Qed.

Lemma record_text_no_break (r : Row) :
  writable r = true -> contains LF (record_text r) = false.
Proof.
  intros Hr. destruct (writable_plain r Hr) as (Hd & Hb & Hv & Hm & Hs).
  unfold record_text. cbn [String.concat].
  rewrite !contains_append.
  rewrite (plain_no_break _ Hd), (plain_no_break _ Hb),
    (plain_no_break _ Hv), (plain_no_break _ Hm), (plain_no_break _ Hs).
  reflexivity.
Qed.

Lemma file_lines (lat lon : Q) (location_name now : string)
    (models_included : list string) (df : DataFrame) :
  columns df = std_columns ->
  contains LF (float_repr lat) = false ->
  contains LF (float_repr lon) = false ->
  contains LF location_name = false ->
  contains LF now = false ->
  Forall (fun m => contains LF m = false) models_included ->
  forallb writable (rows df) = true ->
  split_on LF (create_metadata lat lon location_name now models_included
                 ++ to_csv df) =
    (metadata_lines lat lon location_name now models_included
       ++ "date,band,value,model,scenario"
       :: map record_text (rows df) ++ [""])%list.
Proof.
  intros Hcols Hlat Hlon Hloc Hnow Hmodels Hrows.
  pose proof (metadata_lines_ok lat lon location_name now models_included
                Hlat Hlon Hloc Hnow Hmodels) as Hmeta.
  set (meta := metadata_lines lat lon location_name now models_included)
    in *.
  assert (Hne : meta <> []) by (unfold meta, metadata_lines; discriminate).
  unfold create_metadata. fold meta.
  rewrite (concat_newline_text meta Hne).
  rewrite (to_csv_writable df Hcols Hrows).
  rewrite <- text_of_lines_app, split_lines.
  - rewrite <- app_assoc. reflexivity.
  - apply Forall_app. split.
    + eapply Forall_impl; [| exact Hmeta]. intros l Hl; exact (proj2 Hl).
    + constructor; [reflexivity |].
      apply Forall_forall. intros l Hl.
      apply in_map_iff in Hl as (r & <- & Hr).
      apply record_text_no_break.
      rewrite forallb_forall in Hrows. apply Hrows. exact Hr.
Qed.

(** X17. When the final table has the columns date, band, value, model,
    scenario, no field of a record needs quotes, and the coordinates, the
    place name and the time stamp hold no line break, the lines of the
    combined file are the metadata lines, each starting with [#], then
    the header row [date,band,value,model,scenario], then one line per
    record in the order of the table; the file of each model has the
    same shape with the records of that model. *)
Theorem files_are_metadata_header_records (lat lon : Q)
    (location_name now : string) (out : DataFrame) :
  columns out = std_columns ->
  contains LF (float_repr lat) = false ->
  contains LF (float_repr lon) = false ->
  contains LF location_name = false ->
  contains LF now = false ->
  forallb writable (rows out) = true ->
  split_on LF (combined_file lat lon location_name now out) =
    (metadata_lines lat lon location_name now (unique_models out)
       ++ "date,band,value,model,scenario"
       :: map record_text (rows out) ++ [""])%list /\
  Forall (fun l => is_comment l = true)
         (metadata_lines lat lon location_name now (unique_models out)) /\
  (forall m, In m (unique_models out) ->
     split_on LF (model_file lat lon location_name now out m) =
       (metadata_lines lat lon location_name now [m]
          ++ "date,band,value,model,scenario"
          :: map record_text (filter (fun r => model r =? m) (rows out))
          ++ [""])%list /\
     Forall (fun l => is_comment l = true)
            (metadata_lines lat lon location_name now [m])).
Proof.
  intros Hcols Hlat Hlon Hloc Hnow Hrows.
  assert (Hmodels : Forall (fun m => contains LF m = false)
                           (unique_models out)).
  { apply Forall_forall. intros m Hm.
    unfold unique_models in Hm. rewrite in_sorted_unique in Hm.
    apply in_map_iff in Hm as (r & <- & Hr).
    rewrite forallb_forall in Hrows.
    destruct (writable_plain r (Hrows r Hr)) as (_ & _ & _ & Hm & _).
    apply plain_no_break. exact Hm. }
  split; [| split].
  - unfold combined_file. apply file_lines; assumption.
  - pose proof (metadata_lines_ok lat lon location_name now
                  (unique_models out) Hlat Hlon Hloc Hnow Hmodels) as Hmeta.
    eapply Forall_impl; [| exact Hmeta]. intros l Hl; exact (proj1 Hl).
  - intros m Hm.
    assert (Hone : Forall (fun m0 => contains LF m0 = false) [m]).
    { constructor; [| constructor].
      rewrite Forall_forall in Hmodels. apply Hmodels. exact Hm. }
    split.
    + unfold model_file. cbv zeta.
      apply (file_lines lat lon location_name now [m]
               (select (fun r => model r =? m) out)); try assumption.
      unfold select; simpl. apply forallb_forall. intros r Hr.
      apply filter_In in Hr as [Hr _].
      rewrite forallb_forall in Hrows. apply Hrows. exact Hr.
    + pose proof (metadata_lines_ok lat lon location_name now [m]
                    Hlat Hlon Hloc Hnow Hone) as Hmeta.
      eapply Forall_impl; [| exact Hmeta]. intros l Hl; exact (proj1 Hl).
Qed.

End WithLibrary.

Lemma model_files_partition_table_witness :
  unique_models (PackagerFacts.sample_out true true)
    = ["CanESM5"; "ENSEMBLE-MEAN"; "GFDL-ESM4"]%list /\
  NoDup (unique_models (PackagerFacts.sample_out true true)) /\
  Permutation
    (flat_map
       (fun m => rows (select (fun r => model r =? m)
                              (PackagerFacts.sample_out true true)))
       (unique_models (PackagerFacts.sample_out true true)))
    (rows (PackagerFacts.sample_out true true)).
Proof.
  destruct (model_files_partition_table (PackagerFacts.sample_out true true))
    as (Hnodup & _ & _ & Hperm & _).
  split; [vm_compute; reflexivity |].
  split; [exact Hnodup | exact Hperm].
Defined.

Lemma files_are_metadata_header_records_witness :
  exists meta,
    split_on LF
      (combined_file (lib := Reference.library) 48 2 "Paris"
         "2025-01-01 00:00:00" (PackagerFacts.sample_out true true)) =
    (meta ++ [ "date,band,value,model,scenario";
               "2000-01-01,tas,10.0,CanESM5,historical";
               "2000-01-01,tas,15.0,ENSEMBLE-MEAN,historical";
               "2000-01-01,tas,20.0,GFDL-ESM4,historical";
               "" ])%list /\
    Forall (fun l => is_comment l = true) meta.
Proof.
  exists (metadata_lines (lib := Reference.library) 48 2 "Paris"
            "2025-01-01 00:00:00"
            (unique_models (PackagerFacts.sample_out true true))).
  destruct (files_are_metadata_header_records (lib := Reference.library)
              48 2 "Paris" "2025-01-01 00:00:00"
              (PackagerFacts.sample_out true true))
    as (Hlines & Hmeta & _).
  - vm_compute. reflexivity.
  - vm_compute. reflexivity.
  - vm_compute. reflexivity.
  - reflexivity.
  - reflexivity.
  - vm_compute. reflexivity.
  - split; [| exact Hmeta].
    rewrite Hlines. apply f_equal. vm_compute. reflexivity.
Defined.

End FilesFacts.
